(** * Proxima node core: flags, wire frames, pull client, multi-state store

    A shallow embedding of the parts of the node that the specification
    makes checkable statements about:

    - [Vertex], [Attacher]: the flag bytes of [core/vertex/types.go] and
      [core/attacher/types.go];
    - [Peering]: the heartbeat frame and the query-transactions frame of
      [peering/peers.go];
    - [PullClient]: the pull list of
      [core/work_process/pull_client/pull_client.go];
    - [Multistate]: [Readable.GetStem] and [Updatable.Update] of
      [multistate/state.go].

    Unsigned machine integers are values of [Z] with the wrap-around written
    out, a byte is a [Z] in [0, 256), a byte string is a [list Z]; Go maps
    and the key/value store are [gmap]s. *)

From Stdlib Require Import ZArith List Lia Bool String.
From stdpp Require Import base option list gmap fin_maps.

Local Open Scope Z_scope.

(** ** Machine integers and byte strings *)

Definition uint8 (z : Z) : Z := z mod 2 ^ 8.
Definition uint16 (z : Z) : Z := z mod 2 ^ 16.
Definition uint32 (z : Z) : Z := z mod 2 ^ 32.
Definition uint64 (z : Z) : Z := z mod 2 ^ 64.

(** Conversion [int64(x)] of a 64-bit pattern: two's complement. *)
Definition int64 (z : Z) : Z := (z + 2 ^ 63) mod 2 ^ 64 - 2 ^ 63.

Definition is_byte (b : Z) : Prop := 0 <= b < 256.
Definition is_bytes (l : list Z) : Prop := Forall is_byte l.

(** ** core/vertex/types.go *)

Module Vertex.

(** [Flags uint8] *)
Definition Flags := Z.

Definition FlagVertexDefined : Flags := 1.
Definition FlagVertexConstraintsValid : Flags := 2.
Definition FlagVertexTxBytesPersisted : Flags := 4.

(** [func (f *Flags) FlagsUp(fl Flags) bool { return *f&fl == fl }] *)
Definition FlagsUp (f fl : Flags) : bool := Z.land f fl =? fl.

(** [func (f *Flags) SetFlagsUp(fl Flags) { *f = *f | fl }]: the new value
    of the receiver. *)
Definition SetFlagsUp (f fl : Flags) : Flags := Z.lor f fl.

(** The operations the type offers, and the value they leave in the
    receiver. *)
Inductive Op : Type :=
| OpFlagsUp (fl : Flags)
| OpSetFlagsUp (fl : Flags).

Definition apply (f : Flags) (op : Op) : Flags :=
  match op with
  | OpFlagsUp _ => f
  | OpSetFlagsUp fl => SetFlagsUp f fl
  end.

Definition run (ops : list Op) (f : Flags) : Flags := fold_left apply ops f.

End Vertex.

(** ** core/attacher/types.go *)

Module Attacher.

Definition Flags := Z.

Definition FlagKnown : Flags := 1.
Definition FlagDefined : Flags := 2.
Definition FlagEndorsementsSolid : Flags := 4.
Definition FlagInputsSolid : Flags := 8.

(** [func (f Flags) FlagsUp(fl Flags) bool { return f&fl == fl }]: a value
    receiver, the flags are read and not changed. *)
Definition FlagsUp (f fl : Flags) : bool := Z.land f fl =? fl.

Inductive Op : Type :=
| OpFlagsUp (fl : Flags).

Definition apply (f : Flags) (op : Op) : Flags :=
  match op with
  | OpFlagsUp _ => f
  end.

Definition run (ops : list Op) (f : Flags) : Flags := fold_left apply ops f.

End Attacher.

(** ** peering/peers.go: heartbeat and query-transactions frames *)

Module Peering.

(** *** Go's [time.Time] and [encoding/binary], as far as the frames use
    them.

    A [time.Time] is an instant: seconds since the Unix epoch and
    nanoseconds within the second (0 <= nsec < 10^9). The zone and the
    monotonic reading are not part of any frame. *)
Record Time : Type := mkTime { unixSec : Z; nsec : Z }.

(** The zero value [time.Time{}]: January 1 of year 1, 00:00:00 UTC. *)
Definition zeroTime : Time := mkTime (-62135596800) 0.

(** [t.UnixNano()]: [unixSec*1e9 + nsec] in [int64] arithmetic. *)
Definition UnixNano (t : Time) : Z := int64 (unixSec t * 10 ^ 9 + nsec t).

(** [time.Unix(sec, nsec)]: Go normalises [nsec] into [0, 1e9) with the
    truncating division of the language. *)
Definition Unix (sec nsec : Z) : Time :=
  if (nsec <? 0) || (10 ^ 9 <=? nsec) then
    let n := Z.quot nsec (10 ^ 9) in
    let sec := int64 (sec + n) in
    let nsec := nsec - n * 10 ^ 9 in
    if nsec <? 0 then mkTime (int64 (sec - 1)) (nsec + 10 ^ 9)
    else mkTime sec nsec
  else mkTime sec nsec.

(** A clock the frame can carry: a proper instant whose distance from the
    Unix epoch in nanoseconds fits [int64] (years 1678 to 2262). *)
Definition clock_representable (t : Time) : Prop :=
  0 <= nsec t < 10 ^ 9
  /\ - 2 ^ 63 <= unixSec t * 10 ^ 9 + nsec t < 2 ^ 63.

(** [byte(x)] *)
Definition byte (x : Z) : Z := Z.land x 255.

(** [binary.BigEndian.PutUint64(b, v)] *)
Definition PutUint64 (v : Z) : list Z :=
  [ byte (Z.shiftr v 56); byte (Z.shiftr v 48); byte (Z.shiftr v 40);
    byte (Z.shiftr v 32); byte (Z.shiftr v 24); byte (Z.shiftr v 16);
    byte (Z.shiftr v 8); byte v ].

(** [binary.BigEndian.PutUint16(b, v)] *)
Definition PutUint16 (v : Z) : list Z := [ byte (Z.shiftr v 8); byte v ].

(** [binary.BigEndian.Uint64(b)] and [Uint16(b)]: the bytes, most
    significant first, or-ed together after shifting. *)
Definition BigEndian (b : list Z) : Z :=
  fold_left (fun acc x => Z.lor (Z.shiftl acc 8) x) b 0.

(** *** Heartbeat *)

Record heartbeatInfo : Type := mkHeartbeatInfo {
  clock : Time;
  ignoresAllPullRequests : bool;
  acceptsPullRequestsFromStaticPeersOnly : bool
}.

(** [flagIgnoresAllPullRequests = byte(0b00000001)] *)
Definition flagIgnoresAllPullRequests : Z := 1.

(** [flagAcceptsPullRequestsFromStaticPeersOnly = byte(0x00000010)]: the
    literal is hexadecimal, its value is 16. *)
Definition flagAcceptsPullRequestsFromStaticPeersOnly : Z := 16.

Definition flags (hi : heartbeatInfo) : Z :=
  let ret := 0 in
  let ret := if ignoresAllPullRequests hi
             then Z.lor ret flagIgnoresAllPullRequests else ret in
  let ret := if acceptsPullRequestsFromStaticPeersOnly hi
             then Z.lor ret flagAcceptsPullRequestsFromStaticPeersOnly
             else ret in
  ret.

Definition setFromFlags (hi : heartbeatInfo) (fl : Z) : heartbeatInfo :=
  {| clock := clock hi;
     ignoresAllPullRequests :=
       negb (Z.land fl flagIgnoresAllPullRequests =? 0);
     acceptsPullRequestsFromStaticPeersOnly :=
       negb (Z.land fl flagAcceptsPullRequestsFromStaticPeersOnly =? 0) |}.

Definition Bytes (hi : heartbeatInfo) : list Z :=
  PutUint64 (uint64 (UnixNano (clock hi))) ++ [flags hi].

Inductive error : Type :=
| ErrWrongDataLen.

Definition heartbeatInfoFromBytes (data : list Z) : heartbeatInfo + error :=
  if negb (Nat.eqb (length data) (8 + 1)) then inr ErrWrongDataLen
  else
    let ret := {| clock := Unix 0 (int64 (BigEndian (take 8 data)));
                  ignoresAllPullRequests := false;
                  acceptsPullRequestsFromStaticPeersOnly := false |} in
    inl (setFromFlags ret (nth 8 data 0)).

(** *** Query-transactions frame *)

(** Modelled from the spec: [core.TransactionIDLength] is declared outside
    the sources; the pull frame is "2-byte count || count x 32-byte txid". *)
Definition TransactionIDLength : nat := 32.

(** A [core.TransactionID] is an array of [TransactionIDLength] bytes. *)
Definition TransactionID := list Z.

Definition is_TransactionID (t : TransactionID) : Prop :=
  length t = TransactionIDLength.

(** Modelled from the spec: [core.TransactionIDFromBytes] is declared outside
    the sources; a transaction ID is a fixed-width byte string, so the bytes
    are taken as they are when the width is right. *)
Definition TransactionIDFromBytes (data : list Z) : option TransactionID :=
  if Nat.eqb (length data) TransactionIDLength then Some data else None.

(** [math.MaxUint16] *)
Definition MaxUint16 : Z := 65535.

(** What a call comes back with: a value, an [error], or a panic raised by
    [util.Assertf] / [common.AssertNoError]. *)
Inductive result (A : Type) : Type :=
| Ok (a : A)
| Err (e : string)
| Panic (msg : string).
Arguments Ok {A} a.
Arguments Err {A} e.
Arguments Panic {A} msg.

Section QueryTransactions.

(** The message type byte, a constant declared outside the sources. *)
Variable PeerMessageTypeQueryTransactions : Z.

Definition encodePeerMessageQueryTransactions
    (txids : list TransactionID) : result (list Z) :=
  if negb (Z.of_nat (length txids) <? MaxUint16)
  then Panic "too many transaction IDs"
  else
    Ok ([PeerMessageTypeQueryTransactions]
          ++ PutUint16 (uint16 (Z.of_nat (length txids)))
          ++ concat txids).

(** The loop [for i := range ret] over a [bytes.Reader] on [rdr]:
    [rdr.Read(txid[:])] hands out up to [TransactionIDLength] bytes and
    reports [io.EOF] when none is left. *)
Fixpoint readTransactionIDs (n : nat) (rdr : list Z)
    : result (list TransactionID) :=
  match n with
  | O => Ok []
  | S n' =>
      let txid := take TransactionIDLength rdr in
      if Nat.eqb (length rdr) 0
         || negb (Nat.eqb (length txid) TransactionIDLength)
      then Err "DecodePeerMessageQueryTransactions: wrong msg data"
      else
        match TransactionIDFromBytes txid with
        | None => Panic "TransactionIDFromBytes"
        | Some id =>
            match readTransactionIDs n' (drop TransactionIDLength rdr) with
            | Ok ret => Ok (id :: ret)
            | Err e => Err e
            | Panic m => Panic m
            end
        end
  end.

Definition decodePeerMessageQueryTransactions
    (data : list Z) : result (list TransactionID) :=
  if (length data <? 3)%nat
     || negb (nth 0 data 0 =? PeerMessageTypeQueryTransactions)
  then Err "not a QueryTransactions message"
  else
    readTransactionIDs (Z.to_nat (BigEndian (take 2 (drop 1 data))))
                       (drop 3 data).

End QueryTransactions.

(** *** Tx-bytes frame *)

Section TxBytesMessage.

(** The message type byte, a constant declared outside the sources. *)
Variable PeerMessageTypeTxBytes : Z.

Definition encodePeerMessageTxBytes (txBytes : list Z) : result (list Z) :=
  if negb (Z.of_nat (length txBytes) <? MaxUint16)
  then Panic "too long transaction bytes"
  else
    Ok ([PeerMessageTypeTxBytes]
          ++ PutUint16 (uint16 (Z.of_nat (length txBytes)))
          ++ txBytes).

Definition decodePeerMessageTxBytes (data : list Z) : result (list Z) :=
  if (length data <? 3)%nat || negb (nth 0 data 0 =? PeerMessageTypeTxBytes)
  then Err "not a TxBytes message"
  else
    let size := BigEndian (take 2 (drop 1 data)) in
    if negb (Z.of_nat (length data) =? size + 3)
    then Err "DecodePeerMessageTxBytes: wrong data length"
    else Ok (drop 3 data).

End TxBytesMessage.

(** *** Blacklist *)

Section Blacklist.

Context {PeerID : Type} `{Countable PeerID}.

(** [ps.blacklist[id] = time.Now().Add(ttl)], instants and durations in
    nanoseconds. *)
Definition addToBlacklist (nowis : Z) (blacklist : gmap PeerID Z)
    (id : PeerID) (ttl : Z) : gmap PeerID Z :=
  <[id := nowis + ttl]> blacklist.

Definition isInBlacklist (blacklist : gmap PeerID Z) (id : PeerID) : bool :=
  match blacklist !! id with
  | Some _ => true
  | None => false
  end.

(** [cleanBlacklist]: the first loop collects, in the order [range] hands
    out the entries, the IDs whose deadline is before [nowis]; the second
    deletes them. *)
Definition cleanBlacklist (nowis : Z) (order : list (PeerID * Z))
    (blacklist : gmap PeerID Z) : gmap PeerID Z :=
  let toDelete :=
    fold_left (fun toDelete e =>
                 if snd e <? nowis then toDelete ++ [fst e] else toDelete)
      order [] in
  fold_left (fun bl id => delete id bl) toDelete blacklist.

End Blacklist.

(** *** peering/peer.go: the ring buffer of clock differences *)

Definition Second : Z := 1000000000.
Definition clockTolerance : Z := 5 * Second.
Definition heartbeatRate : Z := Second.
Definition aliveNumHeartbeats : Z := 3.
Definition aliveDuration : Z := aliveNumHeartbeats * heartbeatRate.
Definition gracePeriodAfterAdded : Z := 10 * heartbeatRate.

(** The fields of [Peer] that [_evidenceClockDifference] and
    [avgClockDifference] use: [clockDifferences [10]time.Duration] and
    [clockDifferencesIdx int]. *)
Record ClockDifferences : Type := mkClockDifferences {
  clockDifferences : list Z;
  clockDifferencesIdx : Z
}.

(** [_evidenceClockDifference(diff)(p)]. Indexing an array out of its range
    panics; [%] is the remainder of the truncating division. *)
Definition _evidenceClockDifference (diff : Z) (p : ClockDifferences)
    : result ClockDifferences :=
  if (clockDifferencesIdx p <? 0)
     || (Z.of_nat (length (clockDifferences p)) <=? clockDifferencesIdx p)
  then Panic "index out of range"
  else
    Ok {| clockDifferences :=
            <[Z.to_nat (clockDifferencesIdx p) := diff]> (clockDifferences p);
          clockDifferencesIdx :=
            Z.rem (clockDifferencesIdx p + 1)
                  (Z.of_nat (length (clockDifferences p))) |}.

(** [avgClockDifference]: the sum is kept in an [int64]. *)
Definition avgClockDifference (p : ClockDifferences) : Z :=
  let ret := fold_left (fun ret d => int64 (ret + d)) (clockDifferences p) 0 in
  Z.quot ret (Z.of_nat (length (clockDifferences p))).

(** The test of [dropPeersWithTooBigClockDiffs] that decides about a
    peer. *)
Definition hasTooBigClockDiff (p : ClockDifferences) : bool :=
  clockTolerance <? avgClockDifference p.

(** A peer as the code keeps it: ten slots and an index into them. *)
Definition wf_ClockDifferences (p : ClockDifferences) : Prop :=
  length (clockDifferences p) = 10%nat /\ 0 <= clockDifferencesIdx p < 10.

Definition Zsum (l : list Z) : Z := fold_right Z.add 0 l.

(** The evidences of a sequence of heartbeats, one after the other. *)
Fixpoint evidenceClockDifferences (diffs : list Z) (p : ClockDifferences)
    : result ClockDifferences :=
  match diffs with
  | [] => Ok p
  | d :: diffs' =>
      match _evidenceClockDifference d p with
      | Ok p' => evidenceClockDifferences diffs' p'
      | Err e => Err e
      | Panic m => Panic m
      end
  end.

(** [_isAlive] and [_isDead] of [peer.go], on the two instants they look
    at; [sinceLast] and [sinceAdded] are the two values of [time.Since]. *)
Definition _isAlive (sinceLastMsgReceived : Z) : bool :=
  sinceLastMsgReceived <? aliveDuration.

Definition _isDead (sinceLastMsgReceived sinceAdded : Z) : bool :=
  negb (_isAlive sinceLastMsgReceived)
  && (gracePeriodAfterAdded <? sinceAdded).

End Peering.

(** ** multistate: the serialized root record

    [RootRecord.Bytes] and [RootRecordFromBytes] are exercised by
    [TestSerialization] and are not part of the sources at hand. The test is
    written against a root record whose ledger coverage is a two-element
    array, [LedgerCoverage{0, 1337}], with [LatestDelta()] reading the first
    element. *)

Module RootRecordSerialization.

Import Peering.

Record LedgerCoverage : Type := mkLedgerCoverage { delta0 : Z; delta1 : Z }.

(** Modelled from the spec: [LedgerCoverage.LatestDelta] is not in the
    sources; the test has [LedgerCoverage{0, 1337}.LatestDelta() == 0] and
    expects a panic for [LedgerCoverage{42, 1337}]. *)
Definition LatestDelta (lc : LedgerCoverage) : Z := delta0 lc.

Record RootRecord : Type := mkRootRecord {
  Root : list Z;
  SequencerID : list Z;
  Coverage : LedgerCoverage
}.

Section Codec.

(** The width of a chain ID, a constant declared outside the sources. *)
Variable ChainIDLength : nat.

(** Modelled from the spec: [RootRecord.Bytes] is not in the sources. The
    value stored for a branch is a "deterministic encoding of RootRecord";
    the test adds that encoding panics on
    [r.LedgerCoverage.LatestDelta() == 0] being false. The fields are laid
    out at fixed widths: the chain ID, the coverage below the latest delta as
    eight big-endian bytes, then the commitment. *)
Definition Bytes (r : RootRecord) : result (list Z) :=
  if negb (LatestDelta (Coverage r) =? 0)
  then Panic "r.LedgerCoverage.LatestDelta() == 0"
  else Ok (SequencerID r ++ PutUint64 (delta1 (Coverage r)) ++ Root r).

(** Modelled from the spec: [RootRecordFromBytes] is not in the sources; it
    reads back the layout of [Bytes] and returns an error on data that is too
    short. *)
Definition RootRecordFromBytes (data : list Z) : result RootRecord :=
  if (length data <? ChainIDLength + 8)%nat
  then Err "RootRecordFromBytes: wrong data length"
  else
    Ok {| Root := drop (ChainIDLength + 8) data;
          SequencerID := take ChainIDLength data;
          Coverage :=
            mkLedgerCoverage 0 (BigEndian (take 8 (drop ChainIDLength data))) |}.

(** The values the Go type admits: a chain ID of the fixed width and a
    64-bit coverage. *)
Definition wf_RootRecord (r : RootRecord) : Prop :=
  length (SequencerID r) = ChainIDLength
  /\ 0 <= delta1 (Coverage r) < 2 ^ 64.

End Codec.

End RootRecordSerialization.

(** ** core/work_process/pull_client/pull_client.go *)

Module PullClient.

(** Instants and durations in nanoseconds. [t.Add(d)] is [t + d],
    [t.After(u)] is [u < t] and [time.Since(t)] is a fresh reading of the
    clock minus [t]. *)
Definition Time := Z.

Definition Millisecond : Z := 1000000.
Definition pullPeriod : Z := 500 * Millisecond.
Definition startPullingFromAllAfterNumRandomPulls : Z := 10.
Definition pullLoopPeriod : Z := 50 * Millisecond.

Record pullRecord : Type := mkPullRecord {
  start : Time;
  nextDeadline : Time
}.

Section Client.

Context {TransactionID : Type} `{Countable TransactionID}.

(** What the client asks of its environment. [GoTransactionIn] is the
    statement [go p.transactionIn(txBytesWithMetadata)]. *)
Inductive Call : Type :=
| PullTransactionsFromRandomPeer (lst : list TransactionID)
| PullTransactionsFromAllPeers (lst : list TransactionID)
| GoTransactionIn (txBytesWithMetadata : list Z).

(** The client: its pull list, and how many times the clock was read.
    [time.Now()] is the next reading of [now], a sequence that the
    environment fixes. *)
Record State : Type := mkState {
  pullList : gmap TransactionID pullRecord;
  reads : nat
}.

Variable now : nat -> Time.

(** [p.TxBytesStore().GetTxBytesWithMetadata(&txid)]: empty when the store
    does not have the transaction. *)
Variable GetTxBytesWithMetadata : TransactionID -> list Z.

Definition startPulling (p : State) (txid : TransactionID)
    : State * list Call :=
  match pullList p !! txid with
  | Some _ => (p, [])
  | None =>
      let txBytesWithMetadata := GetTxBytesWithMetadata txid in
      if (0 <? length txBytesWithMetadata)%nat then
        (p, [GoTransactionIn txBytesWithMetadata])
      else
        let rec := {| start := now (reads p);
                      nextDeadline := now (S (reads p)) + pullPeriod |} in
        ({| pullList := <[txid := rec]> (pullList p);
            reads := S (S (reads p)) |},
         [PullTransactionsFromRandomPeer [txid]])
  end.

Definition stopPulling (p : State) (txid : TransactionID) : State :=
  match pullList p !! txid with
  | Some _ => {| pullList := delete txid (pullList p); reads := reads p |}
  | None => p
  end.

(** The variables of the loop in [maturedPullList]. *)
Record Matured : Type := mkMatured {
  buf : list TransactionID;
  atLeastOneIsStuck : bool;
  list' : gmap TransactionID pullRecord;
  reads' : nat
}.

(** The body of [for txid, rec := range p.pullList]. The right operand of
    [&&] reads the clock, and only when the left one holds. *)
Definition maturedBody (nowis nextDeadline' : Time)
    (m : Matured) (e : TransactionID * pullRecord) : Matured :=
  let '(txid, rec) := e in
  if nextDeadline rec <? nowis then
    let '(stuck, n) :=
      if negb (atLeastOneIsStuck m) then
        (pullPeriod * startPullingFromAllAfterNumRandomPulls
           <? now (reads' m) - start rec,
         S (reads' m))
      else (false, reads' m) in
    {| buf := buf m ++ [txid];
       atLeastOneIsStuck := if stuck then true else atLeastOneIsStuck m;
       list' := <[txid := {| start := start rec;
                             nextDeadline := nextDeadline' |}]> (list' m);
       reads' := n |}
  else m.

(** [range] hands out the entries of a Go map in an order of its choosing:
    [order] is that order, some arrangement of the entries of the map. *)
Definition maturedPullList (order : list (TransactionID * pullRecord))
    (p : State) : State * (list TransactionID * bool) :=
  let nowis := now (reads p) in
  let nextDeadline' := nowis + pullPeriod in
  let m := fold_left (maturedBody nowis nextDeadline') order
             {| buf := []; atLeastOneIsStuck := false;
                list' := pullList p; reads' := S (reads p) |} in
  ({| pullList := list' m; reads := reads' m |},
   (buf m, atLeastOneIsStuck m)).

(** One turn of the loop of [backgroundPullLoop], after
    [time.After(pullLoopPeriod)] has fired. *)
Definition backgroundPullLoopTurn (order : list (TransactionID * pullRecord))
    (p : State) : State * list Call :=
  let '(p', (buffer, stuck)) := maturedPullList order p in
  if (0 <? length buffer)%nat then
    if stuck then (p', [PullTransactionsFromAllPeers buffer])
    else (p', [PullTransactionsFromRandomPeer buffer])
  else (p', []).

(** What [select] wakes up on. *)
Inductive Wakeup : Type :=
| CtxDone
| AfterPullLoopPeriod (order : list (TransactionID * pullRecord)).

Fixpoint backgroundPullLoop (ws : list Wakeup) (p : State)
    : State * list Call :=
  match ws with
  | [] => (p, [])
  | CtxDone :: _ => (p, [])
  | AfterPullLoopPeriod order :: ws' =>
      let '(p1, calls1) := backgroundPullLoopTurn order p in
      let '(p2, calls2) := backgroundPullLoop ws' p1 in
      (p2, calls1 ++ calls2)
  end.

(** The entries a turn selects, in the order [range] gave them. *)
Definition selected (nowis : Time) (order : list (TransactionID * pullRecord))
    : list (TransactionID * pullRecord) :=
  List.filter (fun e => nextDeadline (snd e) <? nowis) order.

(** The entry of a selected transaction after the turn. *)
Definition refreshed (nowis : Time) (rec : pullRecord) : pullRecord :=
  if nextDeadline rec <? nowis
  then {| start := start rec; nextDeadline := nowis + pullPeriod |}
  else rec.

(** Whether one of the entries is found stuck, the [k]-th of them against
    the [k]-th reading of the clock from [n] on. *)
Fixpoint anyStuck (n : nat) (sel : list (TransactionID * pullRecord)) : bool :=
  match sel with
  | [] => false
  | e :: sel' =>
      (pullPeriod * startPullingFromAllAfterNumRandomPulls
         <? now n - start (snd e))
      || anyStuck (S n) sel'
  end.

(** [Input] and [consume]: what the work process does with a queued
    input. [By] only goes to the trace. *)
Record Input : Type := mkInput {
  TxID : TransactionID;
  Stop : bool
}.

Definition consume (p : State) (inp : Input) : State * list Call :=
  if Stop inp then (stopPulling p (TxID inp), [])
  else startPulling p (TxID inp).

(** A run of the background loop in which every [range] hands out the
    entries of the pull list as it is at that turn. *)
Fixpoint rangesPullList (ws : list Wakeup) (p : State) : Prop :=
  match ws with
  | [] => True
  | CtxDone :: _ => True
  | AfterPullLoopPeriod order :: ws' =>
      order ≡ₚ map_to_list (pullList p)
      /\ rangesPullList ws' (fst (backgroundPullLoopTurn order p))
  end.

(** [Time.Sub], which [time.Since] calls: a [Duration] is an [int64] of
    nanoseconds, and the difference of two instants that does not fit is
    [maxDuration] or [minDuration]. *)
Definition maxDuration : Z := 2 ^ 63 - 1.
Definition minDuration : Z := - 2 ^ 63.

Definition Sub (t u : Time) : Z := Z.max minDuration (Z.min maxDuration (t - u)).

(** [stuckList(forHowLong)]: the entries started before
    [nowis.Add(-forHowLong)], each with [time.Since(rec.start)], which reads
    the clock again. The negation is that of an [int64]. *)
Definition stuckListBody (deadline : Time)
    (acc : gmap TransactionID Z * nat) (e : TransactionID * pullRecord)
    : gmap TransactionID Z * nat :=
  if start (snd e) <? deadline
  then (<[fst e := Sub (now (snd acc)) (start (snd e))]> (fst acc),
        S (snd acc))
  else acc.

Definition stuckList (forHowLong : Z)
    (order : list (TransactionID * pullRecord)) (p : State)
    : State * gmap TransactionID Z :=
  let nowis := now (reads p) in
  let deadline := nowis + int64 (- forHowLong) in
  let acc := fold_left (stuckListBody deadline) order (∅, S (reads p)) in
  ({| pullList := pullList p; reads := snd acc |}, fst acc).

End Client.

Section TransactionIn.

(** [txmetadata] is outside the sources: the metadata type, its empty value
    [&txmetadata.TransactionMetadata{}], the assignment
    [metadata.SourceTypeNonPersistent = txmetadata.SourceTypeTxStore], and
    the two parsers, which return an error ([None]) or a value; the parsed
    metadata may be [nil]. *)
Context {TransactionMetadata : Type}.
Variable emptyMetadata : TransactionMetadata.
Variable setSourceTypeTxStore : TransactionMetadata -> TransactionMetadata.
Variable SplitTxBytesWithMetadata : list Z -> option (list Z * list Z).
Variable TransactionMetadataFromBytes :
  list Z -> option (option TransactionMetadata).

(** The workflow input [TxBytesWithMetadataIn]: whether it returned an
    error. *)
Variable TxBytesWithMetadataInFails : list Z -> TransactionMetadata -> bool.

Inductive Effect : Type :=
| TxBytesWithMetadataIn (txBytes : list Z) (metadata : TransactionMetadata)
| LogErrorf.

Definition transactionIn (txBytesWithMetadata : list Z) : list Effect :=
  match SplitTxBytesWithMetadata txBytesWithMetadata with
  | None => [LogErrorf]
  | Some (metadataBytes, txBytes) =>
      match TransactionMetadataFromBytes metadataBytes with
      | None => [LogErrorf]
      | Some parsed =>
          let metadata :=
            match parsed with
            | None => emptyMetadata
            | Some md => md
            end in
          let metadata := setSourceTypeTxStore metadata in
          if TxBytesWithMetadataInFails txBytes metadata
          then [TxBytesWithMetadataIn txBytes metadata; LogErrorf]
          else [TxBytesWithMetadataIn txBytes metadata]
      end
  end.

End TransactionIn.

Section Goroutine.

Context {TransactionID TransactionMetadata : Type}.
Variable emptyMetadata : TransactionMetadata.
Variable setSourceTypeTxStore : TransactionMetadata -> TransactionMetadata.
Variable SplitTxBytesWithMetadata : list Z -> option (list Z * list Z).
Variable TransactionMetadataFromBytes :
  list Z -> option (option TransactionMetadata).
Variable TxBytesWithMetadataInFails : list Z -> TransactionMetadata -> bool.

(** What a call of the client brings to the workflow input and the log.
    The statement [go p.transactionIn(txBytesWithMetadata)] of
    [startPulling] runs [transactionIn] on these bytes; the two pull calls
    go to the peers. *)
Definition goroutine (c : Call (TransactionID := TransactionID))
    : list (Effect (TransactionMetadata := TransactionMetadata)) :=
  match c with
  | GoTransactionIn txBytesWithMetadata =>
      transactionIn emptyMetadata setSourceTypeTxStore
        SplitTxBytesWithMetadata TransactionMetadataFromBytes
        TxBytesWithMetadataInFails txBytesWithMetadata
  | PullTransactionsFromRandomPeer _ => []
  | PullTransactionsFromAllPeers _ => []
  end.

End Goroutine.

End PullClient.

(** ** multistate/state.go *)

Module Multistate.

Import Peering.

(** *** The key/value engine behind [global.StateStore]

    [Get] returns an empty slice for a key that is not there, and [Set] with
    an empty value removes the key. A batched writer records the [Set]s in
    the order they are made; [Commit] applies them all at once, or fails and
    applies none. *)
Definition storeGet (s : gmap (list Z) (list Z)) (k : list Z) : list Z :=
  default [] (s !! k).

Definition storeSet (s : gmap (list Z) (list Z)) (kv : list Z * list Z)
    : gmap (list Z) (list Z) :=
  match snd kv with
  | [] => delete (fst kv) s
  | _ :: _ => <[fst kv := snd kv]> s
  end.

Definition applyBatch (batch : list (list Z * list Z))
    (s : gmap (list Z) (list Z)) : gmap (list Z) (list Z) :=
  fold_left storeSet batch s.

(** [batch.Commit()]: [commitErr] is the error the engine reports, if any. *)
Definition batchCommit (commitErr : option string)
    (batch : list (list Z * list Z)) (s : gmap (list Z) (list Z))
    : gmap (list Z) (list Z) * option string :=
  match commitErr with
  | Some e => (s, Some e)
  | None => (applyBatch batch s, None)
  end.

(** *** Partitions of the state store on the trie *)
Definition PartitionLedgerState : Z := 0.
Definition PartitionAccounts : Z := 1.
Definition PartitionChainID : Z := 2.
Definition PartitionCommittedTransactionID : Z := 3.

(** *** Identifiers of package [ledger] *)

(** Modelled from the spec: [ledger.OutputID] and
    [ledger.OutputIDFromBytes] are declared outside the sources; an output
    ID is a transaction ID (32 bytes) followed by a one-byte output index,
    and parsing takes the bytes as they are when the width is right. *)
Definition OutputIDLength : nat := TransactionIDLength + 1.

Definition OutputIDFromBytes (data : list Z) : option (list Z) :=
  if Nat.eqb (length data) OutputIDLength then Some data else None.

(** Modelled from the spec: [OutputID.TransactionID] is declared outside the
    sources; the transaction ID is what precedes the output index. *)
Definition OutputID_TransactionID (oid : list Z) : list Z :=
  take TransactionIDLength oid.

(** Modelled from the spec: [ledger.Slot] and its encoding are declared
    outside the sources; a slot is a 32-bit number, stored as four
    big-endian bytes. *)
Definition Slot_Bytes (slot : Z) : list Z :=
  [ byte (Z.shiftr slot 24); byte (Z.shiftr slot 16);
    byte (Z.shiftr slot 8); byte slot ].

(** *** The root record and the parameters it is made from *)

Record RootRecord : Type := mkRootRecord {
  Root : list Z;
  SequencerID : list Z;
  LedgerCoverage : Z;
  SlotInflation : Z;
  Supply : Z;
  NumTransactions : Z
}.

(** [SlotInflation], [Supply] and [NumTransactions] of the parameters carry
    the prefix [Par], the names being taken by the fields of [RootRecord]. *)
Record RootRecordParams : Type := mkRootRecordParams {
  StemOutputID : list Z;
  SeqID : list Z;
  Coverage : Z;
  ParSlotInflation : Z;
  ParSupply : Z;
  ParNumTransactions : Z
}.

Section State.

(** [OutputID.Slot()], declared outside the sources. *)
Variable OutputID_Slot : list Z -> Z.

(** [ledger.StemAccountID], a constant declared outside the sources. *)
Variable StemAccountID : list Z.

(** *** Readable *)

(** A readable state is the content of the trie under its root: the keys
    with their non-empty values. *)

(** [r.trie.Get(key)] *)
Definition trieGet (trie : gmap (list Z) (list Z)) (key : list Z) : list Z :=
  default [] (trie !! key).

(** The keys [r.trie.Iterator(prefix).IterateKeys] visits. *)
Definition keysWithPrefix (trie : gmap (list Z) (list Z)) (pfx : list Z)
    : list (list Z) :=
  List.filter (fun k => bool_decide (take (length pfx) k = pfx))
    (map_to_list trie).*1.

(** [_getUTXO] *)
Definition _getUTXO (trie : gmap (list Z) (list Z)) (oid : list Z)
    : list Z * bool :=
  let ret := trieGet trie (PartitionLedgerState :: oid) in
  if Nat.eqb (length ret) 0 then ([], false) else (ret, true).

(** The variables that the callback of [GetStem] captures. *)
Record StemIter : Type := mkStemIter {
  count : Z;
  retSlot : Z;
  retBytes : list Z
}.

(** The callback of [GetStem], on the key [k]. It returns [true] or
    panics. *)
Definition GetStemBody (trie : gmap (list Z) (list Z))
    (accountPrefix : list Z) (st : StemIter) (k : list Z) : result StemIter :=
  if negb (count st =? 0)
  then Panic "inconsistency: must be exactly 1 index record for stem output"
  else
    match OutputIDFromBytes (drop (length accountPrefix) k) with
    | None => Panic "AssertNoError"
    | Some id =>
        let '(bytes, found) := _getUTXO trie id in
        if negb found then Panic "can't find stem output"
        else Ok {| count := count st + 1;
                   retSlot := OutputID_Slot id;
                   retBytes := bytes |}
    end.

Fixpoint IterateKeys (f : StemIter -> list Z -> result StemIter)
    (keys : list (list Z)) (st : StemIter) : result StemIter :=
  match keys with
  | [] => Ok st
  | k :: keys' =>
      match f st k with
      | Ok st' => IterateKeys f keys' st'
      | Err e => Err e
      | Panic m => Panic m
      end
  end.

Definition stemAccountPrefix : list Z :=
  [PartitionAccounts; byte (Z.of_nat (length StemAccountID))] ++ StemAccountID.

Definition GetStem (trie : gmap (list Z) (list Z)) : result (Z * list Z) :=
  let accountPrefix := stemAccountPrefix in
  match IterateKeys (GetStemBody trie accountPrefix)
          (keysWithPrefix trie accountPrefix)
          {| count := 0; retSlot := 0; retBytes := [] |} with
  | Ok st => Ok (retSlot st, retBytes st)
  | Err e => Err e
  | Panic m => Panic m
  end.

(** *** Accounts and chains *)

(** [common.Concat(PartitionAccounts, byte(len(addr)), addr)] *)
Definition accountPrefixOf (addr : list Z) : list Z :=
  [PartitionAccounts; byte (Z.of_nat (length addr))] ++ addr.

(** The callback of [GetIDsLockedInAccount] over the keys: it stops at the
    first key whose tail is not an output ID, and the error is returned. *)
Fixpoint collectIDs (n : nat) (keys : list (list Z)) (ret : list (list Z))
    : result (list (list Z)) :=
  match keys with
  | [] => Ok ret
  | k :: keys' =>
      match OutputIDFromBytes (drop n k) with
      | None => Err "OutputIDFromBytes"
      | Some oid => collectIDs n keys' (ret ++ [oid])
      end
  end.

Definition GetIDsLockedInAccount (trie : gmap (list Z) (list Z))
    (addr : list Z) : result (list (list Z)) :=
  if (255 <? length addr)%nat then Err "accountID length should be <= 255"
  else
    let accountPrefix := accountPrefixOf addr in
    collectIDs (length accountPrefix) (keysWithPrefix trie accountPrefix) [].

(** The callback of [GetUTXOsLockedInAccount]: an output ID that is not in
    the ledger state is skipped. The elements are [OutputDataWithID]s, the
    ID and the data. *)
Fixpoint collectUTXOs (trie : gmap (list Z) (list Z)) (n : nat)
    (keys : list (list Z)) (ret : list (list Z * list Z))
    : result (list (list Z * list Z)) :=
  match keys with
  | [] => Ok ret
  | k :: keys' =>
      match OutputIDFromBytes (drop n k) with
      | None => Err "OutputIDFromBytes"
      | Some oid =>
          let '(data, found) := _getUTXO trie oid in
          if negb found then collectUTXOs trie n keys' ret
          else collectUTXOs trie n keys' (ret ++ [(oid, data)])
      end
  end.

Definition GetUTXOsLockedInAccount (trie : gmap (list Z) (list Z))
    (addr : list Z) : result (list (list Z * list Z)) :=
  if (255 <? length addr)%nat then Err "accountID length should be <= 255"
  else
    let accountPrefix := accountPrefixOf addr in
    collectUTXOs trie (length accountPrefix)
      (keysWithPrefix trie accountPrefix) [].

(** [ledger.ChainIDLength], a constant declared outside the sources, and
    [ErrNotFound], whose text is. *)
Variable ChainIDLength : nat.

Definition ErrNotFound : string := "ErrNotFound".

Definition _getUTXOForChainID (trie : gmap (list Z) (list Z)) (id : list Z)
    : result (list Z * list Z) :=
  if negb (Nat.eqb (length id) ChainIDLength)
  then Err "GetUTXOForChainID: chainID length"
  else
    let outID := trieGet trie (PartitionChainID :: id) in
    if Nat.eqb (length outID) 0 then Err ErrNotFound
    else
      match OutputIDFromBytes outID with
      | None => Err "OutputIDFromBytes"
      | Some oid =>
          let '(outData, found) := _getUTXO trie oid in
          if negb found then Err ErrNotFound
          else Ok (oid, outData)
      end.

(** *** Updatable *)

(** [*immutable.TrieUpdatable], of package [unitrie]: the in-memory trie.
    [trieCommit] is [trie.Commit(batch)]: the writes it makes to the batch
    and the new root. [NewTrieUpdatable] opens a trie at a root of a store
    and returns it with an error, as the Go function does. *)
Context {TrieUpdatable : Type}.
Variable trieCommit : TrieUpdatable -> list (list Z * list Z) * list Z.
Variable NewTrieUpdatable :
  gmap (list Z) (list Z) -> list Z -> TrieUpdatable * option string.

(** [UpdateTrie], declared outside the sources: it changes the in-memory
    trie and returns an error, or [None] for [nil]. *)
Context {Mutations : Type}.
Variable UpdateTrie : TrieUpdatable -> Mutations -> TrieUpdatable * option string.

(** Where root records and the latest slot live in the store, and how a
    root record is laid out: all declared outside the sources. *)
Variable rootRecordKey : list Z -> list Z.
Variable latestSlotKey : list Z.
Variable RootRecord_Bytes : RootRecord -> list Z.

(** Modelled from the spec: [writeRootRecord] is not in the sources; it
    "writes the new root record keyed by the branch txid". *)
Definition writeRootRecord (batch : list (list Z * list Z))
    (branchID : list Z) (rootData : RootRecord) : list (list Z * list Z) :=
  batch ++ [(rootRecordKey branchID, RootRecord_Bytes rootData)].

(** Modelled from the spec: [writeLatestSlot] is not in the sources; the
    latest committed slot is a singleton key. *)
Definition writeLatestSlot (batch : list (list Z * list Z)) (slot : Z)
    : list (list Z * list Z) :=
  batch ++ [(latestSlotKey, Slot_Bytes slot)].

(** Modelled from the spec: [FetchLatestCommittedSlot] is not in the
    sources; it reads the singleton key back, and an empty store is at
    slot 0. *)
Definition FetchLatestCommittedSlot (store : gmap (list Z) (list Z)) : Z :=
  BigEndian (storeGet store latestSlotKey).

Record Updatable : Type := mkUpdatable {
  trie : TrieUpdatable;
  store : gmap (list Z) (list Z)
}.

Definition updateUTXOLedgerDB
    (updateFun : TrieUpdatable -> TrieUpdatable * option string)
    (rootRecordsParams : option RootRecordParams)
    (commitErr : option string) (u : Updatable)
    : Updatable * option string :=
  let '(trie1, err) := updateFun (trie u) in
  match err with
  | Some e => ({| trie := trie1; store := store u |}, Some e)
  | None =>
      let batch := [] in
      let '(delta, newRoot) := trieCommit trie1 in
      let batch := batch ++ delta in
      let batch :=
        match rootRecordsParams with
        | Some par =>
            let latestSlot := FetchLatestCommittedSlot (store u) in
            let batch :=
              if latestSlot <? OutputID_Slot (StemOutputID par)
              then writeLatestSlot batch (OutputID_Slot (StemOutputID par))
              else batch in
            let branchID := OutputID_TransactionID (StemOutputID par) in
            writeRootRecord batch branchID
              {| Root := newRoot;
                 SequencerID := SeqID par;
                 LedgerCoverage := Coverage par;
                 SlotInflation := ParSlotInflation par;
                 Supply := ParSupply par;
                 NumTransactions := ParNumTransactions par |}
        | None => batch
        end in
      match batchCommit commitErr batch (store u) with
      | (store1, Some e) => ({| trie := trie1; store := store1 |}, Some e)
      | (store1, None) =>
          let '(trie2, err) := NewTrieUpdatable store1 newRoot in
          ({| trie := trie2; store := store1 |}, err)
      end
  end.

Definition Update (muts : Mutations)
    (rootRecordParams : option RootRecordParams)
    (commitErr : option string) (u : Updatable) : Updatable * option string :=
  updateUTXOLedgerDB (fun _ => UpdateTrie (trie u) muts)
    rootRecordParams commitErr u.

(** What [Update] puts in its batch after a successful trie update: the
    trie delta, then, with root-record parameters, the latest-slot marker if
    the branch is in a later slot than the stored one, and the root
    record. *)
Definition stagedWrites (muts : Mutations)
    (rootRecordParams : option RootRecordParams) (u : Updatable)
    : list (list Z * list Z) :=
  let trie1 := fst (UpdateTrie (trie u) muts) in
  fst (trieCommit trie1)
  ++ match rootRecordParams with
     | Some par =>
         (if FetchLatestCommittedSlot (store u)
               <? OutputID_Slot (StemOutputID par)
          then [(latestSlotKey, Slot_Bytes (OutputID_Slot (StemOutputID par)))]
          else [])
         ++ [(rootRecordKey (OutputID_TransactionID (StemOutputID par)),
              RootRecord_Bytes
                {| Root := snd (trieCommit trie1);
                   SequencerID := SeqID par;
                   LedgerCoverage := Coverage par;
                   SlotInflation := ParSlotInflation par;
                   Supply := ParSupply par;
                   NumTransactions := ParNumTransactions par |})]
     | None => []
     end.

(** Chained updates of one [Updatable]: each [Update] works on what the
    one before left. A step is the mutations, the root-record parameters
    and the outcome of [Commit]. *)
Fixpoint Updates
    (steps : list (Mutations * option RootRecordParams * option string))
    (u : Updatable) : Updatable :=
  match steps with
  | [] => u
  | (muts, rootRecordParams, commitErr) :: steps' =>
      Updates steps' (fst (Update muts rootRecordParams commitErr u))
  end.

(** Modelled from the spec: the attacher's finalisation of a branch is not
    in the sources. "If the target is a branch: compute mutations, open an
    Updatable at the baseline root, apply mutations, write
    RootRecord{root, sequencerID, coverage, slotInflation, supply,
    numTransactions}, commit. supply = prev.supply + slotInflation" with
    [prev] the root record of the predecessor branch; the sum is a [uint64]
    addition. *)
Definition commitBranch (prev : RootRecord) (stemOutputID seqID : list Z)
    (coverage slotInflation numTransactions : Z) (muts : Mutations)
    (commitErr : option string) (u : Updatable) : Updatable * option string :=
  Update muts
    (Some {| StemOutputID := stemOutputID;
             SeqID := seqID;
             Coverage := coverage;
             ParSlotInflation := slotInflation;
             ParSupply := uint64 (Supply prev + slotInflation);
             ParNumTransactions := numTransactions |})
    commitErr u.

End State.

Arguments trie {TrieUpdatable} u.
Arguments store {TrieUpdatable} u.
Arguments mkUpdatable {TrieUpdatable} trie store.

End Multistate.

(** ** core/work_process/pruner/pruner.go *)

Module Pruner.

Section PruneVertices.

(** [*vertex.WrappedTx], and [vid.DoPruningIfRelevant(nowis)], which is
    declared outside the sources: whether the vertex was marked for
    deletion, whether its past cone was unreferenced, and its number of
    references, a [uint32]. *)
Context {WrappedTx : Type}.
Variable DoPruningIfRelevant : WrappedTx -> bool * bool * Z.

(** The named results of [pruneVertices] and its local [toDelete]. The
    counts are [int]s, the six [refStats] are [uint32]s. *)
Record Pruned : Type := mkPruned {
  markedForDeletionCount : Z;
  unreferencedPastConeCount : Z;
  refStats : list Z;
  toDelete : list WrappedTx
}.

(** The body of [for _, vid := range p.Vertices()]. *)
Definition pruneBody (st : Pruned) (vid : WrappedTx) : Pruned :=
  let '(markedForDeletion, unreferencedPastCone, nReferences) :=
    DoPruningIfRelevant vid in
  let toDelete1 :=
    if markedForDeletion then toDelete st ++ [vid] else toDelete st in
  let marked1 :=
    if markedForDeletion then int64 (markedForDeletionCount st + 1)
    else markedForDeletionCount st in
  let unref1 :=
    if unreferencedPastCone then int64 (unreferencedPastConeCount st + 1)
    else unreferencedPastConeCount st in
  let i :=
    if nReferences <? Z.of_nat (length (refStats st)) - 1
    then Z.to_nat nReferences
    else (length (refStats st) - 1)%nat in
  {| markedForDeletionCount := marked1;
     unreferencedPastConeCount := unref1;
     refStats := <[i := uint32 (nth i (refStats st) 0 + 1)]> (refStats st);
     toDelete := toDelete1 |}.

(** [pruneVertices], up to the call [p.PurgeDeletedVertices(toDelete)],
    whose argument is the field [toDelete]. *)
Definition pruneVertices (vertices : list WrappedTx) : Pruned :=
  fold_left pruneBody vertices
    {| markedForDeletionCount := 0;
       unreferencedPastConeCount := 0;
       refStats := [0; 0; 0; 0; 0; 0];
       toDelete := [] |}.

(** How many of the vertices a test holds for. *)
Definition countIf (test : WrappedTx -> bool) (vertices : list WrappedTx) : Z :=
  Z.of_nat (length (List.filter test vertices)).

(** The slot of [refStats] that counts a vertex with [n] references. *)
Definition refSlot (n : Z) : nat := if n <? 5 then Z.to_nat n else 5%nat.

End PruneVertices.

End Pruner.

(** ** core/workflow/workflow.go: [SendTx] *)

Module Workflow.

Section SendTx.

Context {TransactionID PeerID : Type}.

(** [pull_tx_server.Input], with the two fields of its [PortionInfo]. *)
Record PullTxServerInput : Type := mkPullTxServerInput {
  TxID : TransactionID;
  PeerID_ : PeerID;
  LastIndex : Z;
  Index : Z
}.

(** [SendTx]: the inputs pushed to the pull-tx server, in order. *)
Definition SendTx (sendTo : PeerID) (txids : list TransactionID)
    : list PullTxServerInput :=
  imap (fun i txid =>
          {| TxID := txid;
             PeerID_ := sendTo;
             LastIndex := uint16 (Z.of_nat (length txids) - 1);
             Index := uint16 (Z.of_nat i) |})
       txids.

End SendTx.

End Workflow.

(** ** Sample values, for the instances given with the theorems *)

Module Samples.

Import Peering.

Definition rootRecord : RootRecordSerialization.RootRecord :=
  RootRecordSerialization.mkRootRecord
    [1; 2; 3] (repeat 7 32) (RootRecordSerialization.mkLedgerCoverage 0 1337).

Definition heartbeat : heartbeatInfo :=
  mkHeartbeatInfo (mkTime 1700000000 5) true false.

Definition txids : list TransactionID := [repeat 1 32; repeat 2 32].

(** A pull list with one entry, started at 0 and due at 100, and a clock
    that reads six seconds and a nanosecond more at each reading. *)
Definition pullState : PullClient.State (TransactionID := Z) :=
  PullClient.mkState {[ 7 := PullClient.mkPullRecord 0 100 ]} 0.

Definition pullOrder : list (Z * PullClient.pullRecord) :=
  [(7, PullClient.mkPullRecord 0 100)].

Definition clockReadings (n : nat) : Z := 6000000000 + Z.of_nat n.

Definition emptyTxBytesStore (txid : Z) : list Z := [].

(** A store engine with a trie that writes one node under partition 0,
    root records under the byte 254 and the latest slot under the byte
    255; the slot of an output ID is in its first four bytes. *)
Definition slotOf (oid : list Z) : Z := BigEndian (take 4 oid).

Definition trieCommit (t : unit) : list (list Z * list Z) * list Z :=
  ([([0; 1], [5])], [9]).

Definition newTrie (s : gmap (list Z) (list Z)) (root : list Z)
    : unit * option string := (tt, None).

Definition updateTrie (t : unit) (muts : unit) : unit * option string :=
  (t, None).

Definition rootRecordKey (txid : list Z) : list Z := 254 :: txid.

Definition latestSlotKey : list Z := [255].

Definition rootRecordBytes (rr : Multistate.RootRecord) : list Z :=
  PutUint64 (Multistate.Supply rr).

Definition stemOutputID : list Z := [0; 0; 0; 5] ++ repeat 0 29.

Definition rootRecordParams : Multistate.RootRecordParams :=
  Multistate.mkRootRecordParams stemOutputID (repeat 7 32) 1337 10 1010 3.

Definition prevRootRecord : Multistate.RootRecord :=
  Multistate.mkRootRecord [8] (repeat 7 32) 1000 0 1000 1.

Definition updatable : @Multistate.Updatable unit :=
  Multistate.mkUpdatable tt ∅.

(** A tx-bytes store that has the transaction 9: one byte of metadata
    length, the metadata, the transaction bytes. The metadata of the sample
    is a number, and the mark of the tx-bytes store adds 1000 to it. *)
Definition txBytesStore (txid : Z) : list Z :=
  if txid =? 9 then [1; 42; 7; 7] else [].

Definition splitTxBytesWithMetadata (data : list Z)
    : option (list Z * list Z) :=
  match data with
  | [] => None
  | n :: rest =>
      if (Z.to_nat n <=? length rest)%nat
      then Some (take (Z.to_nat n) rest, drop (Z.to_nat n) rest)
      else None
  end.

Definition metadataFromBytes (data : list Z) : option (option Z) :=
  match data with
  | [] => Some None
  | [md] => Some (Some md)
  | _ => None
  end.

Definition markTxStore (md : Z) : Z := md + 1000.

Definition inputFails (txBytes : list Z) (md : Z) : bool := false.

(** A blacklist with one peer, whose deadline is 50. *)
Definition blacklist : gmap Z Z := {[ 1 := 50 ]}.

(** A ring buffer in use, and the clock differences of twelve heartbeats. *)
Definition ringBuffer : ClockDifferences :=
  mkClockDifferences [9; 9; 9; 9; 9; 9; 9; 9; 9; 9] 3.

Definition diffs : list Z := [1; 2; 3; 4; 5; 6; 7; 8; 9; 10; 11; 12].

(** A state with one output, locked in the account [[1]]; and the same with
    a second index record under that account. *)
Definition outputID : list Z := repeat 0 Multistate.OutputIDLength.

Definition accountTrie : gmap (list Z) (list Z) :=
  <[ Multistate.PartitionLedgerState :: outputID := [5] ]>
    {[ Multistate.accountPrefixOf [1] ++ outputID := [255] ]}.

Definition accountTrie2 : gmap (list Z) (list Z) :=
  <[ Multistate.accountPrefixOf [1] ++ repeat 1 Multistate.OutputIDLength
     := [255] ]> accountTrie.

(** Vertices as numbers: the even ones are marked for deletion, the past
    cone of those below 3 is unreferenced, and a vertex has as many
    references as its number. *)
Definition doPruning (vid : Z) : bool * bool * Z := (Z.even vid, vid <? 3, vid).

Definition vertices : list Z := [0; 1; 2; 3; 4; 5; 6; 7].

End Samples.

(** * Theorems *)

(** ** Flags *)

Lemma SetFlagsUp_uint8 (f fl : Z) :
  0 <= f < 256 -> 0 <= fl < 256 -> 0 <= Vertex.SetFlagsUp f fl < 256.
Proof.
  intros [Hf0 Hf] [Hl0 Hl]. unfold Vertex.SetFlagsUp. split.
  - apply Z.lor_nonneg. lia.
  - destruct (Z.eq_dec (Z.lor f fl) 0) as [->|Hne]; [lia|].
    assert (Hpos : 0 < Z.lor f fl).
    { assert (0 <= Z.lor f fl) by (apply Z.lor_nonneg; lia). lia. }
    apply (Z.log2_lt_pow2 _ 8 Hpos).
    rewrite Z.log2_lor by lia.
    apply Z.max_lub_lt.
    + destruct (Z.eq_dec f 0) as [->|]; [simpl; lia|].
      apply Z.log2_lt_pow2; lia.
    + destruct (Z.eq_dec fl 0) as [->|]; [simpl; lia|].
      apply Z.log2_lt_pow2; lia.
Qed.

Lemma vertex_apply_keeps_bit (op : Vertex.Op) (f : Z) (i : Z) :
  Z.testbit f i = true -> Z.testbit (Vertex.apply f op) i = true.
Proof.
  intros Hb. destruct op as [fl|fl]; simpl; [exact Hb|].
  unfold Vertex.SetFlagsUp. rewrite Z.lor_spec, Hb. reflexivity.
Qed.

Lemma vertex_run_keeps_bit (ops : list Vertex.Op) :
  forall (f : Z) (i : Z),
    Z.testbit f i = true -> Z.testbit (Vertex.run ops f) i = true.
Proof.
  unfold Vertex.run.
  induction ops as [|op ops IH]; intros f i Hb; simpl; [exact Hb|].
  apply IH. now apply vertex_apply_keeps_bit.
Qed.

Lemma attacher_run_id (ops : list Attacher.Op) (f : Z) : Attacher.run ops f = f.
Proof.
  unfold Attacher.run. revert f.
  induction ops as [|[fl] ops IH]; intros f; simpl; [reflexivity|apply IH].
Qed.

(** C7. Flags only go up. For all flag values [f] and [fl]: [SetFlagsUp]
    leaves [f | fl] in the receiver; every bit that was set in [f] is still
    set; [FlagsUp fl] holds afterwards; and no sequence of the operations
    defined on vertex flags ([FlagsUp], [SetFlagsUp]) or on attacher flags
    ([FlagsUp]) clears a bit that was set. *)
Theorem flags_are_monotone (f fl : Z) :
  Vertex.SetFlagsUp f fl = Z.lor f fl
  /\ (forall i, Z.testbit f i = true ->
                Z.testbit (Vertex.SetFlagsUp f fl) i = true)
  /\ Vertex.FlagsUp (Vertex.SetFlagsUp f fl) fl = true
  /\ (forall (ops : list Vertex.Op) i,
        Z.testbit f i = true -> Z.testbit (Vertex.run ops f) i = true)
  /\ (forall (ops : list Attacher.Op) i,
        Z.testbit f i = true -> Z.testbit (Attacher.run ops f) i = true).
Proof.
  split; [reflexivity|]. split; [|split; [|split]].
  - intros i Hb. unfold Vertex.SetFlagsUp. rewrite Z.lor_spec, Hb. reflexivity.
  - unfold Vertex.FlagsUp, Vertex.SetFlagsUp. apply Z.eqb_eq.
    apply Z.bits_inj'. intros n _.
    rewrite Z.land_spec, Z.lor_spec.
    destruct (Z.testbit f n), (Z.testbit fl n); reflexivity.
  - intros ops i Hb. now apply vertex_run_keeps_bit.
  - intros ops i Hb. now rewrite attacher_run_id.
Qed.

(** ** Heartbeat frame *)

Section HeartbeatFacts.
Import Peering.

Lemma byte_range (x : Z) : 0 <= byte x < 256.
Proof.
  unfold byte. change 255 with (Z.ones 8).
  rewrite Z.land_ones by lia. apply Z.mod_pos_bound. lia.
Qed.

Lemma lor_shiftl8 (acc x : Z) :
  0 <= x < 256 -> Z.lor (Z.shiftl acc 8) x = acc * 256 + x.
Proof.
  intros Hx.
  rewrite <- Z.lxor_lor, <- Z.add_nocarry_lxor.
  - rewrite Z.shiftl_mul_pow2 by lia. reflexivity.
  - apply Z.bits_inj'. intros n Hn.
    rewrite Z.land_spec, Z.bits_0.
    destruct (Z_lt_ge_dec n 8) as [Hlt|Hge].
    + rewrite Z.shiftl_spec_low by lia. reflexivity.
    + replace (Z.testbit x n) with false; [apply andb_false_r|].
      symmetry. destruct (Z.eq_dec x 0) as [->|Hx0]; [apply Z.bits_0|].
      apply Z.bits_above_log2; [lia|].
      assert (Z.log2 x < 8) by (apply Z.log2_lt_pow2; lia). lia.
  - apply Z.bits_inj'. intros n Hn.
    rewrite Z.land_spec, Z.bits_0.
    destruct (Z_lt_ge_dec n 8) as [Hlt|Hge].
    + rewrite Z.shiftl_spec_low by lia. reflexivity.
    + replace (Z.testbit x n) with false; [apply andb_false_r|].
      symmetry. destruct (Z.eq_dec x 0) as [->|Hx0]; [apply Z.bits_0|].
      apply Z.bits_above_log2; [lia|].
      assert (Z.log2 x < 8) by (apply Z.log2_lt_pow2; lia). lia.
Qed.

Lemma byte_shiftr (v k : Z) :
  0 <= k -> byte (Z.shiftr v k) = (v / 2 ^ k) mod 256.
Proof.
  intros Hk. unfold byte. change 255 with (Z.ones 8).
  rewrite Z.land_ones by lia. rewrite Z.shiftr_div_pow2 by lia. reflexivity.
Qed.

Lemma byte_mod (v : Z) : byte v = v mod 256.
Proof. unfold byte. change 255 with (Z.ones 8). now rewrite Z.land_ones by lia. Qed.

Lemma BigEndian_PutUint64 (v : Z) :
  0 <= v < 2 ^ 64 -> BigEndian (PutUint64 v) = v.
Proof.
  intros Hv. unfold BigEndian, PutUint64. cbn [fold_left].
  change (Z.shiftl 0 8) with 0. rewrite Z.lor_0_l.
  rewrite !lor_shiftl8 by apply byte_range.
  rewrite !byte_shiftr by lia. rewrite byte_mod.
  change (2 ^ 56) with (256 * 2 ^ 48). change (2 ^ 48) with (256 * 2 ^ 40).
  change (2 ^ 40) with (256 * 2 ^ 32). change (2 ^ 32) with (256 * 2 ^ 24).
  change (2 ^ 24) with (256 * 2 ^ 16). change (2 ^ 16) with (256 * 2 ^ 8).
  change (2 ^ 8) with 256.
  rewrite <- !Z.div_div by lia.
  set (a1 := v / 256). set (a2 := a1 / 256). set (a3 := a2 / 256).
  set (a4 := a3 / 256). set (a5 := a4 / 256). set (a6 := a5 / 256).
  set (a7 := a6 / 256).
  assert (H7 : a7 mod 256 = a7).
  { apply Z.mod_small. subst a7 a6 a5 a4 a3 a2 a1.
    rewrite !Z.div_div by lia. split.
    - apply Z.div_pos; lia.
    - apply Z.div_lt_upper_bound; lia. }
  rewrite H7.
  pose proof (Z.div_mod v 256 ltac:(lia)).
  pose proof (Z.div_mod a1 256 ltac:(lia)).
  pose proof (Z.div_mod a2 256 ltac:(lia)).
  pose proof (Z.div_mod a3 256 ltac:(lia)).
  pose proof (Z.div_mod a4 256 ltac:(lia)).
  pose proof (Z.div_mod a5 256 ltac:(lia)).
  pose proof (Z.div_mod a6 256 ltac:(lia)).
  fold a1 in H. fold a2 in H0. fold a3 in H1. fold a4 in H2.
  fold a5 in H3. fold a6 in H4. fold a7 in H5.
  lia.
Qed.

End HeartbeatFacts.

Section HeartbeatFrame.
Import Peering.

Lemma int64_small (z : Z) : - 2 ^ 63 <= z < 2 ^ 63 -> int64 z = z.
Proof.
  intros Hz. unfold int64.
  rewrite Z.mod_small by lia. lia.
Qed.

Lemma int64_uint64 (z : Z) : int64 (uint64 z) = int64 z.
Proof.
  unfold int64, uint64.
  rewrite Zplus_mod_idemp_l. reflexivity.
Qed.

Lemma uint64_range (z : Z) : 0 <= uint64 z < 2 ^ 64.
Proof. unfold uint64. apply Z.mod_pos_bound. lia. Qed.

Lemma Unix_UnixNano (t : Time) :
  clock_representable t -> Unix 0 (UnixNano t) = t.
Proof.
  destruct t as [s ns]. unfold clock_representable, UnixNano.
  cbn [unixSec nsec].
  intros [Hns Hr]. rewrite int64_small by lia.
  set (N := s * 10 ^ 9 + ns) in *.
  unfold Unix.
  destruct ((N <? 0) || (10 ^ 9 <=? N)) eqn:Hout.
  - pose proof (Z.quot_rem' N (10 ^ 9)) as Hqr.
    assert (Hrem : (N <= 0 -> - 10 ^ 9 < Z.rem N (10 ^ 9) <= 0)
                   /\ (0 <= N -> 0 <= Z.rem N (10 ^ 9) < 10 ^ 9)).
    { split; intros HN.
      - apply Z.rem_bound_pos_neg; lia.
      - apply Z.rem_bound_pos_pos; lia. }
    destruct Hrem as [Hrn Hrp].
    cbv zeta. rewrite Z.add_0_l.
    rewrite (int64_small (Z.quot N (10 ^ 9))) by lia.
    destruct (N - Z.quot N (10 ^ 9) * 10 ^ 9 <? 0) eqn:Hneg.
    + apply Z.ltb_lt in Hneg.
      rewrite int64_small by lia.
      f_equal; subst N; lia.
    + apply Z.ltb_ge in Hneg.
      f_equal; subst N; lia.
  - apply orb_false_iff in Hout as [H1 H2].
    apply Z.ltb_ge in H1. apply Z.leb_gt in H2.
    f_equal; subst N; lia.
Qed.

Lemma flags_range (hi : heartbeatInfo) : 0 <= flags hi < 256.
Proof.
  unfold flags. destruct (ignoresAllPullRequests hi),
    (acceptsPullRequestsFromStaticPeersOnly hi); vm_compute; split; congruence.
Qed.

Lemma setFromFlags_flags (hi : heartbeatInfo) (t : Time) :
  setFromFlags (mkHeartbeatInfo t false false) (flags hi)
  = mkHeartbeatInfo t (ignoresAllPullRequests hi)
      (acceptsPullRequestsFromStaticPeersOnly hi).
Proof.
  unfold setFromFlags, flags.
  destruct (ignoresAllPullRequests hi),
    (acceptsPullRequestsFromStaticPeersOnly hi); reflexivity.
Qed.

(** Every heartbeat frame is nine bytes long, each a byte. *)
Lemma heartbeat_Bytes_length (hi : heartbeatInfo) :
  length (Bytes hi) = 9%nat /\ is_bytes (Bytes hi).
Proof.
  split; [reflexivity|].
  unfold Bytes, is_bytes, PutUint64.
  repeat (apply Forall_cons; split; [apply byte_range|]).
  apply Forall_cons; split; [apply flags_range|]. apply Forall_nil. exact I.
Qed.

(** Decoding accepts frames of nine bytes and no others. *)
Lemma heartbeatInfoFromBytes_length (data : list Z) :
  (exists hi, heartbeatInfoFromBytes data = inl hi) <-> length data = 9%nat.
Proof.
  unfold heartbeatInfoFromBytes. split.
  - intros [hi H]. destruct (Nat.eqb (length data) (8 + 1)) eqn:E.
    + now apply Nat.eqb_eq in E.
    + discriminate.
  - intros ->. simpl. eauto.
Qed.

(** The first eight bytes are the clock, big-endian; bit 0 of the ninth says
    that the node ignores all pull requests. *)
Lemma heartbeat_frame_layout (hi : heartbeatInfo) :
  take 8 (Bytes hi) = PutUint64 (uint64 (UnixNano (clock hi)))
  /\ BigEndian (take 8 (Bytes hi)) = uint64 (UnixNano (clock hi))
  /\ Z.testbit (nth 8 (Bytes hi) 0) 0 = ignoresAllPullRequests hi.
Proof.
  assert (Ht : take 8 (Bytes hi) = PutUint64 (uint64 (UnixNano (clock hi))))
    by reflexivity.
  split; [exact Ht|]. split.
  - rewrite Ht. apply BigEndian_PutUint64, uint64_range.
  - unfold Bytes, flags. simpl.
    destruct (ignoresAllPullRequests hi),
      (acceptsPullRequestsFromStaticPeersOnly hi); reflexivity.
Qed.

Lemma heartbeat_roundtrip (hi : heartbeatInfo) :
  clock_representable (clock hi) ->
  heartbeatInfoFromBytes (Bytes hi) = inl hi.
Proof.
  intros Hc. unfold heartbeatInfoFromBytes.
  destruct (heartbeat_frame_layout hi) as (_ & Hbe & _).
  change (negb (Nat.eqb (length (Bytes hi)) (8 + 1))) with false. cbv iota.
  rewrite Hbe, int64_uint64.
  assert (Hn : int64 (UnixNano (clock hi)) = UnixNano (clock hi)).
  { unfold UnixNano. destruct Hc as [_ Hr].
    rewrite (int64_small (unixSec (clock hi) * 10 ^ 9 + nsec (clock hi))) by lia.
    apply int64_small. lia. }
  rewrite Hn, Unix_UnixNano by exact Hc.
  change (nth 8 (Bytes hi) 0) with (flags hi).
  rewrite setFromFlags_flags. destruct hi; reflexivity.
Qed.

(** C3. The flag that says "accepts pull requests from static peers only" is
    not bit 1 of the flags byte: the constant is written [0x00000010], so a
    node with only that flag set sends the flags byte 16, and a frame whose
    flags byte is 2 decodes with the flag off. *)
Theorem heartbeat_static_only_flag_is_not_bit1 :
  Bytes (mkHeartbeatInfo (mkTime 0 0) false true) = [0; 0; 0; 0; 0; 0; 0; 0; 16]
  /\ Z.testbit (flags (mkHeartbeatInfo (mkTime 0 0) false true)) 1 = false
  /\ heartbeatInfoFromBytes [0; 0; 0; 0; 0; 0; 0; 0; 2]
     = inl (mkHeartbeatInfo (mkTime 0 0) false false).
Proof. repeat split. Qed.

End HeartbeatFrame.

(** ** Query-transactions frame *)

Section QueryTransactionsFrame.
Import Peering.

Lemma BigEndian_PutUint16 (v : Z) :
  0 <= v < 2 ^ 16 -> BigEndian (PutUint16 v) = v.
Proof.
  intros Hv. unfold BigEndian, PutUint16. cbn [fold_left].
  change (Z.shiftl 0 8) with 0. rewrite Z.lor_0_l.
  rewrite lor_shiftl8 by apply byte_range.
  rewrite byte_shiftr by lia. rewrite byte_mod.
  change (2 ^ 8) with 256.
  rewrite (Z.mod_small (v / 256)).
  - pose proof (Z.div_mod v 256 ltac:(lia)). lia.
  - split; [apply Z.div_pos; lia | apply Z.div_lt_upper_bound; lia].
Qed.

Lemma readTransactionIDs_concat (txids : list TransactionID) :
  Forall is_TransactionID txids ->
  forall tail : list Z,
    readTransactionIDs (length txids) (concat txids ++ tail) = Ok txids.
Proof.
  induction 1 as [|t txids Ht Hall IH]; intros tail; [reflexivity|].
  unfold is_TransactionID in Ht.
  cbn [length concat readTransactionIDs].
  rewrite <- app_assoc.
  assert (Htake : take TransactionIDLength (t ++ concat txids ++ tail) = t).
  { rewrite <- Ht. now rewrite take_app_length. }
  assert (Hdrop : drop TransactionIDLength (t ++ concat txids ++ tail)
                  = concat txids ++ tail).
  { rewrite <- Ht. now rewrite drop_app_length. }
  rewrite Htake, Hdrop, Ht.
  assert (Hlen : Nat.eqb (length (t ++ concat txids ++ tail)) 0 = false).
  { apply Nat.eqb_neq. rewrite length_app, Ht. unfold TransactionIDLength. lia. }
  rewrite Hlen, Nat.eqb_refl. cbn [orb negb].
  unfold TransactionIDFromBytes. rewrite Ht, Nat.eqb_refl.
  now rewrite IH.
Qed.

Lemma queryTransactions_roundtrip (T : Z) (txids : list TransactionID) :
  Z.of_nat (length txids) < MaxUint16 ->
  Forall is_TransactionID txids ->
  exists frame,
    encodePeerMessageQueryTransactions T txids = Ok frame
    /\ decodePeerMessageQueryTransactions T frame = Ok txids.
Proof.
  intros Hlen Hall. unfold encodePeerMessageQueryTransactions.
  assert (Hlt : (Z.of_nat (length txids) <? MaxUint16) = true)
    by now apply Z.ltb_lt.
  rewrite Hlt. cbn [negb]. eexists. split; [reflexivity|].
  unfold decodePeerMessageQueryTransactions.
  cbn [app length nth]. rewrite Z.eqb_refl. cbn [negb orb].
  change (take 2 (drop 1 (T :: PutUint16 (uint16 (Z.of_nat (length txids)))
                            ++ concat txids)))
    with (PutUint16 (uint16 (Z.of_nat (length txids)))).
  change (drop 3 (T :: PutUint16 (uint16 (Z.of_nat (length txids)))
                    ++ concat txids))
    with (concat txids).
  assert (Hu : uint16 (Z.of_nat (length txids)) = Z.of_nat (length txids)).
  { unfold uint16. apply Z.mod_small. unfold MaxUint16 in Hlen. lia. }
  rewrite Hu, BigEndian_PutUint16 by (unfold MaxUint16 in Hlen; lia).
  rewrite Nat2Z.id.
  rewrite <- (app_nil_r (concat txids)).
  now apply readTransactionIDs_concat.
Qed.

(** A list of [MaxUint16] = 65535 transaction IDs is shorter than 2^16 and
    is refused by the encoder. *)
Lemma queryTransactions_65535_panics (T : Z) :
  encodePeerMessageQueryTransactions T
    (repeat (repeat 0 TransactionIDLength) (Z.to_nat MaxUint16))
  = Panic "too many transaction IDs".
Proof.
  unfold encodePeerMessageQueryTransactions.
  rewrite repeat_length, Z2Nat.id by (unfold MaxUint16; lia).
  reflexivity.
Qed.

End QueryTransactionsFrame.

(** ** Round trips *)

Section RoundTrips.
Import Peering.

Lemma RootRecord_roundtrip (n : nat) (r : RootRecordSerialization.RootRecord) :
  RootRecordSerialization.LatestDelta (RootRecordSerialization.Coverage r) = 0 ->
  RootRecordSerialization.wf_RootRecord n r ->
  exists data,
    RootRecordSerialization.Bytes r = Ok data
    /\ RootRecordSerialization.RootRecordFromBytes n data = Ok r.
Proof.
  destruct r as [root sid [d0 d1]].
  unfold RootRecordSerialization.LatestDelta,
    RootRecordSerialization.wf_RootRecord,
    RootRecordSerialization.Bytes.
  cbn [RootRecordSerialization.Coverage RootRecordSerialization.delta0
       RootRecordSerialization.delta1 RootRecordSerialization.SequencerID
       RootRecordSerialization.Root].
  intros -> [Hsid Hcov]. rewrite Z.eqb_refl. cbn [negb].
  eexists. split; [reflexivity|].
  unfold RootRecordSerialization.RootRecordFromBytes.
  assert (Hlen : (length (sid ++ PutUint64 d1 ++ root) <? n + 8)%nat = false).
  { apply Nat.ltb_ge. rewrite !length_app, Hsid.
    change (length (PutUint64 d1)) with 8%nat. lia. }
  rewrite Hlen.
  assert (Htake : take n (sid ++ PutUint64 d1 ++ root) = sid).
  { rewrite <- Hsid. now rewrite take_app_length. }
  assert (Hdrop : drop n (sid ++ PutUint64 d1 ++ root) = PutUint64 d1 ++ root).
  { rewrite <- Hsid. now rewrite drop_app_length. }
  assert (Hdrop8 : drop (n + 8) (sid ++ PutUint64 d1 ++ root) = root).
  { rewrite <- drop_drop, Hdrop. reflexivity. }
  rewrite Htake, Hdrop, Hdrop8.
  change (take 8 (PutUint64 d1 ++ root)) with (PutUint64 d1).
  now rewrite BigEndian_PutUint64.
Qed.

(** C4. Encoding then decoding is the identity on the values the encoders
    accept: a root record whose latest coverage delta is zero, a heartbeat
    whose clock is an instant that fits [int64] nanoseconds, and a list of
    fewer than [MaxUint16] = 65535 transaction IDs, which comes back in the
    same order. *)
Theorem encode_decode_roundtrip
    (ChainIDLength : nat) (PeerMessageTypeQueryTransactions : Z)
    (rr : RootRecordSerialization.RootRecord)
    (hi : heartbeatInfo) (txids : list TransactionID) :
  RootRecordSerialization.LatestDelta (RootRecordSerialization.Coverage rr) = 0 ->
  RootRecordSerialization.wf_RootRecord ChainIDLength rr ->
  clock_representable (clock hi) ->
  Z.of_nat (length txids) < MaxUint16 ->
  Forall is_TransactionID txids ->
  (exists data,
      RootRecordSerialization.Bytes rr = Ok data
      /\ RootRecordSerialization.RootRecordFromBytes ChainIDLength data = Ok rr)
  /\ heartbeatInfoFromBytes (Bytes hi) = inl hi
  /\ (exists frame,
        encodePeerMessageQueryTransactions
          PeerMessageTypeQueryTransactions txids = Ok frame
        /\ decodePeerMessageQueryTransactions
             PeerMessageTypeQueryTransactions frame = Ok txids).
Proof.
  intros Hd Hwf Hc Hlen Hall. split; [|split].
  - now apply RootRecord_roundtrip.
  - now apply heartbeat_roundtrip.
  - now apply queryTransactions_roundtrip.
Qed.

(** The zero [time.Time] is 62135596800 seconds before the Unix epoch; its
    [UnixNano] is what is left of the product after wrapping. *)
Example UnixNano_zeroTime : UnixNano zeroTime = -6795364578871345152.
Proof. reflexivity. Qed.

(** C4, as stated, fails in two places: 65535 transaction IDs are fewer than
    2^16 and the encoder panics on them; and the heartbeat whose clock is the
    zero [time.Time] decodes to another instant (in the year 1754). *)
Lemma roundtrip_fails_at_65535_ids_and_at_zero_clock :
  (Z.of_nat (length (repeat (repeat 0 TransactionIDLength) (Z.to_nat MaxUint16)))
     < 2 ^ 16
   /\ forall T,
       encodePeerMessageQueryTransactions T
         (repeat (repeat 0 TransactionIDLength) (Z.to_nat MaxUint16))
       = Panic "too many transaction IDs")
  /\ heartbeatInfoFromBytes (Bytes (mkHeartbeatInfo zeroTime false false))
     = inl (mkHeartbeatInfo (mkTime (-6795364579) 128654848) false false)
  /\ heartbeatInfoFromBytes (Bytes (mkHeartbeatInfo zeroTime false false))
     <> inl (mkHeartbeatInfo zeroTime false false).
Proof.
  split; [split|].
  - rewrite repeat_length, Z2Nat.id by (unfold MaxUint16; lia).
    unfold MaxUint16. lia.
  - apply queryTransactions_65535_panics.
  - assert (H : heartbeatInfoFromBytes (Bytes (mkHeartbeatInfo zeroTime false false))
               = inl (mkHeartbeatInfo (mkTime (-6795364579) 128654848)
                        false false)) by (vm_compute; reflexivity).
    split; [exact H|]. rewrite H. unfold zeroTime. intros Heq.
    inversion Heq.
Qed.

End RoundTrips.

(** ** Pull client *)

Section PullClientFacts.
Import PullClient.

Context {TransactionID : Type} `{Countable TransactionID}.

Implicit Types (p : State (TransactionID := TransactionID)).
Implicit Types (order : list (TransactionID * pullRecord)).

Example pullPeriod_is_500ms : pullPeriod = 500000000.
Proof. reflexivity. Qed.

Example pullLoopPeriod_is_50ms : pullLoopPeriod = 50000000.
Proof. reflexivity. Qed.

Example stuck_after_5s :
  pullPeriod * startPullingFromAllAfterNumRandomPulls = 5000000000.
Proof. reflexivity. Qed.

Variable now : nat -> Time.

Lemma anyStuck_spec (sel : list (TransactionID * pullRecord)) :
  forall n : nat,
    anyStuck now n sel = true <->
    exists (k : nat) txid rec,
      sel !! k = Some (txid, rec)
      /\ pullPeriod * startPullingFromAllAfterNumRandomPulls
         < now (n + k)%nat - start rec.
Proof.
  induction sel as [|[t r] sel IH]; intros n; cbn [anyStuck snd].
  - split; [discriminate|]. intros (k & txid & rec & Hk & _).
    rewrite lookup_nil in Hk. discriminate.
  - rewrite orb_true_iff, IH, Z.ltb_lt. split.
    + intros [Hlt | (k & txid & rec & Hk & Hlt)].
      * exists 0%nat, t, r. rewrite Nat.add_0_r. auto.
      * exists (S k), txid, rec. split; [exact Hk|].
        now replace (n + S k)%nat with (S n + k)%nat by lia.
    + intros (k & txid & rec & Hk & Hlt). destruct k as [|k].
      * left. cbn in Hk. injection Hk as -> ->.
        now rewrite Nat.add_0_r in Hlt.
      * right. exists k, txid, rec. split; [exact Hk|].
        now replace (S n + k)%nat with (n + S k)%nat by lia.
Qed.

Lemma maturedBody_fold_buf (nowis nd : Time) order :
  forall m : Matured,
    buf (fold_left (maturedBody now nowis nd) order m)
    = buf m ++ (selected nowis order).*1.
Proof.
  induction order as [|[t r] order IH]; intros m; cbn [fold_left].
  - cbn. now rewrite app_nil_r.
  - rewrite IH. unfold selected. cbn [List.filter snd maturedBody].
    destruct (nextDeadline r <? nowis); [|reflexivity].
    destruct (atLeastOneIsStuck m); cbn; now rewrite <- app_assoc.
Qed.

Lemma maturedBody_fold_stuck (nowis nd : Time) order :
  forall m : Matured,
    atLeastOneIsStuck (fold_left (maturedBody now nowis nd) order m)
    = if atLeastOneIsStuck m then true
      else anyStuck now (reads' m) (selected nowis order).
Proof.
  induction order as [|[t r] order IH]; intros m; cbn [fold_left].
  - cbn. now destruct (atLeastOneIsStuck m).
  - rewrite IH. unfold selected. cbn [List.filter snd maturedBody].
    destruct (nextDeadline r <? nowis); [|reflexivity].
    destruct (atLeastOneIsStuck m) eqn:Hs; cbn [negb]; [reflexivity|].
    cbn [anyStuck snd].
    destruct (pullPeriod * startPullingFromAllAfterNumRandomPulls
                <? now (reads' m) - start r); cbn; [reflexivity|].
    reflexivity.
Qed.

Lemma maturedBody_fold_list (nowis nd : Time) order :
  NoDup order.*1 ->
  forall (m : Matured) (txid : TransactionID),
    list' (fold_left (maturedBody now nowis nd) order m) !! txid
    = match (list_to_map order : gmap TransactionID pullRecord) !! txid with
      | Some rec =>
          if nextDeadline rec <? nowis
          then Some {| start := start rec; nextDeadline := nd |}
          else list' m !! txid
      | None => list' m !! txid
      end.
Proof.
  induction order as [|[t r] order IH]; intros Hnd m txid; cbn [fold_left].
  - cbn. now rewrite lookup_empty.
  - cbn [fmap list_fmap fst] in Hnd. apply NoDup_cons in Hnd as [Hnotin Hnd].
    rewrite (IH Hnd). cbn [list_to_map foldr uncurry fst snd].
    destruct (decide (t = txid)) as [->|Hne].
    + rewrite lookup_insert_eq.
      rewrite (not_elem_of_list_to_map_1 _ _ Hnotin).
      cbn [maturedBody fst snd].
      destruct (nextDeadline r <? nowis); [|reflexivity].
      destruct (atLeastOneIsStuck m); cbn; apply lookup_insert_eq.
    + rewrite lookup_insert_ne by exact Hne.
      assert (Hm : list' (maturedBody now nowis nd m (t, r)) !! txid
                   = list' m !! txid).
      { cbn [maturedBody]. destruct (nextDeadline r <? nowis); [|reflexivity].
        destruct (atLeastOneIsStuck m); cbn; now apply lookup_insert_ne. }
      now rewrite Hm.
Qed.

Lemma selected_sublist (nowis : Time) order :
  sublist (selected nowis order) order.
Proof.
  induction order as [|e order IH]; cbn; [constructor|].
  destruct (nextDeadline e.2 <? nowis); now constructor.
Qed.

Lemma selected_NoDup (nowis : Time) order :
  NoDup order.*1 -> NoDup (selected nowis order).*1.
Proof.
  intros Hnd. eapply sublist_NoDup; [exact Hnd|].
  apply fmap_sublist, selected_sublist.
Qed.

Lemma elem_of_selected (nowis : Time) order txid rec :
  (txid, rec) ∈ selected nowis order
  <-> (txid, rec) ∈ order /\ nextDeadline rec < nowis.
Proof.
  unfold selected. rewrite !list_elem_of_In, filter_In. cbn [snd].
  now rewrite Z.ltb_lt.
Qed.

Lemma backgroundPullLoopTurn_state order p :
  fst (backgroundPullLoopTurn now order p) = fst (maturedPullList now order p).
Proof.
  unfold backgroundPullLoopTurn.
  destruct (maturedPullList now order p) as [p' [buffer stuck]]. cbn [fst].
  destruct (0 <? length buffer)%nat; [|reflexivity]. now destruct stuck.
Qed.

(** C2. One turn of the background loop (the loop sleeps [pullLoopPeriod] =
    50 ms between turns), on a pull list whose entries [range] hands out
    in any order. With [nowis] the clock as read at the start of the turn:
    the selected entries are exactly those of the pull list whose
    [nextDeadline] is before [nowis], each once; afterwards a selected entry
    has its [start] as before and [nextDeadline = nowis + pullPeriod]
    (500 ms), and every other entry is as before; and when something was
    selected, the whole selection goes out in one call, to all peers if one
    of the selected entries was found older than
    [pullPeriod * startPullingFromAllAfterNumRandomPulls] (10 x 500 ms) when
    it was examined ([time.Since] reads the clock again for each entry), to
    one random peer otherwise. With nothing selected there is nothing to
    send. *)
Theorem backgroundPullLoop_turn order p :
  order ≡ₚ map_to_list (pullList p) ->
  let nowis := now (reads p) in
  let sel := selected nowis order in
  let p' := fst (backgroundPullLoopTurn now order p) in
  let calls := snd (backgroundPullLoopTurn now order p) in
  pullLoopPeriod = 50 * Millisecond
  /\ (forall txid rec,
        (txid, rec) ∈ sel
        <-> pullList p !! txid = Some rec /\ nextDeadline rec < nowis)
  /\ NoDup sel.*1
  /\ (forall txid,
        pullList p' !! txid
        = (fun rec =>
             if nextDeadline rec <? nowis
             then {| start := start rec;
                     nextDeadline := nowis + 500 * Millisecond |}
             else rec) <$> pullList p !! txid)
  /\ exists stuck : bool,
       (stuck = true <->
        exists (k : nat) txid rec,
          sel !! k = Some (txid, rec)
          /\ 10 * (500 * Millisecond)
             < now (S (reads p) + k)%nat - start rec)
       /\ calls = match sel with
                  | [] => []
                  | _ :: _ =>
                      [if stuck then PullTransactionsFromAllPeers sel.*1
                       else PullTransactionsFromRandomPeer sel.*1]
                  end.
Proof.
  intros Hperm nowis sel p' calls.
  assert (Hnd : NoDup order.*1).
  { rewrite Hperm. apply NoDup_fst_map_to_list. }
  assert (Hmap : (list_to_map order : gmap TransactionID pullRecord)
                 = pullList p).
  { rewrite (list_to_map_proper _ _ Hnd Hperm). apply list_to_map_to_list. }
  split; [reflexivity|]. split; [|split; [|split]].
  - intros txid rec. subst sel. rewrite elem_of_selected, Hperm.
    now rewrite elem_of_map_to_list.
  - now apply selected_NoDup.
  - intros txid. subst p' nowis. rewrite backgroundPullLoopTurn_state.
    unfold maturedPullList. cbn [fst pullList].
    rewrite (maturedBody_fold_list _ _ _ Hnd), Hmap. cbn [list'].
    destruct (pullList p !! txid) as [rec|]; cbn; [|reflexivity].
    now destruct (nextDeadline rec <? now (reads p)).
  - exists (anyStuck now (S (reads p)) sel). split.
    + apply anyStuck_spec.
    + subst calls sel nowis.
      unfold backgroundPullLoopTurn, maturedPullList.
      set (m := fold_left _ _ _).
      assert (Hb : buf m = (selected (now (reads p)) order).*1).
      { subst m. now rewrite maturedBody_fold_buf. }
      assert (Hs : atLeastOneIsStuck m
                   = anyStuck now (S (reads p)) (selected (now (reads p)) order)).
      { subst m. now rewrite maturedBody_fold_stuck. }
      cbn. rewrite Hb, Hs.
      destruct (selected (now (reads p)) order) as [|e sel']; [reflexivity|].
      cbn [fmap list_fmap length Nat.ltb Nat.leb].
      now destruct (anyStuck now (S (reads p)) (e :: sel')).
Qed.

(** On a clock that does not run backwards, an entry that is already older
    than ten pull periods at the start of the turn sends the selection to
    all peers. *)
Lemma backgroundPullLoop_turn_stuck_at_start order p txid rec :
  (forall n m : nat, (n <= m)%nat -> now n <= now m) ->
  (txid, rec) ∈ selected (now (reads p)) order ->
  pullPeriod * startPullingFromAllAfterNumRandomPulls
    < now (reads p) - start rec ->
  snd (backgroundPullLoopTurn now order p)
  = [PullTransactionsFromAllPeers (selected (now (reads p)) order).*1].
Proof.
  intros Hmono Hin Hold.
  unfold backgroundPullLoopTurn, maturedPullList.
  set (m := fold_left _ _ _).
  assert (Hb : buf m = (selected (now (reads p)) order).*1).
  { subst m. now rewrite maturedBody_fold_buf. }
  assert (Hs : atLeastOneIsStuck m = true).
  { subst m. rewrite maturedBody_fold_stuck. cbn [atLeastOneIsStuck reads'].
    apply anyStuck_spec. apply list_elem_of_lookup in Hin as [k Hk].
    exists k, txid, rec. split; [exact Hk|].
    specialize (Hmono (reads p) (S (reads p) + k)%nat ltac:(lia)). lia. }
  cbn. rewrite Hb, Hs.
  destruct (selected (now (reads p)) order) as [|e sel']; [inversion Hin|].
  reflexivity.
Qed.

(** The loop is this turn, again and again, until the context is done. *)
Lemma backgroundPullLoop_unfold order (ws : list Wakeup) p :
  backgroundPullLoop now (AfterPullLoopPeriod order :: ws) p
  = (fst (backgroundPullLoop now ws (fst (backgroundPullLoopTurn now order p))),
     snd (backgroundPullLoopTurn now order p)
       ++ snd (backgroundPullLoop now ws
                 (fst (backgroundPullLoopTurn now order p)))).
Proof.
  cbn [backgroundPullLoop].
  destruct (backgroundPullLoopTurn now order p) as [p1 calls1].
  cbn [fst snd]. now destruct (backgroundPullLoop now ws p1).
Qed.

Variable GetTxBytesWithMetadata : TransactionID -> list Z.

(** C8. A pull request for a transaction that is not in the pull list. If
    the tx-bytes store has bytes for it, the pull list stays as it is, no
    pull request is sent, and [transactionIn] is started on the bytes: it
    hands the transaction bytes to the workflow input
    [TxBytesWithMetadataIn], once, with the stored metadata marked as coming
    from the tx-bytes store (and logs if the workflow input returns an
    error); stored bytes that do not parse are logged and nothing reaches
    the workflow. Otherwise the pull list gets an entry for it with [start]
    the clock as read and [nextDeadline] the clock as read next plus
    [pullPeriod] (500 ms), exactly one call goes out, a pull of this one
    transaction from one random peer, and nothing reaches the workflow. *)
Theorem startPulling_new {TransactionMetadata : Type}
    (emptyMetadata : TransactionMetadata)
    (setSourceTypeTxStore : TransactionMetadata -> TransactionMetadata)
    (Split : list Z -> option (list Z * list Z))
    (FromBytes : list Z -> option (option TransactionMetadata))
    (fails : list Z -> TransactionMetadata -> bool)
    p txid :
  pullList p !! txid = None ->
  let bytes := GetTxBytesWithMetadata txid in
  let workflowInput :=
    flat_map (goroutine emptyMetadata setSourceTypeTxStore Split FromBytes
                fails)
      (snd (startPulling now GetTxBytesWithMetadata p txid)) in
  ((0 < length bytes)%nat ->
     startPulling now GetTxBytesWithMetadata p txid
     = (p, [GoTransactionIn bytes])
     /\ (forall metadataBytes txBytes parsed,
           Split bytes = Some (metadataBytes, txBytes) ->
           FromBytes metadataBytes = Some parsed ->
           workflowInput
           = TxBytesWithMetadataIn txBytes
               (setSourceTypeTxStore (default emptyMetadata parsed))
             :: (if fails txBytes
                      (setSourceTypeTxStore (default emptyMetadata parsed))
                 then [LogErrorf] else []))
     /\ (Split bytes = None
         \/ (exists metadataBytes txBytes,
                Split bytes = Some (metadataBytes, txBytes)
                /\ FromBytes metadataBytes = None) ->
         workflowInput = [LogErrorf]))
  /\ (length bytes = 0%nat ->
        pullList (fst (startPulling now GetTxBytesWithMetadata p txid))
        = <[txid := {| start := now (reads p);
                       nextDeadline := now (S (reads p)) + 500 * Millisecond |}]>
            (pullList p)
        /\ snd (startPulling now GetTxBytesWithMetadata p txid)
           = [PullTransactionsFromRandomPeer [txid]]
        /\ workflowInput = []).
Proof.
  intros Hnone bytes workflowInput. subst workflowInput bytes.
  unfold startPulling. rewrite Hnone. cbv zeta. split.
  - intros Hlen. apply Nat.ltb_lt in Hlen. rewrite Hlen.
    split; [reflexivity|].
    cbn [snd flat_map goroutine]. rewrite app_nil_r. unfold transactionIn.
    split.
    + intros metadataBytes txBytes parsed Hs Hm. rewrite Hs, Hm.
      assert (Hmeta : match parsed with
                      | Some md => md
                      | None => emptyMetadata
                      end = default emptyMetadata parsed)
        by (destruct parsed; reflexivity).
      cbv zeta. rewrite Hmeta.
      now destruct (fails txBytes _).
    + intros [Hs | (metadataBytes & txBytes & Hs & Hm)].
      * now rewrite Hs.
      * now rewrite Hs, Hm.
  - intros Hlen. rewrite Hlen. cbn. repeat split; reflexivity.
Qed.

(** What [transactionIn] does with bytes that parse: the transaction bytes
    go to the workflow input, marked as coming from the tx-bytes store. *)
Lemma transactionIn_parsed {TransactionMetadata : Type}
    (emptyMetadata : TransactionMetadata)
    (setSourceTypeTxStore : TransactionMetadata -> TransactionMetadata)
    (Split : list Z -> option (list Z * list Z))
    (FromBytes : list Z -> option (option TransactionMetadata))
    (fails : list Z -> TransactionMetadata -> bool)
    (data metadataBytes txBytes : list Z) (md : TransactionMetadata) :
  Split data = Some (metadataBytes, txBytes) ->
  FromBytes metadataBytes = Some (Some md) ->
  hd_error (transactionIn emptyMetadata setSourceTypeTxStore Split FromBytes
              fails data)
  = Some (TxBytesWithMetadataIn txBytes (setSourceTypeTxStore md)).
Proof.
  intros Hs Hm. unfold transactionIn. rewrite Hs, Hm.
  now destruct (fails txBytes (setSourceTypeTxStore md)).
Qed.

(** C10. A pull request for a transaction that is already in the pull list
    changes nothing: the client is as it was, entry included, and no call
    goes out. *)
Theorem startPulling_already p txid rec :
  pullList p !! txid = Some rec ->
  startPulling now GetTxBytesWithMetadata p txid = (p, [])
  /\ pullList (fst (startPulling now GetTxBytesWithMetadata p txid)) !! txid
     = Some rec
  /\ size (pullList (fst (startPulling now GetTxBytesWithMetadata p txid)))
     = size (pullList p).
Proof.
  intros Hsome. unfold startPulling. rewrite Hsome. cbn. auto.
Qed.

End PullClientFacts.

(** ** Multi-state store *)

Section StoreFacts.
Import Peering Multistate.

Implicit Types (s : gmap (list Z) (list Z)) (k : list Z).
Implicit Types (batch : list (list Z * list Z)).

Lemma storeGet_storeSet_eq s k (v : list Z) :
  storeGet (storeSet s (k, v)) k = v.
Proof.
  unfold storeGet, storeSet. cbn [fst snd]. destruct v as [|b v].
  - now rewrite lookup_delete_eq.
  - now rewrite lookup_insert_eq.
Qed.

Lemma storeGet_storeSet_ne s k k' (v : list Z) :
  k <> k' -> storeGet (storeSet s (k, v)) k' = storeGet s k'.
Proof.
  intros Hne. unfold storeGet, storeSet. cbn [fst snd]. destruct v as [|b v].
  - now rewrite lookup_delete_ne.
  - now rewrite lookup_insert_ne.
Qed.

Lemma applyBatch_app batch batch' s :
  applyBatch (batch ++ batch') s = applyBatch batch' (applyBatch batch s).
Proof. unfold applyBatch. apply fold_left_app. Qed.

Lemma storeGet_applyBatch_other batch :
  forall s k,
    (forall kv, kv ∈ batch -> fst kv <> k) ->
    storeGet (applyBatch batch s) k = storeGet s k.
Proof.
  induction batch as [|[k0 v0] batch IH]; intros s k Hk; [reflexivity|].
  cbn [applyBatch fold_left]. fold (applyBatch batch (storeSet s (k0, v0))).
  rewrite IH.
  - apply storeGet_storeSet_ne. apply (Hk (k0, v0)). left.
  - intros kv Hin. apply Hk. now right.
Qed.

Lemma BigEndian_Slot_Bytes (slot : Z) :
  0 <= slot < 2 ^ 32 -> BigEndian (Slot_Bytes slot) = slot.
Proof.
  intros Hv. unfold BigEndian, Slot_Bytes. cbn [fold_left].
  change (Z.shiftl 0 8) with 0. rewrite Z.lor_0_l.
  rewrite !lor_shiftl8 by apply byte_range.
  rewrite !byte_shiftr by lia. rewrite byte_mod.
  change (2 ^ 24) with (256 * 2 ^ 16). change (2 ^ 16) with (256 * 2 ^ 8).
  change (2 ^ 8) with 256.
  rewrite <- !Z.div_div by lia.
  set (a1 := slot / 256). set (a2 := a1 / 256). set (a3 := a2 / 256).
  assert (H3 : a3 mod 256 = a3).
  { apply Z.mod_small. subst a3 a2 a1.
    rewrite !Z.div_div by lia. split.
    - apply Z.div_pos; lia.
    - apply Z.div_lt_upper_bound; lia. }
  rewrite H3.
  pose proof (Z.div_mod slot 256 ltac:(lia)) as E0.
  pose proof (Z.div_mod a1 256 ltac:(lia)) as E1.
  pose proof (Z.div_mod a2 256 ltac:(lia)) as E2.
  fold a1 in E0. fold a2 in E1. fold a3 in E2.
  lia.
Qed.

End StoreFacts.

Section UpdatableFacts.
Import Peering Multistate.

Variable OutputID_Slot : list Z -> Z.
Variable TrieUpdatable : Type.
Variable trieCommit : TrieUpdatable -> list (list Z * list Z) * list Z.
Variable NewTrieUpdatable :
  gmap (list Z) (list Z) -> list Z -> TrieUpdatable * option string.
Variable Mutations : Type.
Variable UpdateTrie : TrieUpdatable -> Mutations -> TrieUpdatable * option string.
Variable rootRecordKey : list Z -> list Z.
Variable latestSlotKey : list Z.
Variable RootRecord_Bytes : RootRecord -> list Z.

Abbreviation Update :=
  (Update OutputID_Slot trieCommit NewTrieUpdatable UpdateTrie
     rootRecordKey latestSlotKey RootRecord_Bytes).
Abbreviation FetchLatestCommittedSlot :=
  (FetchLatestCommittedSlot latestSlotKey).
Abbreviation stagedWrites :=
  (stagedWrites OutputID_Slot trieCommit UpdateTrie
     rootRecordKey latestSlotKey RootRecord_Bytes).

Lemma Update_store muts rootRecordParams commitErr (u : @Updatable TrieUpdatable) :
  store (fst (Update muts rootRecordParams commitErr u))
  = match snd (UpdateTrie (trie u) muts), commitErr with
    | None, None => applyBatch (stagedWrites muts rootRecordParams u) (store u)
    | _, _ => store u
    end.
Proof.
  unfold Multistate.Update, updateUTXOLedgerDB, stagedWrites.
  destruct (UpdateTrie (trie u) muts) as [trie1 [e|]]; cbn [fst snd];
    [reflexivity|].
  destruct (trieCommit trie1) as [delta newRoot]. cbn [fst snd app].
  destruct commitErr as [e|]; cbn [batchCommit]; [reflexivity|].
  match goal with
  | |- context [NewTrieUpdatable ?s ?r] =>
      destruct (NewTrieUpdatable s r) as [trie2 err]
  end.
  cbn [fst store].
  destruct rootRecordParams as [par|]; [|now rewrite app_nil_r].
  unfold writeRootRecord, writeLatestSlot.
  destruct (FetchLatestCommittedSlot (store u) <? OutputID_Slot (StemOutputID par));
    now rewrite <- ?app_assoc.
Qed.

Lemma Update_error muts rootRecordParams commitErr (u : @Updatable TrieUpdatable) :
  snd (Update muts rootRecordParams commitErr u)
  = match snd (UpdateTrie (trie u) muts), commitErr with
    | Some e, _ => Some e
    | None, Some e => Some e
    | None, None =>
        snd (NewTrieUpdatable
               (applyBatch (stagedWrites muts rootRecordParams u) (store u))
               (snd (trieCommit (fst (UpdateTrie (trie u) muts)))))
    end.
Proof.
  unfold Multistate.Update, updateUTXOLedgerDB, stagedWrites.
  destruct (UpdateTrie (trie u) muts) as [trie1 [e|]]; cbn [fst snd];
    [reflexivity|].
  destruct (trieCommit trie1) as [delta newRoot]. cbn [fst snd app].
  destruct commitErr as [e|]; cbn [batchCommit]; [reflexivity|].
  destruct rootRecordParams as [par|].
  - unfold writeRootRecord, writeLatestSlot.
    destruct (FetchLatestCommittedSlot (store u) <? OutputID_Slot (StemOutputID par));
      rewrite <- ?app_assoc; cbn [app];
      match goal with
      | |- context [NewTrieUpdatable ?s ?r] =>
          destruct (NewTrieUpdatable s r) as [trie2 err]
      end; reflexivity.
  - rewrite app_nil_r.
    match goal with
    | |- context [NewTrieUpdatable ?s ?r] =>
        destruct (NewTrieUpdatable s r) as [trie2 err]
    end; reflexivity.
Qed.

Lemma Update_succeeds muts rootRecordParams commitErr
    (u : @Updatable TrieUpdatable) :
  snd (Update muts rootRecordParams commitErr u) = None ->
  snd (UpdateTrie (trie u) muts) = None /\ commitErr = None.
Proof.
  rewrite Update_error.
  destruct (snd (UpdateTrie (trie u) muts)); [discriminate|].
  destruct commitErr; [discriminate|]. auto.
Qed.

Lemma Update_root_record_readable muts par commitErr
    (u : @Updatable TrieUpdatable) :
  snd (UpdateTrie (trie u) muts) = None ->
  commitErr = None ->
  storeGet (store (fst (Update muts (Some par) commitErr u)))
    (rootRecordKey (OutputID_TransactionID (StemOutputID par)))
  = RootRecord_Bytes
      {| Root := snd (trieCommit (fst (UpdateTrie (trie u) muts)));
         SequencerID := SeqID par;
         LedgerCoverage := Coverage par;
         SlotInflation := ParSlotInflation par;
         Supply := ParSupply par;
         NumTransactions := ParNumTransactions par |}.
Proof.
  intros Hok ->. rewrite Update_store, Hok.
  unfold Multistate.stagedWrites. rewrite !app_assoc, applyBatch_app.
  cbn [applyBatch fold_left]. apply storeGet_storeSet_eq.
Qed.

(** C1. [Update] is all or nothing on the store. If applying the mutations
    to the trie fails, [Update] returns that error and the store is as it
    was. If it succeeds, everything [Update] writes (the trie delta, the
    latest-slot marker, the root record when there are root-record
    parameters) is staged in one batch and reaches the store through its one
    [Commit]: after a failed [Commit] the store is as it was, after a
    successful one it is the old store with the whole batch applied, and
    then the root record can be read under its key. No run ends with a part
    of the batch in the store. *)
Theorem Update_is_all_or_nothing muts rootRecordParams commitErr
    (u : @Updatable TrieUpdatable) :
  (forall e,
      snd (UpdateTrie (trie u) muts) = Some e ->
      snd (Update muts rootRecordParams commitErr u) = Some e
      /\ store (fst (Update muts rootRecordParams commitErr u)) = store u)
  /\ (snd (UpdateTrie (trie u) muts) = None ->
      (forall e,
          commitErr = Some e ->
          snd (Update muts rootRecordParams commitErr u) = Some e
          /\ store (fst (Update muts rootRecordParams commitErr u)) = store u)
      /\ (commitErr = None ->
          store (fst (Update muts rootRecordParams commitErr u))
          = applyBatch (stagedWrites muts rootRecordParams u) (store u)
          /\ forall par,
              rootRecordParams = Some par ->
              storeGet (store (fst (Update muts rootRecordParams commitErr u)))
                (rootRecordKey (OutputID_TransactionID (StemOutputID par)))
              = RootRecord_Bytes
                  {| Root := snd (trieCommit (fst (UpdateTrie (trie u) muts)));
                     SequencerID := SeqID par;
                     LedgerCoverage := Coverage par;
                     SlotInflation := ParSlotInflation par;
                     Supply := ParSupply par;
                     NumTransactions := ParNumTransactions par |}))
  /\ (store (fst (Update muts rootRecordParams commitErr u)) = store u
      \/ store (fst (Update muts rootRecordParams commitErr u))
         = applyBatch (stagedWrites muts rootRecordParams u) (store u)).
Proof.
  rewrite Update_store, Update_error. split; [|split].
  - intros e He. rewrite He. auto.
  - intros Hok. rewrite Hok. split.
    + intros e ->. auto.
    + intros ->. split; [reflexivity|]. intros par ->.
      unfold Multistate.stagedWrites. rewrite !app_assoc, applyBatch_app.
      cbn [applyBatch fold_left]. apply storeGet_storeSet_eq.
  - destruct (snd (UpdateTrie (trie u) muts)); [now left|].
    destruct commitErr; [now left | now right].
Qed.

Lemma FetchLatestCommittedSlot_applyBatch muts rootRecordParams
    (u : @Updatable TrieUpdatable) :
  (forall kv,
      kv ∈ fst (trieCommit (fst (UpdateTrie (trie u) muts))) ->
      fst kv <> latestSlotKey) ->
  (forall par,
      rootRecordParams = Some par ->
      rootRecordKey (OutputID_TransactionID (StemOutputID par)) <> latestSlotKey
      /\ 0 <= OutputID_Slot (StemOutputID par) < 2 ^ 32) ->
  FetchLatestCommittedSlot
    (applyBatch (stagedWrites muts rootRecordParams u) (store u))
  = match rootRecordParams with
    | Some par =>
        if FetchLatestCommittedSlot (store u)
             <? OutputID_Slot (StemOutputID par)
        then OutputID_Slot (StemOutputID par)
        else FetchLatestCommittedSlot (store u)
    | None => FetchLatestCommittedSlot (store u)
    end.
Proof.
  intros Hdelta Hpar.
  unfold Multistate.FetchLatestCommittedSlot, Multistate.stagedWrites.
  destruct rootRecordParams as [par|].
  - destruct (Hpar par eq_refl) as [Hkey Hslot].
    rewrite !applyBatch_app. cbn [applyBatch fold_left].
    rewrite storeGet_storeSet_ne by exact Hkey.
    fold (Multistate.FetchLatestCommittedSlot latestSlotKey (store u)).
    destruct (FetchLatestCommittedSlot (store u)
                <? OutputID_Slot (StemOutputID par)).
    + cbn [applyBatch fold_left]. rewrite storeGet_storeSet_eq.
      now apply BigEndian_Slot_Bytes.
    + cbn [applyBatch fold_left].
      fold (applyBatch (fst (trieCommit (fst (UpdateTrie (trie u) muts))))
              (store u)).
      now rewrite (storeGet_applyBatch_other _ _ _ Hdelta).
  - rewrite app_nil_r.
    now rewrite (storeGet_applyBatch_other _ _ _ Hdelta).
Qed.

(** C6. The latest committed slot never goes down. Where the trie keeps its
    nodes away from the latest-slot key, root records are stored under other
    keys than it, and slots are 32-bit numbers: after any [Update] the
    stored latest slot is at least what it was; and after an [Update] that
    returned no error, with root-record parameters it has been rewritten to
    the slot of the new stem output if that is strictly greater than the
    stored one and is as it was otherwise, and without them it is as it
    was. *)
Theorem latest_committed_slot_never_decreases muts rootRecordParams commitErr
    (u : @Updatable TrieUpdatable) :
  (forall kv,
      kv ∈ fst (trieCommit (fst (UpdateTrie (trie u) muts))) ->
      fst kv <> latestSlotKey) ->
  (forall par,
      rootRecordParams = Some par ->
      rootRecordKey (OutputID_TransactionID (StemOutputID par)) <> latestSlotKey
      /\ 0 <= OutputID_Slot (StemOutputID par) < 2 ^ 32) ->
  FetchLatestCommittedSlot (store u)
  <= FetchLatestCommittedSlot
       (store (fst (Update muts rootRecordParams commitErr u)))
  /\ (snd (Update muts rootRecordParams commitErr u) = None ->
      FetchLatestCommittedSlot
        (store (fst (Update muts rootRecordParams commitErr u)))
      = match rootRecordParams with
        | Some par =>
            if FetchLatestCommittedSlot (store u)
                 <? OutputID_Slot (StemOutputID par)
            then OutputID_Slot (StemOutputID par)
            else FetchLatestCommittedSlot (store u)
        | None => FetchLatestCommittedSlot (store u)
        end).
Proof.
  intros Hdelta Hpar.
  pose proof (FetchLatestCommittedSlot_applyBatch muts rootRecordParams u
                Hdelta Hpar) as Heq.
  split.
  - rewrite Update_store.
    destruct (snd (UpdateTrie (trie u) muts)); [lia|].
    destruct commitErr; [lia|]. rewrite Heq.
    destruct rootRecordParams as [par|]; [|lia].
    destruct (FetchLatestCommittedSlot (store u)
                <? OutputID_Slot (StemOutputID par)) eqn:Hlt; [|lia].
    apply Z.ltb_lt in Hlt. lia.
  - intros Hok. destruct (Update_succeeds _ _ _ _ Hok) as [Htrie Hcommit].
    now rewrite Update_store, Htrie, Hcommit.
Qed.

Abbreviation commitBranch :=
  (commitBranch OutputID_Slot trieCommit NewTrieUpdatable UpdateTrie
     rootRecordKey latestSlotKey RootRecord_Bytes).

(** C5. The supply identity. When a branch is finalised on top of the root
    record [prev] of its predecessor and the commit goes through, the root
    record stored under the branch's transaction ID has the branch's
    [SlotInflation] and has for [Supply] the predecessor's [Supply] plus
    that [SlotInflation], a [uint64] sum: the sum itself as long as it fits
    64 bits. *)
Theorem branch_supply_identity (prev : RootRecord)
    (stemOutputID seqID : list Z) (coverage slotInflation numTransactions : Z)
    muts commitErr (u : @Updatable TrieUpdatable) :
  snd (commitBranch prev stemOutputID seqID coverage slotInflation
         numTransactions muts commitErr u) = None ->
  exists rr : RootRecord,
    storeGet
      (store (fst (commitBranch prev stemOutputID seqID coverage
                     slotInflation numTransactions muts commitErr u)))
      (rootRecordKey (OutputID_TransactionID stemOutputID))
    = RootRecord_Bytes rr
    /\ rr = {| Root := snd (trieCommit (fst (UpdateTrie (trie u) muts)));
               SequencerID := seqID;
               LedgerCoverage := coverage;
               SlotInflation := slotInflation;
               Supply := uint64 (Supply prev + slotInflation);
               NumTransactions := numTransactions |}
    /\ SlotInflation rr = slotInflation
    /\ Supply rr = (Supply prev + SlotInflation rr) mod 2 ^ 64
    /\ (0 <= Supply prev + SlotInflation rr < 2 ^ 64 ->
        Supply rr = Supply prev + SlotInflation rr).
Proof.
  unfold Multistate.commitBranch. intros Hok.
  destruct (Update_succeeds _ _ _ _ Hok) as [Htrie Hcommit].
  eexists. split; [|split; [reflexivity|]].
  - exact (Update_root_record_readable muts
             (mkRootRecordParams stemOutputID seqID coverage slotInflation
                (uint64 (Supply prev + slotInflation)) numTransactions)
             commitErr u Htrie Hcommit).
  - cbn [SlotInflation Supply StemOutputID SeqID Coverage ParSlotInflation
         ParSupply ParNumTransactions]. unfold uint64. split; [reflexivity|].
    split; [reflexivity|]. intros Hfit. now apply Z.mod_small.
Qed.

End UpdatableFacts.

Section GetStemFacts.
Import Peering Multistate.

Variable OutputID_Slot : list Z -> Z.
Variable StemAccountID : list Z.

Abbreviation GetStem := (GetStem OutputID_Slot StemAccountID).
Abbreviation accountPrefix := (stemAccountPrefix StemAccountID).

Implicit Types (trie : gmap (list Z) (list Z)).

(** With no index record under the stem account the callback never runs and
    [GetStem] returns the zero slot and no bytes. *)
Lemma GetStem_no_record trie :
  keysWithPrefix trie accountPrefix = [] -> GetStem trie = Ok (0, []).
Proof. intros Hk. unfold Multistate.GetStem. now rewrite Hk. Qed.

(** With exactly one index record, whose output is in the ledger state,
    [GetStem] returns the slot of that output and its bytes, and neither
    assertion fires. *)
Lemma GetStem_one_record trie (oid : list Z) :
  keysWithPrefix trie accountPrefix = [accountPrefix ++ oid] ->
  length oid = OutputIDLength ->
  trieGet trie (PartitionLedgerState :: oid) <> [] ->
  GetStem trie
  = Ok (OutputID_Slot oid, trieGet trie (PartitionLedgerState :: oid)).
Proof.
  intros Hk Hlen Hres. unfold Multistate.GetStem. rewrite Hk.
  cbn [IterateKeys GetStemBody count Z.eqb negb].
  rewrite drop_app_length. unfold OutputIDFromBytes, _getUTXO.
  rewrite Hlen, Nat.eqb_refl.
  destruct (trieGet trie (PartitionLedgerState :: oid)) as [|b v] eqn:Hv;
    [contradiction|].
  reflexivity.
Qed.

(** The same, with the precondition read off the content of the trie: the
    only key under the stem account is that of [oid]. *)
Lemma keysWithPrefix_unique trie (pfx key : list Z) :
  is_Some (trie !! key) ->
  take (length pfx) key = pfx ->
  (forall k, is_Some (trie !! k) -> take (length pfx) k = pfx -> k = key) ->
  keysWithPrefix trie pfx = [key].
Proof.
  intros [v Hv] Hpfx Huniq. unfold keysWithPrefix.
  assert (Hnd : NoDup (List.filter
                         (fun k => bool_decide (take (length pfx) k = pfx))
                         (map_to_list trie).*1)).
  { apply NoDup_ListNoDup, List.NoDup_filter, NoDup_ListNoDup.
    apply NoDup_fst_map_to_list. }
  assert (Hin : forall k,
             k ∈ List.filter (fun k => bool_decide (take (length pfx) k = pfx))
                   (map_to_list trie).*1 <-> k = key).
  { intros k. rewrite list_elem_of_In, filter_In, <- list_elem_of_In.
    rewrite bool_decide_eq_true, list_elem_of_fmap. split.
    - intros [([k' v'] & -> & Hel) Hp]. cbn [fst] in *.
      apply elem_of_map_to_list in Hel. apply Huniq; eauto.
    - intros ->. split; [|exact Hpfx].
      exists (key, v). split; [reflexivity|]. now apply elem_of_map_to_list. }
  destruct (List.filter _ _) as [|k1 l].
  - exfalso. pose proof (proj2 (Hin key) eq_refl) as Hel.
    inversion Hel.
  - assert (k1 = key) by (apply Hin; left). subst k1.
    destruct l as [|k2 l]; [reflexivity|].
    assert (k2 = key) by (apply Hin; right; left). subst k2.
    apply NoDup_cons in Hnd as [Hnotin _]. exfalso. apply Hnotin. left.
Qed.

Lemma GetStem_unique_stem trie (oid : list Z) :
  is_Some (trie !! (accountPrefix ++ oid)) ->
  (forall k,
      is_Some (trie !! k) ->
      take (length accountPrefix) k = accountPrefix ->
      k = accountPrefix ++ oid) ->
  length oid = OutputIDLength ->
  trieGet trie (PartitionLedgerState :: oid) <> [] ->
  GetStem trie
  = Ok (OutputID_Slot oid, trieGet trie (PartitionLedgerState :: oid)).
Proof.
  intros Hsome Huniq Hlen Hres. apply GetStem_one_record; try assumption.
  apply keysWithPrefix_unique; try assumption.
  now rewrite take_app_length.
Qed.

Lemma GetStemBody_cases trie (pfx : list Z) (st : StemIter) (k : list Z) :
  (exists st', GetStemBody OutputID_Slot trie pfx st k = Ok st'
               /\ count st = 0 /\ count st' = 1)
  \/ (exists msg, GetStemBody OutputID_Slot trie pfx st k = Panic msg).
Proof.
  unfold GetStemBody. destruct (count st =? 0) eqn:Hc; cbn [negb]; [|eauto].
  apply Z.eqb_eq in Hc.
  destruct (OutputIDFromBytes (drop (length pfx) k)) as [id|]; [|eauto].
  destruct (_getUTXO trie id) as [bytes [|]]; cbn [negb]; [|eauto].
  left. eexists. split; [reflexivity|]. cbn [count]. lia.
Qed.

(** With two index records or more the second call of the callback
    panics, if the first has not. *)
Lemma GetStem_two_records trie (k1 k2 : list Z) (keys : list (list Z)) :
  keysWithPrefix trie accountPrefix = k1 :: k2 :: keys ->
  exists msg, GetStem trie = Panic msg.
Proof.
  intros Hk. unfold Multistate.GetStem. rewrite Hk.
  cbn [IterateKeys].
  destruct (GetStemBody_cases trie accountPrefix
              {| count := 0; retSlot := 0; retBytes := [] |} k1)
    as [(st1 & -> & _ & Hc1) | (msg & ->)]; [|eauto].
  destruct (GetStemBody_cases trie accountPrefix st1 k2)
    as [(st2 & _ & Hc & _) | (msg & ->)]; [lia|eauto].
Qed.

(** With one index record whose output is not in the ledger state the
    callback panics. *)
Lemma GetStem_unresolved trie (oid : list Z) :
  keysWithPrefix trie accountPrefix = [accountPrefix ++ oid] ->
  trieGet trie (PartitionLedgerState :: oid) = [] ->
  exists msg, GetStem trie = Panic msg.
Proof.
  intros Hk Hres. unfold Multistate.GetStem. rewrite Hk.
  cbn [IterateKeys GetStemBody count Z.eqb negb].
  rewrite drop_app_length.
  destruct (OutputIDFromBytes oid) as [id|] eqn:Hid; [|eauto].
  unfold OutputIDFromBytes in Hid.
  destruct (Nat.eqb (length oid) OutputIDLength); [|discriminate].
  injection Hid as <-. unfold _getUTXO. rewrite Hres. cbn. eauto.
Qed.

(** C9. A state with no index record under the stem account violates the
    precondition, and [GetStem] does not fail on it: the callback that holds
    the assertions is never called, and the zero slot comes back with no
    bytes. So it is on the empty state and on a state that has an output in
    the ledger state and nothing in the accounts. *)
Theorem GetStem_returns_on_state_without_stem_record :
  GetStem ∅ = Ok (0, [])
  /\ GetStem {[ PartitionLedgerState :: repeat 0 OutputIDLength := [7] ]}
     = Ok (0, []).
Proof.
  split; apply GetStem_no_record; unfold keysWithPrefix.
  - now rewrite map_to_list_empty.
  - now rewrite map_to_list_singleton.
Qed.

End GetStemFacts.

(** ** Instances *)

Lemma encode_decode_roundtrip_instance :
  (exists data,
      RootRecordSerialization.Bytes Samples.rootRecord = Peering.Ok data
      /\ RootRecordSerialization.RootRecordFromBytes 32 data
         = Peering.Ok Samples.rootRecord)
  /\ Peering.heartbeatInfoFromBytes (Peering.Bytes Samples.heartbeat)
     = inl Samples.heartbeat
  /\ (exists frame,
        Peering.encodePeerMessageQueryTransactions 3 Samples.txids
        = Peering.Ok frame
        /\ Peering.decodePeerMessageQueryTransactions 3 frame
           = Peering.Ok Samples.txids).
Proof.
  apply (encode_decode_roundtrip 32 3 Samples.rootRecord Samples.heartbeat
           Samples.txids).
  - reflexivity.
  - split; [reflexivity|]. vm_compute. split; [discriminate|reflexivity].
  - vm_compute. repeat split; discriminate.
  - vm_compute. reflexivity.
  - repeat constructor.
Defined.

Lemma backgroundPullLoop_turn_instance :
  Samples.pullOrder ≡ₚ map_to_list (PullClient.pullList Samples.pullState)
  /\ NoDup (PullClient.selected (Samples.clockReadings 0) Samples.pullOrder).*1.
Proof.
  assert (Hperm : Samples.pullOrder
                  ≡ₚ map_to_list (PullClient.pullList Samples.pullState)).
  { unfold Samples.pullOrder, Samples.pullState. cbn [PullClient.pullList].
    now rewrite map_to_list_singleton. }
  split; [exact Hperm|].
  exact (proj1 (proj2 (proj2
           (backgroundPullLoop_turn Samples.clockReadings Samples.pullOrder
              Samples.pullState Hperm)))).
Defined.

Lemma startPulling_new_instance :
  PullClient.pullList Samples.pullState !! 9 = None
  /\ PullClient.startPulling Samples.clockReadings Samples.txBytesStore
       Samples.pullState 9
     = (Samples.pullState, [PullClient.GoTransactionIn [1; 42; 7; 7]])
  /\ flat_map
       (PullClient.goroutine 0 Samples.markTxStore
          Samples.splitTxBytesWithMetadata Samples.metadataFromBytes
          Samples.inputFails)
       (snd (PullClient.startPulling Samples.clockReadings
               Samples.txBytesStore Samples.pullState 9))
     = [PullClient.TxBytesWithMetadataIn [7; 7] 1042].
Proof.
  assert (Hnone : PullClient.pullList Samples.pullState !! 9 = None)
    by reflexivity.
  split; [exact Hnone|].
  destruct (proj1 (startPulling_new Samples.clockReadings
                     Samples.txBytesStore 0 Samples.markTxStore
                     Samples.splitTxBytesWithMetadata
                     Samples.metadataFromBytes Samples.inputFails
                     Samples.pullState 9 Hnone))
    as (Hstart & Hin & _).
  - cbn. lia.
  - split; [exact Hstart|].
    exact (Hin [42] [7; 7] (Some 42) eq_refl eq_refl).
Defined.

Lemma startPulling_already_instance :
  PullClient.startPulling Samples.clockReadings Samples.emptyTxBytesStore
    Samples.pullState 7
  = (Samples.pullState, []).
Proof.
  exact (proj1 (startPulling_already Samples.clockReadings
                  Samples.emptyTxBytesStore Samples.pullState 7
                  (PullClient.mkPullRecord 0 100) eq_refl)).
Defined.

Lemma latest_committed_slot_instance :
  Multistate.FetchLatestCommittedSlot Samples.latestSlotKey
    (Multistate.store Samples.updatable)
  <= Multistate.FetchLatestCommittedSlot Samples.latestSlotKey
       (Multistate.store
          (fst (Multistate.Update Samples.slotOf Samples.trieCommit
                  Samples.newTrie Samples.updateTrie Samples.rootRecordKey
                  Samples.latestSlotKey Samples.rootRecordBytes tt
                  (Some Samples.rootRecordParams) None Samples.updatable))).
Proof.
  refine (proj1 (latest_committed_slot_never_decreases Samples.slotOf
                   unit Samples.trieCommit Samples.newTrie unit
                   Samples.updateTrie
                   Samples.rootRecordKey Samples.latestSlotKey
                   Samples.rootRecordBytes tt (Some Samples.rootRecordParams)
                   None Samples.updatable _ _)).
  - intros kv Hin. apply list_elem_of_singleton in Hin. subst kv. discriminate.
  - intros par [= <-]. split; [discriminate|].
    vm_compute. split; [discriminate|reflexivity].
Defined.

Lemma branch_supply_identity_instance :
  exists rr : Multistate.RootRecord,
    Multistate.storeGet
      (Multistate.store
         (fst (Multistate.commitBranch Samples.slotOf Samples.trieCommit
                 Samples.newTrie Samples.updateTrie Samples.rootRecordKey
                 Samples.latestSlotKey Samples.rootRecordBytes
                 Samples.prevRootRecord Samples.stemOutputID (repeat 7 32)
                 1337 10 3 tt None Samples.updatable)))
      (Samples.rootRecordKey
         (Multistate.OutputID_TransactionID Samples.stemOutputID))
    = Samples.rootRecordBytes rr
    /\ Multistate.Supply rr = 1010.
Proof.
  destruct (branch_supply_identity Samples.slotOf unit Samples.trieCommit
              Samples.newTrie unit Samples.updateTrie Samples.rootRecordKey
              Samples.latestSlotKey Samples.rootRecordBytes
              Samples.prevRootRecord Samples.stemOutputID (repeat 7 32)
              1337 10 3 tt None Samples.updatable eq_refl)
    as (rr & Hget & Hrr & _).
  exists rr. split; [exact Hget|]. rewrite Hrr. reflexivity.
Defined.

(** ** The definitions at work on the sample values *)

Example heartbeat_bytes_sample :
  Peering.Bytes (Peering.mkHeartbeatInfo (Peering.mkTime 1 0) true true)
  = [0; 0; 0; 0; 59; 154; 202; 0; 17].
Proof. reflexivity. Qed.

Example heartbeat_short_frame_rejected :
  Peering.heartbeatInfoFromBytes [0; 0; 0; 0; 0; 0; 0; 1]
  = inr Peering.ErrWrongDataLen.
Proof. reflexivity. Qed.

Example queryTransactions_frame_sample :
  Peering.encodePeerMessageQueryTransactions 3 [repeat 1 32]
  = Peering.Ok ([3; 0; 1] ++ repeat 1 32).
Proof. reflexivity. Qed.

Example queryTransactions_truncated_frame :
  Peering.decodePeerMessageQueryTransactions 3 ([3; 0; 2] ++ repeat 1 40)
  = Peering.Err "DecodePeerMessageQueryTransactions: wrong msg data".
Proof. reflexivity. Qed.

Example rootRecord_with_delta_panics :
  RootRecordSerialization.Bytes
    (RootRecordSerialization.mkRootRecord [1] (repeat 7 32)
       (RootRecordSerialization.mkLedgerCoverage 42 1337))
  = Peering.Panic "r.LedgerCoverage.LatestDelta() == 0".
Proof. reflexivity. Qed.

Example pull_turn_sample :
  snd (PullClient.backgroundPullLoopTurn Samples.clockReadings
         Samples.pullOrder Samples.pullState)
  = [PullClient.PullTransactionsFromAllPeers [7]]
  /\ PullClient.pullList
       (fst (PullClient.backgroundPullLoopTurn Samples.clockReadings
               Samples.pullOrder Samples.pullState)) !! 7
     = Some (PullClient.mkPullRecord 0 6500000000).
Proof. split; reflexivity. Qed.

Example pull_turn_nothing_due :
  snd (PullClient.backgroundPullLoopTurn (fun _ => 50)
         Samples.pullOrder Samples.pullState)
  = [].
Proof. reflexivity. Qed.

Example update_sample_latest_slot :
  Multistate.FetchLatestCommittedSlot Samples.latestSlotKey
    (Multistate.store
       (fst (Multistate.Update Samples.slotOf Samples.trieCommit
               Samples.newTrie Samples.updateTrie Samples.rootRecordKey
               Samples.latestSlotKey Samples.rootRecordBytes tt
               (Some Samples.rootRecordParams) None Samples.updatable)))
  = 5.
Proof. vm_compute. reflexivity. Qed.

Example update_sample_commit_fails :
  Multistate.Update Samples.slotOf Samples.trieCommit
    Samples.newTrie Samples.updateTrie Samples.rootRecordKey
    Samples.latestSlotKey Samples.rootRecordBytes tt
    (Some Samples.rootRecordParams) (Some "disk full"%string) Samples.updatable
  = (Samples.updatable, Some "disk full"%string).
Proof. reflexivity. Qed.

(** * More of the code *)

(** ** peering: frames *)

Section MoreFrames.
Import Peering.

Lemma PutUint16_BigEndian (a b : Z) :
  0 <= a < 256 -> 0 <= b < 256 -> PutUint16 (BigEndian [a; b]) = [a; b].
Proof.
  intros Ha Hb. unfold BigEndian, PutUint16. cbn [fold_left].
  change (Z.shiftl 0 8) with 0. rewrite Z.lor_0_l.
  rewrite lor_shiftl8 by lia.
  rewrite byte_shiftr by lia. rewrite byte_mod.
  change (2 ^ 8) with 256.
  f_equal; [|f_equal].
  - rewrite Z.div_add_l by lia. rewrite (Z.div_small b) by lia.
    rewrite Z.add_0_r. apply Z.mod_small. lia.
  - rewrite Z.add_comm, Z.mod_add by lia. apply Z.mod_small. lia.
Qed.

Lemma BigEndian_2_range (a b : Z) :
  0 <= a < 256 -> 0 <= b < 256 -> 0 <= BigEndian [a; b] < 2 ^ 16.
Proof.
  intros Ha Hb. unfold BigEndian. cbn [fold_left].
  change (Z.shiftl 0 8) with 0. rewrite Z.lor_0_l.
  rewrite lor_shiftl8 by lia. lia.
Qed.

Lemma txBytes_header (T : Z) (n : Z) (payload : list Z) :
  take 2 (drop 1 ((T :: PutUint16 n) ++ payload)) = PutUint16 n
  /\ drop 3 ((T :: PutUint16 n) ++ payload) = payload.
Proof. split; reflexivity. Qed.

(** X1. A transaction of fewer than 65535 bytes goes through the tx-bytes
    frame unchanged; one of 65535 bytes or more makes the encoder panic. *)
Theorem txBytes_encode_decode (T : Z) (txBytes : list Z) :
  (Z.of_nat (length txBytes) < MaxUint16 ->
   exists frame,
     encodePeerMessageTxBytes T txBytes = Ok frame
     /\ length frame = (length txBytes + 3)%nat
     /\ decodePeerMessageTxBytes T frame = Ok txBytes)
  /\ (MaxUint16 <= Z.of_nat (length txBytes) ->
      encodePeerMessageTxBytes T txBytes = Panic "too long transaction bytes").
Proof.
  unfold encodePeerMessageTxBytes. split; intros Hlen.
  - assert (Hlt : (Z.of_nat (length txBytes) <? MaxUint16) = true)
      by now apply Z.ltb_lt.
    rewrite Hlt. cbn [negb]. eexists. split; [reflexivity|]. split.
    + cbn [app length]. rewrite length_app.
      unfold PutUint16. cbn [length]. lia.
    + unfold decodePeerMessageTxBytes. cbn [app length nth].
      rewrite Z.eqb_refl. cbn [negb orb].
      change (take 2 (drop 1 (T :: PutUint16 (uint16 (Z.of_nat (length txBytes)))
                                ++ txBytes)))
        with (PutUint16 (uint16 (Z.of_nat (length txBytes)))).
      change (drop 3 (T :: PutUint16 (uint16 (Z.of_nat (length txBytes)))
                        ++ txBytes))
        with txBytes.
      assert (Hu : uint16 (Z.of_nat (length txBytes))
                   = Z.of_nat (length txBytes)).
      { unfold uint16. apply Z.mod_small. unfold MaxUint16 in Hlen. lia. }
      rewrite Hu, BigEndian_PutUint16 by (unfold MaxUint16 in Hlen; lia).
      assert (Hl : length (PutUint16 (Z.of_nat (length txBytes)) ++ txBytes)
                   = S (S (length txBytes))) by reflexivity.
      rewrite Hl.
      assert (He : (Z.of_nat (S (S (S (length txBytes))))
                      =? Z.of_nat (length txBytes) + 3) = true)
        by (apply Z.eqb_eq; lia).
      now rewrite He.
  - assert (Hlt : (Z.of_nat (length txBytes) <? MaxUint16) = false)
      by now apply Z.ltb_ge.
    now rewrite Hlt.
Qed.

Lemma decodePeerMessageTxBytes_inv (T : Z) (data payload : list Z) :
  decodePeerMessageTxBytes T data = Ok payload ->
  (3 <= length data)%nat
  /\ nth 0 data 0 = T
  /\ Z.of_nat (length data) = BigEndian (take 2 (drop 1 data)) + 3
  /\ payload = drop 3 data.
Proof.
  unfold decodePeerMessageTxBytes.
  destruct (length data <? 3)%nat eqn:Hl; [discriminate|].
  destruct (nth 0 data 0 =? T) eqn:Ht; [|discriminate].
  cbn [negb orb].
  destruct (Z.of_nat (length data) =? BigEndian (take 2 (drop 1 data)) + 3)
    eqn:Hs; [|discriminate].
  cbn [negb]. intros [= <-].
  apply Nat.ltb_ge in Hl. apply Z.eqb_eq in Ht, Hs. auto.
Qed.

(** X2. What the tx-bytes decoder accepts: a frame of at least three bytes
    that starts with the type byte and is exactly three bytes longer than
    the size it announces; the payload is the rest. So it accepts nothing
    with trailing bytes and nothing cut short. *)
Theorem decodePeerMessageTxBytes_accepts (T : Z) (data payload : list Z) :
  decodePeerMessageTxBytes T data = Ok payload
  <-> (3 <= length data)%nat
      /\ nth 0 data 0 = T
      /\ Z.of_nat (length data) = BigEndian (take 2 (drop 1 data)) + 3
      /\ payload = drop 3 data.
Proof.
  split.
  - apply decodePeerMessageTxBytes_inv.
  - intros (Hl & Ht & Hs & ->). unfold decodePeerMessageTxBytes.
    apply Nat.ltb_ge in Hl. apply Z.eqb_eq in Ht, Hs.
    now rewrite Hl, Ht, Hs.
Qed.

(** X3. A frame the tx-bytes decoder accepts is the encoding of its payload,
    as long as the payload is shorter than 65535 bytes; a frame announcing
    65535 bytes is accepted too, and no call of the encoder produces it. *)
Theorem decodePeerMessageTxBytes_encode (T : Z) (data payload : list Z) :
  is_bytes data ->
  decodePeerMessageTxBytes T data = Ok payload ->
  (Z.of_nat (length payload) < MaxUint16 ->
   encodePeerMessageTxBytes T payload = Ok data)
  /\ (Z.of_nat (length payload) = MaxUint16 ->
      encodePeerMessageTxBytes T payload = Panic "too long transaction bytes").
Proof.
  intros Hbytes Hdec.
  apply decodePeerMessageTxBytes_inv in Hdec as (Hl & Ht & Hs & ->).
  destruct data as [|t [|a [|b rest]]]; cbn [length] in Hl; try lia.
  cbn [nth] in Ht. subst t.
  change (take 2 (drop 1 (T :: a :: b :: rest))) with [a; b] in Hs.
  change (drop 3 (T :: a :: b :: rest)) with rest.
  unfold is_bytes in Hbytes.
  apply Forall_cons in Hbytes as [_ Hbytes].
  apply Forall_cons in Hbytes as [Ha Hbytes].
  apply Forall_cons in Hbytes as [Hb _].
  cbn [length] in Hs.
  assert (Hn : Z.of_nat (length rest) = BigEndian [a; b]) by lia.
  pose proof (BigEndian_2_range a b Ha Hb) as Hr.
  unfold encodePeerMessageTxBytes. split; intros Hlen.
  - assert (Hlt : (Z.of_nat (length rest) <? MaxUint16) = true)
      by now apply Z.ltb_lt.
    rewrite Hlt. cbn [negb].
    assert (Hu : uint16 (Z.of_nat (length rest)) = BigEndian [a; b]).
    { unfold uint16. rewrite Hn. apply Z.mod_small. lia. }
    rewrite Hu, PutUint16_BigEndian by assumption. reflexivity.
  - assert (Hlt : (Z.of_nat (length rest) <? MaxUint16) = false)
      by (apply Z.ltb_ge; lia).
    now rewrite Hlt.
Qed.

End MoreFrames.

Section MoreQueryTransactions.
Import Peering.

Lemma readTransactionIDs_spec (n : nat) :
  forall rdr : list Z,
    ((n * TransactionIDLength <= length rdr)%nat ->
     exists ids,
       readTransactionIDs n rdr = Ok ids
       /\ length ids = n
       /\ Forall is_TransactionID ids
       /\ concat ids = take (n * TransactionIDLength) rdr)
    /\ ((length rdr < n * TransactionIDLength)%nat ->
        readTransactionIDs n rdr
        = Err "DecodePeerMessageQueryTransactions: wrong msg data").
Proof.
  induction n as [|n IH]; intros rdr.
  - split; [|cbn; lia]. intros _. exists []. cbn. rewrite take_0. auto.
  - cbn [readTransactionIDs].
    destruct (IH (drop TransactionIDLength rdr)) as [IHok IHerr].
    rewrite length_drop in IHok, IHerr.
    assert (Hmul : (S n * TransactionIDLength
                    = TransactionIDLength + n * TransactionIDLength)%nat)
      by reflexivity.
    rewrite Hmul.
    assert (Hpos : (0 < TransactionIDLength)%nat)
      by (unfold TransactionIDLength; lia).
    destruct (le_lt_dec TransactionIDLength (length rdr)) as [Hge|Hlt].
    + assert (Hlen : length (take TransactionIDLength rdr) = TransactionIDLength)
        by (rewrite length_take; lia).
      assert (Hne : Nat.eqb (length rdr) 0 = false).
      { apply Nat.eqb_neq. lia. }
      rewrite Hne, Hlen, Nat.eqb_refl. cbn [orb negb].
      unfold TransactionIDFromBytes. rewrite Hlen, Nat.eqb_refl.
      split; intros Hl.
      * destruct IHok as (ids & -> & Hn & Hall & Hcat); [lia|].
        exists (take TransactionIDLength rdr :: ids).
        split; [reflexivity|]. split; [cbn; lia|]. split.
        { constructor; assumption. }
        cbn [concat]. rewrite Hcat. apply take_take_drop.
      * rewrite IHerr; [reflexivity|lia].
    + split; intros Hl; [lia|].
      destruct (Nat.eqb (length rdr) 0) eqn:Hz; [reflexivity|].
      assert (Hlen : Nat.eqb (length (take TransactionIDLength rdr))
                       TransactionIDLength = false).
      { apply Nat.eqb_neq. rewrite length_take. lia. }
      now rewrite Hlen.
Qed.

(** X4. What the query-transactions decoder does with a frame. Without three
    bytes or without the type byte in front it is not a query. Otherwise the
    next two bytes are a count [n]: if [n] transaction IDs of 32 bytes are
    there, the decoder returns these [n] IDs, cut out of the frame in order,
    and whatever follows them is ignored; if fewer are there, it returns an
    error and no ID. *)
Theorem decodePeerMessageQueryTransactions_cases (T : Z) (data : list Z) :
  ((length data < 3)%nat \/ nth 0 data 0 <> T ->
   decodePeerMessageQueryTransactions T data
   = Err "not a QueryTransactions message")
  /\ ((3 <= length data)%nat /\ nth 0 data 0 = T ->
      let n := Z.to_nat (BigEndian (take 2 (drop 1 data))) in
      ((n * TransactionIDLength <= length data - 3)%nat ->
       exists ids,
         decodePeerMessageQueryTransactions T data = Ok ids
         /\ length ids = n
         /\ Forall is_TransactionID ids
         /\ concat ids = take (n * TransactionIDLength) (drop 3 data))
      /\ ((length data - 3 < n * TransactionIDLength)%nat ->
          decodePeerMessageQueryTransactions T data
          = Err "DecodePeerMessageQueryTransactions: wrong msg data")).
Proof.
  split.
  - unfold decodePeerMessageQueryTransactions. intros [Hl | Ht].
    + apply Nat.ltb_lt in Hl. now rewrite Hl.
    + apply Z.eqb_neq in Ht. rewrite Ht. cbn [negb]. now rewrite orb_true_r.
  - intros [Hl Ht] n. unfold decodePeerMessageQueryTransactions.
    apply Nat.ltb_ge in Hl. apply Z.eqb_eq in Ht.
    rewrite Hl, Ht. cbn [negb orb]. fold n.
    destruct (readTransactionIDs_spec n (drop 3 data)) as [Hok Herr].
    rewrite length_drop in Hok, Herr. split; assumption.
Qed.

End MoreQueryTransactions.

(** ** peering: heartbeat frames read and written again *)

Section MoreHeartbeat.
Import Peering.

Lemma UnixNano_Unix (n : Z) :
  - 2 ^ 63 <= n < 2 ^ 63 ->
  UnixNano (Unix 0 n) = n /\ clock_representable (Unix 0 n).
Proof.
  intros Hn. unfold Unix.
  destruct ((n <? 0) || (10 ^ 9 <=? n)) eqn:Hout.
  - pose proof (Z.quot_rem' n (10 ^ 9)) as Hqr.
    assert (Hrem : (n <= 0 -> - 10 ^ 9 < Z.rem n (10 ^ 9) <= 0)
                   /\ (0 <= n -> 0 <= Z.rem n (10 ^ 9) < 10 ^ 9)).
    { split; intros HN.
      - apply Z.rem_bound_pos_neg; lia.
      - apply Z.rem_bound_pos_pos; lia. }
    destruct Hrem as [Hrn Hrp].
    cbv zeta. rewrite Z.add_0_l.
    rewrite (int64_small (Z.quot n (10 ^ 9))) by lia.
    destruct (n - Z.quot n (10 ^ 9) * 10 ^ 9 <? 0) eqn:Hneg.
    + apply Z.ltb_lt in Hneg. rewrite int64_small by lia.
      unfold UnixNano, clock_representable. cbn [unixSec nsec].
      rewrite int64_small by lia. lia.
    + apply Z.ltb_ge in Hneg.
      unfold UnixNano, clock_representable. cbn [unixSec nsec].
      rewrite int64_small by lia. lia.
  - apply orb_false_iff in Hout as [H1 H2].
    apply Z.ltb_ge in H1. apply Z.leb_gt in H2.
    unfold UnixNano, clock_representable. cbn [unixSec nsec].
    rewrite int64_small by lia. lia.
Qed.

Lemma int64_range (z : Z) : - 2 ^ 63 <= int64 z < 2 ^ 63.
Proof.
  unfold int64. pose proof (Z.mod_pos_bound (z + 2 ^ 63) (2 ^ 64) ltac:(lia)).
  lia.
Qed.

Lemma uint64_int64 (z : Z) : uint64 (int64 z) = uint64 z.
Proof.
  unfold int64, uint64.
  rewrite <- Zminus_mod_idemp_l, Z.mod_mod by lia.
  rewrite Zminus_mod_idemp_l.
  replace (z + 2 ^ 63 - 2 ^ 63) with z by lia. reflexivity.
Qed.

Lemma BigEndian_8 (b0 b1 b2 b3 b4 b5 b6 b7 : Z) :
  0 <= b0 < 256 -> 0 <= b1 < 256 -> 0 <= b2 < 256 -> 0 <= b3 < 256 ->
  0 <= b4 < 256 -> 0 <= b5 < 256 -> 0 <= b6 < 256 -> 0 <= b7 < 256 ->
  BigEndian [b0; b1; b2; b3; b4; b5; b6; b7]
  = ((((((b0 * 256 + b1) * 256 + b2) * 256 + b3) * 256 + b4) * 256 + b5)
       * 256 + b6) * 256 + b7.
Proof.
  intros. unfold BigEndian. cbn [fold_left].
  change (Z.shiftl 0 8) with 0. rewrite Z.lor_0_l.
  now rewrite !lor_shiftl8 by assumption.
Qed.

Lemma PutUint64_BigEndian (b0 b1 b2 b3 b4 b5 b6 b7 : Z) :
  0 <= b0 < 256 -> 0 <= b1 < 256 -> 0 <= b2 < 256 -> 0 <= b3 < 256 ->
  0 <= b4 < 256 -> 0 <= b5 < 256 -> 0 <= b6 < 256 -> 0 <= b7 < 256 ->
  0 <= BigEndian [b0; b1; b2; b3; b4; b5; b6; b7] < 2 ^ 64
  /\ PutUint64 (BigEndian [b0; b1; b2; b3; b4; b5; b6; b7])
     = [b0; b1; b2; b3; b4; b5; b6; b7].
Proof.
  intros H0 H1 H2 H3 H4 H5 H6 H7.
  rewrite BigEndian_8 by assumption.
  set (v := ((((((b0 * 256 + b1) * 256 + b2) * 256 + b3) * 256 + b4) * 256
               + b5) * 256 + b6) * 256 + b7).
  split; [subst v; lia|].
  unfold PutUint64. rewrite !byte_shiftr by lia. rewrite byte_mod.
  change (2 ^ 56) with 72057594037927936.
  change (2 ^ 48) with 281474976710656.
  change (2 ^ 40) with 1099511627776.
  change (2 ^ 32) with 4294967296.
  change (2 ^ 24) with 16777216.
  change (2 ^ 16) with 65536.
  change (2 ^ 8) with 256.
  repeat (f_equal; [subst v; Z.div_mod_to_equations; lia|]).
  f_equal. subst v. Z.div_mod_to_equations. lia.
Qed.

Lemma flags_setFromFlags_bytes :
  forallb (fun fl =>
             flags (setFromFlags (mkHeartbeatInfo (mkTime 0 0) false false) fl)
             =? Z.land fl 17)
    (map Z.of_nat (seq 0 256)) = true.
Proof. vm_compute. reflexivity. Qed.

Lemma flags_setFromFlags (hi : heartbeatInfo) (fl : Z) :
  0 <= fl < 256 -> flags (setFromFlags hi fl) = Z.land fl 17.
Proof.
  intros Hfl.
  pose proof (proj1 (forallb_forall _ _) flags_setFromFlags_bytes fl) as Hall.
  apply Z.eqb_eq. rewrite <- Hall; [reflexivity|].
  apply in_map_iff. exists (Z.to_nat fl). split; [lia|].
  apply in_seq. lia.
Qed.

(** X5. Every frame of nine bytes decodes, to a clock within the range of
    [int64] nanoseconds; and encoding what was decoded gives the frame back
    with the flags byte cut down to the two bits that the code reads, those
    of value 1 and 16. *)
Theorem heartbeat_decode_encode (data : list Z) :
  length data = 9%nat ->
  is_bytes data ->
  exists hi,
    heartbeatInfoFromBytes data = inl hi
    /\ clock_representable (clock hi)
    /\ Bytes hi = take 8 data ++ [Z.land (nth 8 data 0) 17].
Proof.
  intros Hlen Hbytes.
  destruct data as [|b0 [|b1 [|b2 [|b3 [|b4 [|b5 [|b6 [|b7 [|b8 [|? ?]]]]]]]]]];
    try discriminate Hlen.
  unfold is_bytes in Hbytes.
  repeat match goal with
         | H : Forall _ (_ :: _) |- _ =>
             apply Forall_cons in H as [? H]
         end.
  unfold is_byte in *.
  unfold heartbeatInfoFromBytes. cbn [length Nat.eqb negb Nat.add].
  change (take 8 [b0; b1; b2; b3; b4; b5; b6; b7; b8])
    with [b0; b1; b2; b3; b4; b5; b6; b7].
  cbn [nth].
  destruct (PutUint64_BigEndian b0 b1 b2 b3 b4 b5 b6 b7) as [Hrange Hput];
    try assumption.
  set (v := BigEndian [b0; b1; b2; b3; b4; b5; b6; b7]) in *.
  destruct (UnixNano_Unix (int64 v) (int64_range v)) as [Hnano Hrep].
  eexists. split; [reflexivity|]. split; [exact Hrep|].
  unfold Bytes. cbn [clock setFromFlags].
  rewrite Hnano, uint64_int64.
  assert (Hu : uint64 v = v) by (unfold uint64; apply Z.mod_small; lia).
  rewrite Hu, Hput.
  rewrite (flags_setFromFlags _ b8) by assumption. reflexivity.
Qed.

End MoreHeartbeat.

(** ** peering: blacklist *)

Section MoreBlacklist.
Import Peering.

Context {PeerID : Type} `{Countable PeerID}.

Implicit Types (blacklist : gmap PeerID Z) (order : list (PeerID * Z)).

Lemma toDelete_fold (nowis : Z) order :
  forall acc : list PeerID,
    fold_left (fun toDelete (e : PeerID * Z) =>
                 if snd e <? nowis then toDelete ++ [fst e] else toDelete)
      order acc
    = acc ++ (List.filter (fun e : PeerID * Z => snd e <? nowis) order).*1.
Proof.
  induction order as [|[id d] order IH]; intros acc; cbn [fold_left].
  - cbn. now rewrite app_nil_r.
  - rewrite IH. cbn [List.filter fst snd].
    destruct (d <? nowis); [|reflexivity].
    cbn. now rewrite <- app_assoc.
Qed.

Lemma delete_fold_lookup (ids : list PeerID) :
  forall blacklist (id : PeerID),
    fold_left (fun bl id => delete id bl) ids blacklist !! id
    = if decide (id ∈ ids) then None else blacklist !! id.
Proof.
  induction ids as [|i ids IH]; intros blacklist id; cbn [fold_left].
  - destruct (decide (id ∈ [])) as [Hin|_]; [inversion Hin|reflexivity].
  - rewrite IH.
    destruct (decide (id ∈ ids)) as [Hin|Hnin].
    + destruct (decide (id ∈ i :: ids)) as [_|Hn]; [reflexivity|].
      exfalso. apply Hn. now right.
    + destruct (decide (i = id)) as [->|Hne].
      * rewrite lookup_delete_eq.
        destruct (decide (id ∈ id :: ids)) as [_|Hn]; [reflexivity|].
        exfalso. apply Hn. left.
      * rewrite lookup_delete_ne by exact Hne.
        destruct (decide (id ∈ i :: ids)) as [Hin|_]; [|reflexivity].
        apply elem_of_cons in Hin as [->|Hin]; [congruence|contradiction].
Qed.

Lemma elem_of_toDelete (nowis : Z) order blacklist (id : PeerID) :
  order ≡ₚ map_to_list blacklist ->
  id ∈ (List.filter (fun e : PeerID * Z => snd e <? nowis) order).*1
  <-> exists deadline, blacklist !! id = Some deadline /\ deadline < nowis.
Proof.
  intros Hperm. rewrite list_elem_of_fmap. split.
  - intros ([id' d] & -> & Hin). cbn [fst].
    apply list_elem_of_In, filter_In in Hin as [Hin Hd]. cbn [snd] in Hd.
    apply list_elem_of_In in Hin. rewrite Hperm in Hin.
    apply elem_of_map_to_list in Hin. apply Z.ltb_lt in Hd. eauto.
  - intros (d & Hl & Hd). exists (id, d). split; [reflexivity|].
    apply list_elem_of_In, filter_In. split.
    + apply list_elem_of_In. rewrite Hperm. now apply elem_of_map_to_list.
    + now apply Z.ltb_lt.
Qed.

(** X6. [cleanBlacklist] drops from the blacklist the peers whose deadline
    is before now and nobody else, in whatever order [range] hands out the
    entries: a peer is on the list afterwards if and only if it was on it
    with a deadline that is now or later, and its deadline is as it was. *)
Theorem cleanBlacklist_keeps_unexpired (nowis : Z) order blacklist :
  order ≡ₚ map_to_list blacklist ->
  forall id : PeerID,
    cleanBlacklist nowis order blacklist !! id
    = match blacklist !! id with
      | Some deadline => if deadline <? nowis then None else Some deadline
      | None => None
      end.
Proof.
  intros Hperm id. unfold cleanBlacklist.
  rewrite toDelete_fold, app_nil_l, delete_fold_lookup.
  pose proof (elem_of_toDelete nowis order blacklist id Hperm) as Hdel.
  destruct (decide (id ∈ (List.filter (fun e : PeerID * Z => snd e <? nowis)
                            order).*1)) as [Hin|Hnin].
  - apply Hdel in Hin as (d & -> & Hd). apply Z.ltb_lt in Hd. now rewrite Hd.
  - destruct (blacklist !! id) as [d|] eqn:Hl; [|reflexivity].
    destruct (d <? nowis) eqn:Hd; [|reflexivity].
    exfalso. apply Hnin, Hdel. exists d. split; [reflexivity|].
    now apply Z.ltb_lt.
Qed.

(** X7. A peer put on the blacklist at [t] for [ttl] is on it after every
    clean-up up to the instant [t + ttl] included, and off it after a
    clean-up at any later instant. *)
Theorem blacklisted_until_deadline (t ttl t' : Z) order blacklist
    (id : PeerID) :
  order ≡ₚ map_to_list (addToBlacklist t blacklist id ttl) ->
  isInBlacklist
    (cleanBlacklist t' order (addToBlacklist t blacklist id ttl)) id
  = (t' <=? t + ttl).
Proof.
  intros Hperm. unfold isInBlacklist, cleanBlacklist.
  rewrite toDelete_fold, app_nil_l, delete_fold_lookup.
  pose proof (elem_of_toDelete t' order _ id Hperm) as Hdel.
  unfold addToBlacklist in *. rewrite lookup_insert_eq in *.
  destruct (decide (id ∈ (List.filter (fun e : PeerID * Z => snd e <? t')
                            order).*1)) as [Hin|Hnin].
  - apply Hdel in Hin as (d & [= <-] & Hd). symmetry. apply Z.leb_gt. lia.
  - symmetry. apply Z.leb_le.
    destruct (Z_lt_ge_dec (t + ttl) t') as [Hlt|Hge]; [|lia].
    exfalso. apply Hnin, Hdel. eauto.
Qed.

End MoreBlacklist.

(** ** peering: the last ten clock differences of a peer *)

Section MoreClockDifferences.
Import Peering.

Lemma evidence_wf (d : Z) (p : ClockDifferences) :
  wf_ClockDifferences p ->
  exists p',
    _evidenceClockDifference d p = Ok p' /\ wf_ClockDifferences p'.
Proof.
  intros [Hlen Hidx]. unfold _evidenceClockDifference. rewrite Hlen.
  assert (H1 : (clockDifferencesIdx p <? 0) = false) by (apply Z.ltb_ge; lia).
  assert (H2 : (Z.of_nat 10 <=? clockDifferencesIdx p) = false)
    by (apply Z.leb_gt; lia).
  rewrite H1, H2. cbn [orb]. eexists. split; [reflexivity|].
  split; cbn [clockDifferences clockDifferencesIdx].
  - now rewrite length_insert.
  - pose proof (Z.rem_bound_pos (clockDifferencesIdx p + 1) (Z.of_nat 10)
                  ltac:(lia) ltac:(lia)). lia.
Qed.

Lemma evidences_wf (diffs : list Z) :
  forall p : ClockDifferences,
    wf_ClockDifferences p ->
    exists p',
      evidenceClockDifferences diffs p = Ok p' /\ wf_ClockDifferences p'.
Proof.
  induction diffs as [|d diffs IH]; intros p Hwf; cbn [evidenceClockDifferences].
  - eauto.
  - destruct (evidence_wf d p Hwf) as (p1 & -> & Hwf1). now apply IH.
Qed.

Lemma evidences_app (diffs1 diffs2 : list Z) :
  forall p p1 : ClockDifferences,
    evidenceClockDifferences diffs1 p = Ok p1 ->
    evidenceClockDifferences (diffs1 ++ diffs2) p
    = evidenceClockDifferences diffs2 p1.
Proof.
  induction diffs1 as [|d diffs1 IH]; intros p p1 H1;
    cbn [evidenceClockDifferences app] in *.
  - now injection H1 as ->.
  - destruct (_evidenceClockDifference d p) as [p'| |]; try discriminate.
    now apply IH.
Qed.

(** Ten evidences in a row overwrite every slot: the buffer is the ten
    values, turned round by the index. *)
Lemma ten_evidences (b0 b1 b2 b3 b4 b5 b6 b7 b8 b9 : Z) (i : Z)
    (d0 d1 d2 d3 d4 d5 d6 d7 d8 d9 : Z) :
  0 <= i < 10 ->
  evidenceClockDifferences [d0; d1; d2; d3; d4; d5; d6; d7; d8; d9]
    (mkClockDifferences [b0; b1; b2; b3; b4; b5; b6; b7; b8; b9] i)
  = Ok (mkClockDifferences
          (drop (10 - Z.to_nat i) [d0; d1; d2; d3; d4; d5; d6; d7; d8; d9]
             ++ take (10 - Z.to_nat i)
                  [d0; d1; d2; d3; d4; d5; d6; d7; d8; d9])
          i).
Proof.
  intros Hi.
  assert (Hcases : i = 0 \/ i = 1 \/ i = 2 \/ i = 3 \/ i = 4 \/ i = 5
                   \/ i = 6 \/ i = 7 \/ i = 8 \/ i = 9) by lia.
  repeat (destruct Hcases as [-> | Hcases]; [reflexivity|]).
  subst i. reflexivity.
Qed.

Lemma Zsum_app (l1 l2 : list Z) : Zsum (l1 ++ l2) = Zsum l1 + Zsum l2.
Proof.
  unfold Zsum. induction l1 as [|x l1 IH]; cbn [app fold_right]; lia.
Qed.

Lemma Zsum_rotate (n : nat) (l : list Z) :
  Zsum (drop n l ++ take n l) = Zsum l.
Proof.
  rewrite Zsum_app, Z.add_comm, <- Zsum_app. now rewrite take_drop.
Qed.

Lemma Zsum_bounds (B : Z) (l : list Z) :
  Forall (fun d => - B <= d <= B) l ->
  - B * Z.of_nat (length l) <= Zsum l <= B * Z.of_nat (length l).
Proof.
  unfold Zsum. induction 1 as [|d l Hd Hall IH]; cbn [fold_right length]; lia.
Qed.

Lemma int64_sum (l : list Z) :
  forall (acc : Z) (k : Z),
    Forall (fun d => - 2 ^ 59 <= d <= 2 ^ 59) l ->
    0 <= k ->
    k + Z.of_nat (length l) <= 15 ->
    - 2 ^ 59 * k <= acc <= 2 ^ 59 * k ->
    fold_left (fun ret d => int64 (ret + d)) l acc = acc + Zsum l.
Proof.
  unfold Zsum.
  induction l as [|d l IH]; intros acc k Hall Hk Hlen Hacc;
    cbn [fold_left fold_right length] in *; [lia|].
  apply Forall_cons in Hall as [Hd Hall].
  rewrite int64_small by lia.
  rewrite (IH (acc + d) (k + 1)); try assumption; lia.
Qed.

Lemma evidences_last_ten (diffs : list Z) (p : ClockDifferences) :
  wf_ClockDifferences p ->
  (10 <= length diffs)%nat ->
  exists (p' : ClockDifferences) (n : nat),
    evidenceClockDifferences diffs p = Ok p'
    /\ wf_ClockDifferences p'
    /\ clockDifferences p'
       = drop n (drop (length diffs - 10) diffs)
           ++ take n (drop (length diffs - 10) diffs).
Proof.
  intros Hwf Hlen.
  destruct (evidences_wf (take (length diffs - 10) diffs) p Hwf)
    as (p1 & Hp1 & [Hl1 Hi1]).
  assert (Hev : evidenceClockDifferences diffs p
                = evidenceClockDifferences (drop (length diffs - 10) diffs) p1).
  { rewrite <- (evidences_app _ _ _ _ Hp1). now rewrite take_drop. }
  rewrite Hev. clear Hev Hp1.
  assert (Hlast : length (drop (length diffs - 10) diffs) = 10%nat)
    by (rewrite length_drop; lia).
  destruct p1 as [buf i]. cbn [clockDifferences clockDifferencesIdx] in *.
  destruct buf as [|b0 [|b1 [|b2 [|b3 [|b4 [|b5 [|b6 [|b7 [|b8 [|b9 [|? ?]]]]]]]]]]];
    try discriminate Hl1.
  destruct (drop (length diffs - 10) diffs)
    as [|d0 [|d1 [|d2 [|d3 [|d4 [|d5 [|d6 [|d7 [|d8 [|d9 [|? ?]]]]]]]]]]];
    try discriminate Hlast.
  rewrite ten_evidences by exact Hi1.
  eexists _, (10 - Z.to_nat i)%nat. split; [reflexivity|].
  split; [|reflexivity].
  split; cbn [clockDifferences clockDifferencesIdx]; [|exact Hi1].
  rewrite length_app, length_drop, length_take. cbn [length]. lia.
Qed.

(** X8. The ring buffer of a peer holds the clock differences of its last
    ten heartbeats: after ten evidences or more, whatever the buffer held
    before and wherever its index stood, its ten slots are the last ten
    differences, in some order, and no evidence panics. *)
Theorem clockDifferences_are_the_last_ten (diffs : list Z)
    (p : ClockDifferences) :
  wf_ClockDifferences p ->
  (10 <= length diffs)%nat ->
  exists p',
    evidenceClockDifferences diffs p = Ok p'
    /\ wf_ClockDifferences p'
    /\ clockDifferences p' ≡ₚ drop (length diffs - 10) diffs.
Proof.
  intros Hwf Hlen.
  destruct (evidences_last_ten diffs p Hwf Hlen) as (p' & n & Hp & Hwf' & Hbuf).
  exists p'. split; [exact Hp|]. split; [exact Hwf'|].
  rewrite Hbuf, Permutation_app_comm. now rewrite take_drop.
Qed.

(** X9. A peer is judged on its last ten heartbeats, and on one side only:
    with differences of at most 2^59 ns in size, after ten evidences or more
    the average is the sum of the last ten divided by ten, rounded towards
    zero, and the peer has too big a clock difference exactly when that sum
    is at least ten times [clockTolerance] (5 s) plus ten. *)
Theorem avgClockDifference_of_last_ten (diffs : list Z)
    (p : ClockDifferences) :
  wf_ClockDifferences p ->
  (10 <= length diffs)%nat ->
  Forall (fun d => - 2 ^ 59 <= d <= 2 ^ 59) (drop (length diffs - 10) diffs) ->
  exists p',
    evidenceClockDifferences diffs p = Ok p'
    /\ avgClockDifference p'
       = Z.quot (Zsum (drop (length diffs - 10) diffs)) 10
    /\ (hasTooBigClockDiff p' = true
        <-> 10 * clockTolerance + 10
            <= Zsum (drop (length diffs - 10) diffs)).
Proof.
  intros Hwf Hlen Hall.
  destruct (evidences_last_ten diffs p Hwf Hlen)
    as (p' & n & Hp & [Hl' _] & Hbuf).
  exists p'. split; [exact Hp|].
  set (last := drop (length diffs - 10) diffs) in *.
  assert (Havg : avgClockDifference p' = Z.quot (Zsum last) 10).
  { unfold avgClockDifference. rewrite Hl'.
    rewrite (int64_sum _ 0 0); try lia.
    - rewrite Hbuf, Zsum_rotate. reflexivity.
    - rewrite Hbuf. apply Forall_app. split.
      + now apply Forall_drop.
      + now apply Forall_take. }
  split; [exact Havg|].
  unfold hasTooBigClockDiff. rewrite Havg, Z.ltb_lt.
  unfold clockTolerance, Second.
  destruct (Z_lt_ge_dec (Zsum last) 0) as [Hneg|Hpos].
  - pose proof (Z.quot_rem' (Zsum last) 10) as Hqr.
    pose proof (Z.rem_bound_neg_neg (Zsum last) (-10) ltac:(lia) ltac:(lia)).
    pose proof (Z.rem_bound_pos_neg (Zsum last) 10 ltac:(lia) ltac:(lia)).
    lia.
  - pose proof (Z.quot_rem' (Zsum last) 10) as Hqr.
    pose proof (Z.rem_bound_pos_pos (Zsum last) 10 ltac:(lia) ltac:(lia)).
    lia.
Qed.

End MoreClockDifferences.

(** ** Pull client: stopping, and whole runs of the loop *)

Section MorePullClient.
Import PullClient.

Context {TransactionID : Type} `{Countable TransactionID}.

Implicit Types (p : State (TransactionID := TransactionID)).
Implicit Types (order : list (TransactionID * pullRecord)).

Variable now : nat -> Time.
Variable GetTxBytesWithMetadata : TransactionID -> list Z.

Lemma turn_lookup order p (txid : TransactionID) :
  order ≡ₚ map_to_list (pullList p) ->
  pullList (fst (backgroundPullLoopTurn now order p)) !! txid
  = refreshed (now (reads p)) <$> pullList p !! txid.
Proof.
  intros Hperm.
  assert (Hnd : NoDup order.*1).
  { rewrite Hperm. apply NoDup_fst_map_to_list. }
  assert (Hmap : (list_to_map order : gmap TransactionID pullRecord)
                 = pullList p).
  { rewrite (list_to_map_proper _ _ Hnd Hperm). apply list_to_map_to_list. }
  rewrite backgroundPullLoopTurn_state.
  unfold maturedPullList. cbn [fst pullList].
  rewrite (maturedBody_fold_list _ _ _ _ Hnd), Hmap. cbn [list'].
  unfold refreshed.
  destruct (pullList p !! txid) as [rec|]; cbn; [|reflexivity].
  now destruct (nextDeadline rec <? now (reads p)).
Qed.

Lemma refreshed_keeps (nowis : Time) (rec : pullRecord) :
  start (refreshed nowis rec) = start rec
  /\ nextDeadline rec <= nextDeadline (refreshed nowis rec)
  /\ nowis <= nextDeadline (refreshed nowis rec).
Proof.
  unfold refreshed. destruct (nextDeadline rec <? nowis) eqn:Hd;
    cbn [start nextDeadline].
  - apply Z.ltb_lt in Hd. unfold pullPeriod, Millisecond. lia.
  - apply Z.ltb_ge in Hd. lia.
Qed.

(** X10. Stopping undoes starting. For a transaction that is not in the pull
    list: a stop request changes nothing and sends nothing; and a pull
    request followed by a stop request leaves the pull list as it was before
    the two, whether the bytes were in the tx-bytes store or not. *)
Theorem stop_undoes_start p (txid : TransactionID) :
  pullList p !! txid = None ->
  consume now GetTxBytesWithMetadata p (mkInput txid true) = (p, [])
  /\ pullList
       (fst (consume now GetTxBytesWithMetadata
               (fst (consume now GetTxBytesWithMetadata p (mkInput txid false)))
               (mkInput txid true)))
     = pullList p
  /\ pullList
       (fst (consume now GetTxBytesWithMetadata
               (fst (consume now GetTxBytesWithMetadata p (mkInput txid false)))
               (mkInput txid true))) !! txid = None.
Proof.
  intros Hnone. unfold consume. cbn [Stop TxID].
  assert (Hstop : stopPulling p txid = p).
  { unfold stopPulling. now rewrite Hnone. }
  split; [now rewrite Hstop|].
  assert (Hlist : pullList
                    (stopPulling
                       (fst (startPulling now GetTxBytesWithMetadata p txid))
                       txid) = pullList p).
  { unfold startPulling. rewrite Hnone.
    destruct (0 <? length (GetTxBytesWithMetadata txid))%nat; cbn [fst].
    - now rewrite Hstop.
    - unfold stopPulling. cbn [pullList]. rewrite lookup_insert_eq.
      cbn [pullList]. rewrite delete_insert_eq. now apply delete_id. }
  cbn [fst]. rewrite Hlist. auto.
Qed.

(** X11. The background loop neither adds nor removes entries, never
    changes the [start] of an entry and never moves a [nextDeadline] back,
    over any number of turns. *)
Theorem backgroundPullLoop_keeps_entries (ws : list Wakeup) :
  forall p,
    rangesPullList now ws p ->
    forall txid : TransactionID,
      match pullList p !! txid,
            pullList (fst (backgroundPullLoop now ws p)) !! txid with
      | Some rec, Some rec' =>
          start rec' = start rec /\ nextDeadline rec <= nextDeadline rec'
      | None, None => True
      | _, _ => False
      end.
Proof.
  induction ws as [|[|order] ws IH]; intros p Hr txid.
  - cbn. destruct (pullList p !! txid); [split; lia|exact I].
  - cbn. destruct (pullList p !! txid); [split; lia|exact I].
  - destruct Hr as [Hperm Hr].
    rewrite backgroundPullLoop_unfold. cbn [fst].
    specialize (IH _ Hr txid).
    rewrite (turn_lookup order p txid Hperm) in IH.
    destruct (pullList p !! txid) as [rec|]; cbn [fmap option_fmap option_map] in IH.
    + destruct (pullList (fst (backgroundPullLoop now ws
                                 (fst (backgroundPullLoopTurn now order p))))
                  !! txid) as [rec'|]; [|exact IH].
      destruct (refreshed_keeps (now (reads p)) rec) as (Hs & Hd & _).
      destruct IH as [IHs IHd]. split; [congruence|lia].
    + exact IH.
Qed.

(** X12. The loop asks again for a transaction no sooner than [pullPeriod]
    after it last asked: an entry selected at a turn is not selected at a
    later turn whose clock reading is at most [pullPeriod] (500 ms) after
    the reading of the first. *)
Theorem not_selected_again_within_pullPeriod order order2 p
    (txid : TransactionID) (rec : pullRecord) :
  order ≡ₚ map_to_list (pullList p) ->
  order2 ≡ₚ map_to_list
              (pullList (fst (backgroundPullLoopTurn now order p))) ->
  now (reads (fst (backgroundPullLoopTurn now order p)))
  <= now (reads p) + pullPeriod ->
  (txid, rec) ∈ selected (now (reads p)) order ->
  txid ∉ (selected
            (now (reads (fst (backgroundPullLoopTurn now order p))))
            order2).*1.
Proof.
  intros Hperm Hperm2 Hclock Hsel Hagain.
  apply elem_of_selected in Hsel as [Hin Hdue].
  rewrite Hperm in Hin. apply elem_of_map_to_list in Hin.
  apply list_elem_of_fmap in Hagain as ([txid' rec2] & Heq & Hin2).
  cbn [fst] in Heq. subst txid'.
  apply elem_of_selected in Hin2 as [Hin2 Hdue2].
  rewrite Hperm2 in Hin2. apply elem_of_map_to_list in Hin2.
  rewrite (turn_lookup order p txid Hperm), Hin in Hin2.
  cbn in Hin2. injection Hin2 as <-.
  unfold refreshed in Hdue2.
  apply Z.ltb_lt in Hdue. rewrite Hdue in Hdue2.
  cbn [nextDeadline] in Hdue2. lia.
Qed.

Lemma stuckList_keeps (deadline : Time) (t : TransactionID) order :
  forall a : gmap TransactionID Z * nat,
    is_Some (fst a !! t) ->
    is_Some (fst (fold_left (stuckListBody now deadline) order a) !! t).
Proof.
  induction order as [|[t' r'] order IH]; intros a Ha; cbn [fold_left];
    [exact Ha|].
  apply IH. unfold stuckListBody. cbn [fst snd].
  destruct (start r' <? deadline); cbn [fst]; [|exact Ha].
  destruct (decide (t' = t)) as [->|Hne].
  - rewrite lookup_insert_eq. eauto.
  - now rewrite lookup_insert_ne.
Qed.

Lemma stuckList_fold (deadline : Time) order :
  forall acc : gmap TransactionID Z * nat,
    let res := fold_left (stuckListBody now deadline) order acc in
    (snd acc <= snd res)%nat
    /\ (forall txid rec,
           (txid, rec) ∈ order -> start rec < deadline ->
           is_Some (fst res !! txid))
    /\ (forall txid d,
           fst res !! txid = Some d ->
           fst acc !! txid = Some d
           \/ exists rec n,
               (txid, rec) ∈ order /\ start rec < deadline
               /\ (snd acc <= n)%nat /\ d = Sub (now n) (start rec)).
Proof.
  induction order as [|[t r] order IH]; intros acc; cbn zeta; cbn [fold_left].
  - split; [lia|]. split; [intros ? ? Hin; inversion Hin|auto].
  - specialize (IH (stuckListBody now deadline acc (t, r))).
    cbn zeta in IH. destruct IH as (Hn & Hin & Hout).
    set (res := fold_left (stuckListBody now deadline) order
                  (stuckListBody now deadline acc (t, r))) in *.
    assert (Hstep : (snd acc <= snd (stuckListBody now deadline acc (t, r)))%nat).
    { unfold stuckListBody. cbn [fst snd].
      destruct (start r <? deadline); cbn [snd]; lia. }
    split; [lia|]. split.
    + intros txid rec Hel Hlt.
      apply elem_of_cons in Hel as [[= -> ->]|Hel]; [|now apply (Hin txid rec)].
      subst res. apply stuckList_keeps. unfold stuckListBody. cbn [fst snd].
      apply Z.ltb_lt in Hlt. rewrite Hlt. cbn [fst].
      rewrite lookup_insert_eq. eauto.
    + intros txid d Hd. destruct (Hout txid d Hd) as [Hacc|(rec & n & Hel & Hlt & Hge & ->)].
      * unfold stuckListBody in Hacc. cbn [fst snd] in Hacc.
        destruct (start r <? deadline) eqn:Hlt; cbn [fst] in Hacc; [|now left].
        destruct (decide (t = txid)) as [->|Hne].
        -- rewrite lookup_insert_eq in Hacc. injection Hacc as <-.
           right. exists r, (snd acc). split; [left|].
           split; [now apply Z.ltb_lt|]. split; [lia|reflexivity].
        -- rewrite lookup_insert_ne in Hacc by exact Hne. now left.
      * right. exists rec, n. split; [now right|]. split; [exact Hlt|].
        split; [lia|reflexivity].
Qed.

(** X13. [stuckList], for a [forHowLong] that is a [Duration] (an [int64]),
    leaves the pull list alone and reports exactly the transactions that
    were started before the clock reading it takes first minus
    [forHowLong]; at the least [Duration], whose negation is itself, that
    is before the reading minus 2^63 ns. On a clock that does not run
    backwards every duration it reports is a [Duration] and is not shorter
    than [forHowLong]; it is longer, unless [forHowLong] is the greatest
    [Duration], at which [time.Since] saturates. *)
Theorem stuckList_reports_the_stuck (forHowLong : Z) order p :
  order ≡ₚ map_to_list (pullList p) ->
  - 2 ^ 63 <= forHowLong < 2 ^ 63 ->
  (forall n m : nat, (n <= m)%nat -> now n <= now m) ->
  pullList (fst (stuckList now forHowLong order p)) = pullList p
  /\ forall txid : TransactionID,
       (is_Some (snd (stuckList now forHowLong order p) !! txid)
        <-> exists rec,
              pullList p !! txid = Some rec
              /\ start rec
                 < now (reads p)
                   - (if forHowLong =? - 2 ^ 63 then 2 ^ 63 else forHowLong))
       /\ (forall d,
              snd (stuckList now forHowLong order p) !! txid = Some d ->
              - 2 ^ 63 <= d < 2 ^ 63
              /\ forHowLong <= d
              /\ (forHowLong < 2 ^ 63 - 1 -> forHowLong < d)).
Proof.
  intros Hperm Hrange Hmono. split; [reflexivity|]. intros txid.
  unfold stuckList. cbn [snd].
  assert (Hneg : now (reads p) + int64 (- forHowLong)
                 = now (reads p)
                   - (if forHowLong =? - 2 ^ 63 then 2 ^ 63 else forHowLong)).
  { destruct (forHowLong =? - 2 ^ 63) eqn:Hmin.
    - apply Z.eqb_eq in Hmin. subst forHowLong. reflexivity.
    - apply Z.eqb_neq in Hmin. rewrite int64_small by lia. lia. }
  rewrite Hneg.
  set (deadline := now (reads p)
                   - (if forHowLong =? - 2 ^ 63 then 2 ^ 63 else forHowLong)).
  assert (Hdl : deadline <= now (reads p) - forHowLong).
  { subst deadline. destruct (forHowLong =? - 2 ^ 63); lia. }
  destruct (stuckList_fold deadline order (∅, S (reads p)))
    as (Hn & Hin & Hout).
  cbn [fst snd] in *.
  set (res := fold_left _ order _) in *.
  split; [split|].
  - intros [d Hd]. destruct (Hout txid d Hd)
      as [Hempty|(rec & n & Hel & Hlt & _ & _)].
    + rewrite lookup_empty in Hempty. discriminate.
    + exists rec. rewrite Hperm in Hel. apply elem_of_map_to_list in Hel.
      split; [exact Hel|exact Hlt].
  - intros (rec & Hl & Hlt). apply (Hin txid rec); [|exact Hlt].
    rewrite Hperm. now apply elem_of_map_to_list.
  - intros d Hd. destruct (Hout txid d Hd)
      as [Hempty|(rec & n & Hel & Hlt & Hge & ->)].
    + rewrite lookup_empty in Hempty. discriminate.
    + specialize (Hmono (reads p) n ltac:(lia)).
      unfold Sub, maxDuration, minDuration. lia.
Qed.

Lemma turn_calls order p :
  snd (backgroundPullLoopTurn now order p)
  = match selected (now (reads p)) order with
    | [] => []
    | _ :: _ =>
        [if anyStuck now (S (reads p)) (selected (now (reads p)) order)
         then PullTransactionsFromAllPeers (selected (now (reads p)) order).*1
         else PullTransactionsFromRandomPeer (selected (now (reads p)) order).*1]
    end.
Proof.
  unfold backgroundPullLoopTurn, maturedPullList.
  set (m := fold_left _ _ _).
  assert (Hb : buf m = (selected (now (reads p)) order).*1).
  { subst m. now rewrite maturedBody_fold_buf. }
  assert (Hs : atLeastOneIsStuck m
               = anyStuck now (S (reads p)) (selected (now (reads p)) order)).
  { subst m. now rewrite maturedBody_fold_stuck. }
  cbn. rewrite Hb, Hs.
  destruct (selected (now (reads p)) order) as [|e sel']; [reflexivity|].
  cbn [fmap list_fmap length Nat.ltb Nat.leb].
  now destruct (anyStuck now (S (reads p)) (e :: sel')).
Qed.

(** X25. What the background loop sends, over any number of turns: pull
    requests only, never an empty one, never one that names a transaction
    twice, and only for transactions of the pull list. *)
Theorem backgroundPullLoop_calls (ws : list Wakeup) :
  forall p,
    rangesPullList now ws p ->
    Forall (fun c : Call =>
              match c with
              | PullTransactionsFromRandomPeer lst
              | PullTransactionsFromAllPeers lst =>
                  lst <> [] /\ NoDup lst
                  /\ forall txid : TransactionID,
                       txid ∈ lst -> is_Some (pullList p !! txid)
              | GoTransactionIn _ => False
              end)
      (snd (backgroundPullLoop now ws p)).
Proof.
  induction ws as [|[|order] ws IH]; intros p Hr; try (cbn; constructor).
  destruct Hr as [Hperm Hr].
  rewrite backgroundPullLoop_unfold. cbn [snd]. apply Forall_app. split.
  - rewrite turn_calls.
    assert (Hnd : NoDup (selected (now (reads p)) order).*1).
    { apply selected_NoDup. rewrite Hperm. apply NoDup_fst_map_to_list. }
    assert (Hin : forall txid : TransactionID,
               txid ∈ (selected (now (reads p)) order).*1 ->
               is_Some (pullList p !! txid)).
    { intros txid Hel. apply list_elem_of_fmap in Hel as ([t rec] & -> & Hel).
      apply elem_of_selected in Hel as [Hel _]. rewrite Hperm in Hel.
      apply elem_of_map_to_list in Hel. cbn [fst]. eauto. }
    destruct (selected (now (reads p)) order) as [|e sel'] eqn:Hsel;
      [constructor|].
    constructor; [|constructor].
    destruct (anyStuck now (S (reads p)) (e :: sel'));
      (split; [discriminate|split; assumption]).
  - specialize (IH _ Hr). eapply Forall_impl; [exact IH|].
    intros c Hc.
    assert (Hdom : forall txid : TransactionID,
               is_Some (pullList (fst (backgroundPullLoopTurn now order p))
                          !! txid) ->
               is_Some (pullList p !! txid)).
    { intros txid. rewrite (turn_lookup order p txid Hperm).
      now rewrite fmap_is_Some. }
    destruct c as [lst|lst|?]; [| |exact Hc];
      destruct Hc as (Hne & Hnd & Hin); (split; [exact Hne|]);
      (split; [exact Hnd|]); intros txid Hel; apply Hdom, Hin, Hel.
Qed.

(** X26. On a clock that does not run backwards, a turn that selects an
    entry already older than ten pull periods (5 s) when the turn starts
    sends the whole selection to all peers, in one call. *)
Theorem stuck_entry_pulls_from_all_peers order p
    (txid : TransactionID) (rec : pullRecord) :
  (forall n m : nat, (n <= m)%nat -> now n <= now m) ->
  (txid, rec) ∈ selected (now (reads p)) order ->
  pullPeriod * startPullingFromAllAfterNumRandomPulls
    < now (reads p) - start rec ->
  snd (backgroundPullLoopTurn now order p)
  = [PullTransactionsFromAllPeers (selected (now (reads p)) order).*1].
Proof.
  intros Hmono Hin Hold. rewrite turn_calls.
  assert (Hs : anyStuck now (S (reads p)) (selected (now (reads p)) order)
               = true).
  { apply anyStuck_spec. apply list_elem_of_lookup in Hin as [k Hk].
    exists k, txid, rec. split; [exact Hk|].
    specialize (Hmono (reads p) (S (reads p) + k)%nat ltac:(lia)). lia. }
  rewrite Hs.
  destruct (selected (now (reads p)) order) as [|e sel']; [inversion Hin|].
  reflexivity.
Qed.

End MorePullClient.

(** ** multistate: accounts and chains of a readable state *)

Section MoreReadable.
Import Peering Multistate.

Implicit Types (trie : gmap (list Z) (list Z)).

Lemma byte_small (n : Z) : 0 <= n < 256 -> byte n = n.
Proof. intros Hn. rewrite byte_mod. now apply Z.mod_small. Qed.

(** X14. Accounts do not see each other's index records: for account IDs of
    at most 255 bytes, a key of the index of one account starts with the
    prefix of another account only if the two accounts are the same. *)
Theorem account_prefixes_do_not_overlap (a b oid : list Z) :
  (length a <= 255)%nat ->
  (length b <= 255)%nat ->
  take (length (accountPrefixOf b)) (accountPrefixOf a ++ oid)
  = accountPrefixOf b ->
  a = b.
Proof.
  intros Ha Hb. unfold accountPrefixOf. cbn [app length take].
  rewrite !byte_small by lia.
  intros [= Hlen Htake].
  apply Nat2Z.inj in Hlen.
  rewrite <- Hlen, take_app_length in Htake. exact Htake.
Qed.

Lemma elem_of_keysWithPrefix trie (pfx k : list Z) :
  k ∈ keysWithPrefix trie pfx
  <-> is_Some (trie !! k) /\ take (length pfx) k = pfx.
Proof.
  unfold keysWithPrefix.
  rewrite list_elem_of_In, filter_In, <- list_elem_of_In.
  rewrite bool_decide_eq_true, list_elem_of_fmap. split.
  - intros [([k' v] & -> & Hel) Hp]. cbn [fst] in *.
    apply elem_of_map_to_list in Hel. eauto.
  - intros [[v Hv] Hp]. split; [|exact Hp].
    exists (k, v). split; [reflexivity|]. now apply elem_of_map_to_list.
Qed.

Lemma keysWithPrefix_NoDup trie (pfx : list Z) :
  NoDup (keysWithPrefix trie pfx).
Proof.
  unfold keysWithPrefix.
  apply NoDup_ListNoDup, List.NoDup_filter, NoDup_ListNoDup.
  apply NoDup_fst_map_to_list.
Qed.

Lemma collectIDs_wellformed (n : nat) (keys : list (list Z)) :
  Forall (fun k => length (drop n k) = OutputIDLength) keys ->
  forall ret, collectIDs n keys ret = Ok (ret ++ map (drop n) keys).
Proof.
  induction 1 as [|k keys Hk Hall IH]; intros ret; cbn [collectIDs map].
  - now rewrite app_nil_r.
  - unfold OutputIDFromBytes. rewrite Hk, Nat.eqb_refl.
    rewrite IH, <- app_assoc. reflexivity.
Qed.

Lemma collectIDs_malformed (n : nat) (keys : list (list Z)) :
  Exists (fun k => length (drop n k) <> OutputIDLength) keys ->
  forall ret, collectIDs n keys ret = Err "OutputIDFromBytes".
Proof.
  induction keys as [|k keys IH]; intros Hex ret; [inversion Hex|].
  cbn [collectIDs]. unfold OutputIDFromBytes.
  destruct (Nat.eqb (length (drop n k)) OutputIDLength) eqn:Hk;
    [|reflexivity].
  apply IH. apply Exists_cons in Hex as [Hbad|Hex]; [|exact Hex].
  apply Nat.eqb_eq in Hk. contradiction.
Qed.

(** X15. [GetIDsLockedInAccount] refuses an account ID of more than 255
    bytes. For a shorter one, if every index record of the account ends in
    an output ID of the right width, it returns the output IDs of these
    records, each once: an ID is returned exactly when the account prefix
    followed by it is a key of the state. If some record does not, it
    returns an error and no ID. *)
Theorem GetIDsLockedInAccount_cases trie (addr : list Z) :
  ((255 < length addr)%nat ->
   GetIDsLockedInAccount trie addr = Err "accountID length should be <= 255")
  /\ ((length addr <= 255)%nat ->
      ((forall k,
           k ∈ keysWithPrefix trie (accountPrefixOf addr) ->
           length k = (length (accountPrefixOf addr) + OutputIDLength)%nat) ->
       exists ids,
         GetIDsLockedInAccount trie addr = Ok ids
         /\ NoDup ids
         /\ Forall (fun id => length id = OutputIDLength) ids
         /\ forall id,
             id ∈ ids <-> is_Some (trie !! (accountPrefixOf addr ++ id)))
      /\ ((exists k,
              k ∈ keysWithPrefix trie (accountPrefixOf addr)
              /\ length k <> (length (accountPrefixOf addr) + OutputIDLength)%nat) ->
          GetIDsLockedInAccount trie addr = Err "OutputIDFromBytes")).
Proof.
  unfold GetIDsLockedInAccount. split.
  - intros Hlen. apply Nat.ltb_lt in Hlen. now rewrite Hlen.
  - intros Hlen. apply Nat.ltb_ge in Hlen. rewrite Hlen.
    set (pfx := accountPrefixOf addr). cbv zeta. split.
    + intros Hwf.
      assert (Hall : Forall (fun k => length (drop (length pfx) k)
                                      = OutputIDLength)
                       (keysWithPrefix trie pfx)).
      { apply Forall_forall. intros k Hk. rewrite length_drop.
        specialize (Hwf k Hk). lia. }
      rewrite (collectIDs_wellformed _ _ Hall). cbn [app].
      eexists. split; [reflexivity|].
      assert (Hsplit : forall k, k ∈ keysWithPrefix trie pfx ->
                                 k = pfx ++ drop (length pfx) k).
      { intros k Hk. apply elem_of_keysWithPrefix in Hk as [_ Hp].
        rewrite <- Hp at 1. now rewrite take_drop. }
      split; [|split].
      * apply NoDup_fmap_2_strong; [|apply keysWithPrefix_NoDup].
        intros k1 k2 H1 H2 Heq.
        rewrite (Hsplit k1 H1), (Hsplit k2 H2). now rewrite Heq.
      * apply Forall_fmap. exact Hall.
      * intros id. rewrite list_elem_of_fmap. split.
        -- intros (k & -> & Hk). rewrite <- (Hsplit k Hk).
           now apply elem_of_keysWithPrefix in Hk as [Hs _].
        -- intros Hs. exists (pfx ++ id). split.
           ++ now rewrite drop_app_length.
           ++ apply elem_of_keysWithPrefix. split; [exact Hs|].
              now rewrite take_app_length.
    + intros (k & Hk & Hbad). apply collectIDs_malformed.
      apply Exists_exists. exists k. split; [exact Hk|].
      rewrite length_drop.
      assert (length pfx <= length k)%nat.
      { apply elem_of_keysWithPrefix in Hk as [_ Hp].
        rewrite <- Hp at 1. rewrite length_take. lia. }
      lia.
Qed.

Lemma collectUTXOs_wellformed trie (n : nat) (keys : list (list Z)) :
  Forall (fun k => length (drop n k) = OutputIDLength) keys ->
  forall ret,
    collectUTXOs trie n keys ret
    = Ok (ret ++ omap (fun k =>
                         let oid := drop n k in
                         match trieGet trie (PartitionLedgerState :: oid) with
                         | [] => None
                         | b :: data => Some (oid, b :: data)
                         end) keys).
Proof.
  induction 1 as [|k keys Hk Hall IH]; intros ret; cbn [collectUTXOs omap].
  - now rewrite app_nil_r.
  - unfold OutputIDFromBytes. rewrite Hk, Nat.eqb_refl.
    unfold _getUTXO. cbv zeta. cbn [list_omap].
    destruct (trieGet trie (PartitionLedgerState :: drop n k)) as [|b data];
      cbn [length Nat.eqb negb].
    + apply IH.
    + rewrite IH, <- app_assoc. reflexivity.
Qed.

(** X16. [GetUTXOsLockedInAccount] returns the outputs of
    [GetIDsLockedInAccount] that are in the ledger state, in the same
    order, each with its bytes, and passes over the others in silence: on
    an account whose index records all end in an output ID, both succeed,
    and the outputs of the one are the IDs of the other without those that
    do not resolve. *)
Theorem GetUTXOsLockedInAccount_resolved trie (addr : list Z) :
  (length addr <= 255)%nat ->
  (forall k,
      k ∈ keysWithPrefix trie (accountPrefixOf addr) ->
      length k = (length (accountPrefixOf addr) + OutputIDLength)%nat) ->
  exists ids outs,
    GetIDsLockedInAccount trie addr = Ok ids
    /\ GetUTXOsLockedInAccount trie addr = Ok outs
    /\ outs.*1
       = List.filter
           (fun id => negb (Nat.eqb
                              (length (trieGet trie
                                         (PartitionLedgerState :: id))) 0))
           ids
    /\ Forall (fun o => snd o = trieGet trie (PartitionLedgerState :: fst o)
                        /\ snd o <> []) outs.
Proof.
  intros Hlen Hwf. apply Nat.ltb_ge in Hlen.
  unfold GetIDsLockedInAccount, GetUTXOsLockedInAccount. rewrite Hlen.
  set (pfx := accountPrefixOf addr) in *. cbv zeta.
  assert (Hall : Forall (fun k => length (drop (length pfx) k)
                                  = OutputIDLength)
                   (keysWithPrefix trie pfx)).
  { apply Forall_forall. intros k Hk. rewrite length_drop.
    specialize (Hwf k Hk). lia. }
  rewrite (collectIDs_wellformed _ _ Hall).
  rewrite (collectUTXOs_wellformed _ _ _ Hall). cbn [app].
  eexists _, _. split; [reflexivity|]. split; [reflexivity|].
  clear Hall Hwf. generalize (keysWithPrefix trie pfx) as keys.
  induction keys as [|k keys [IH1 IH2]]; [split; [reflexivity|constructor]|].
  cbn [omap list_omap map List.filter].
  destruct (trieGet trie (PartitionLedgerState :: drop (length pfx) k))
    as [|b data] eqn:Hget; cbn [length Nat.eqb negb].
  - split; assumption.
  - cbn [fmap list_fmap fst]. split.
    + f_equal. exact IH1.
    + constructor; [|exact IH2]. cbn [fst snd]. rewrite Hget.
      split; [reflexivity|discriminate].
Qed.

(** X17. [_getUTXOForChainID] returns an output exactly when the chain
    index has a record for the chain ID, the record is an output ID, and
    that output is in the ledger state; what it returns is that output ID
    with the bytes of the output, which are not empty. *)
Theorem getUTXOForChainID_found (ChainIDLength : nat) trie
    (id oid data : list Z) :
  _getUTXOForChainID ChainIDLength trie id = Ok (oid, data)
  <-> length id = ChainIDLength
      /\ trieGet trie (PartitionChainID :: id) = oid
      /\ length oid = OutputIDLength
      /\ trieGet trie (PartitionLedgerState :: oid) = data
      /\ data <> [].
Proof.
  unfold _getUTXOForChainID, OutputIDFromBytes, _getUTXO. split.
  - destruct (Nat.eqb (length id) ChainIDLength) eqn:Hid; [|discriminate].
    cbn [negb]. cbv zeta.
    destruct (Nat.eqb (length (trieGet trie (PartitionChainID :: id))) 0);
      [discriminate|].
    destruct (Nat.eqb (length (trieGet trie (PartitionChainID :: id)))
                OutputIDLength) eqn:Hoid; [|discriminate].
    destruct (trieGet trie
                (PartitionLedgerState :: trieGet trie (PartitionChainID :: id)))
      as [|b d] eqn:Hget; cbn [length Nat.eqb negb]; [discriminate|].
    intros [= <- <-]. apply Nat.eqb_eq in Hid, Hoid.
    repeat split; try assumption. discriminate.
  - intros (Hid & Hrec & Hoid & Hget & Hne).
    apply Nat.eqb_eq in Hid. rewrite Hid. cbn [negb]. cbv zeta.
    rewrite Hrec.
    assert (H0 : Nat.eqb (length oid) 0 = false).
    { apply Nat.eqb_neq. rewrite Hoid. unfold OutputIDLength. lia. }
    apply Nat.eqb_eq in Hoid. rewrite H0, Hoid, Hget.
    destruct data as [|b d]; [contradiction|reflexivity].
Qed.

End MoreReadable.

(** ** multistate: [GetStem] by the number of stem records *)

Section MoreGetStem.
Import Peering Multistate.

Variable OutputID_Slot : list Z -> Z.
Variable StemAccountID : list Z.

Implicit Types (trie : gmap (list Z) (list Z)).

(** X27. On a state with exactly one index record under the stem account,
    [GetStem] returns the slot of the output ID of that record and the bytes
    of the output, and panics when the output is not in the ledger state. *)
Theorem GetStem_of_the_one_stem_record trie (oid : list Z) :
  is_Some (trie !! (stemAccountPrefix StemAccountID ++ oid)) ->
  (forall k,
      is_Some (trie !! k) ->
      take (length (stemAccountPrefix StemAccountID)) k
      = stemAccountPrefix StemAccountID ->
      k = stemAccountPrefix StemAccountID ++ oid) ->
  length oid = OutputIDLength ->
  GetStem OutputID_Slot StemAccountID trie
  = match trieGet trie (PartitionLedgerState :: oid) with
    | [] => Panic "can't find stem output"
    | b :: data => Ok (OutputID_Slot oid, b :: data)
    end.
Proof.
  intros Hsome Huniq Hlen.
  assert (Hk : keysWithPrefix trie (stemAccountPrefix StemAccountID)
               = [stemAccountPrefix StemAccountID ++ oid]).
  { apply keysWithPrefix_unique; try assumption. now rewrite take_app_length. }
  unfold GetStem. cbv zeta. rewrite Hk.
  cbn [IterateKeys GetStemBody count Z.eqb negb].
  rewrite drop_app_length. unfold OutputIDFromBytes, _getUTXO.
  rewrite Hlen, Nat.eqb_refl.
  now destruct (trieGet trie (PartitionLedgerState :: oid)).
Qed.

(** X28. On a state with two index records or more under the stem account
    [GetStem] panics. *)
Theorem GetStem_panics_on_two_stem_records trie (k1 k2 : list Z) :
  k1 <> k2 ->
  is_Some (trie !! k1) ->
  take (length (stemAccountPrefix StemAccountID)) k1
  = stemAccountPrefix StemAccountID ->
  is_Some (trie !! k2) ->
  take (length (stemAccountPrefix StemAccountID)) k2
  = stemAccountPrefix StemAccountID ->
  exists msg, GetStem OutputID_Slot StemAccountID trie = Panic msg.
Proof.
  intros Hne Hs1 Hp1 Hs2 Hp2.
  assert (H1 : k1 ∈ keysWithPrefix trie (stemAccountPrefix StemAccountID))
    by now apply elem_of_keysWithPrefix.
  assert (H2 : k2 ∈ keysWithPrefix trie (stemAccountPrefix StemAccountID))
    by now apply elem_of_keysWithPrefix.
  destruct (keysWithPrefix trie (stemAccountPrefix StemAccountID))
    as [|a [|b keys]] eqn:Hk.
  - inversion H1.
  - apply list_elem_of_singleton in H1, H2. congruence.
  - exact (GetStem_two_records OutputID_Slot StemAccountID trie a b keys Hk).
Qed.

End MoreGetStem.

(** ** multistate: what an update leaves alone, and chains of updates *)

Section MoreUpdatable.
Import Peering Multistate.

Variable OutputID_Slot : list Z -> Z.
Variable TrieUpdatable : Type.
Variable trieCommit : TrieUpdatable -> list (list Z * list Z) * list Z.
Variable NewTrieUpdatable :
  gmap (list Z) (list Z) -> list Z -> TrieUpdatable * option string.
Variable Mutations : Type.
Variable UpdateTrie : TrieUpdatable -> Mutations -> TrieUpdatable * option string.
Variable rootRecordKey : list Z -> list Z.
Variable latestSlotKey : list Z.
Variable RootRecord_Bytes : RootRecord -> list Z.

Abbreviation Update' :=
  (Update OutputID_Slot trieCommit NewTrieUpdatable UpdateTrie
     rootRecordKey latestSlotKey RootRecord_Bytes).
Abbreviation Updates' :=
  (Updates OutputID_Slot trieCommit NewTrieUpdatable UpdateTrie
     rootRecordKey latestSlotKey RootRecord_Bytes).
Abbreviation Fetch' := (FetchLatestCommittedSlot latestSlotKey).
Abbreviation staged' :=
  (stagedWrites OutputID_Slot trieCommit UpdateTrie
     rootRecordKey latestSlotKey RootRecord_Bytes).

(** X18. An update changes nothing in the store but what it stages: a key
    that is not written by the trie delta, is not the latest-slot key and is
    not the key of the root record of this branch reads the same after
    [Update] as before, whatever the outcome. The root records of other
    branches are such keys. *)
Theorem Update_leaves_other_keys muts rootRecordParams commitErr
    (u : @Updatable TrieUpdatable) (k : list Z) :
  (forall kv,
      kv ∈ fst (trieCommit (fst (UpdateTrie (trie u) muts))) -> fst kv <> k) ->
  k <> latestSlotKey ->
  (forall par,
      rootRecordParams = Some par ->
      rootRecordKey (OutputID_TransactionID (StemOutputID par)) <> k) ->
  storeGet (store (fst (Update' muts rootRecordParams commitErr u))) k
  = storeGet (store u) k.
Proof.
  intros Hdelta Hslot Hrr. rewrite Update_store.
  destruct (snd (UpdateTrie (trie u) muts)); [reflexivity|].
  destruct commitErr; [reflexivity|].
  apply storeGet_applyBatch_other. intros kv Hin.
  unfold Multistate.stagedWrites in Hin.
  apply elem_of_app in Hin as [Hin|Hin]; [now apply Hdelta|].
  destruct rootRecordParams as [par|]; [|inversion Hin].
  apply elem_of_app in Hin as [Hin|Hin].
  - destruct (_ <? _) in Hin; [|inversion Hin].
    apply list_elem_of_singleton in Hin. subst kv. cbn [fst]. congruence.
  - apply list_elem_of_singleton in Hin. subst kv. cbn [fst].
    now apply Hrr.
Qed.

(** X19. Over a chain of updates of one [Updatable] the latest committed
    slot never goes down, where no trie writes to the latest-slot key, no
    root record is stored under it, and the slots of the branches are
    32-bit numbers. *)
Theorem Updates_latest_slot_monotone
    (steps : list (Mutations * option RootRecordParams * option string)) :
  (forall t kv, kv ∈ fst (trieCommit t) -> fst kv <> latestSlotKey) ->
  (forall txid, rootRecordKey txid <> latestSlotKey) ->
  Forall (fun step =>
            forall par, snd (fst step) = Some par ->
                        0 <= OutputID_Slot (StemOutputID par) < 2 ^ 32) steps ->
  forall u : @Updatable TrieUpdatable,
    Fetch' (store u) <= Fetch' (store (Updates' steps u)).
Proof.
  intros Hdelta Hrr Hslots.
  induction Hslots as [|[[muts par] commitErr] steps Hstep Hslots IH];
    intros u; cbn [Updates]; [lia|].
  specialize (IH (fst (Update' muts par commitErr u))).
  cbn [fst snd] in Hstep.
  assert (Hone : Fetch' (store u)
                 <= Fetch' (store (fst (Update' muts par commitErr u)))).
  { rewrite Update_store.
    destruct (snd (UpdateTrie (trie u) muts)); [lia|].
    destruct commitErr; [lia|].
    rewrite FetchLatestCommittedSlot_applyBatch.
    - destruct par as [par|]; [|lia].
      destruct (Fetch' (store u) <? OutputID_Slot (StemOutputID par)) eqn:Hlt;
        [|lia].
      apply Z.ltb_lt in Hlt. lia.
    - intros kv Hin. exact (Hdelta _ kv Hin).
    - intros par' ->. split; [apply Hrr|now apply Hstep]. }
  lia.
Qed.

End MoreUpdatable.

(** ** Flags, once more *)

Section MoreFlags.

Lemma FlagsUp_bits (f fl : Z) :
  Vertex.FlagsUp f fl = true
  <-> forall i, Z.testbit fl i = true -> Z.testbit f i = true.
Proof.
  unfold Vertex.FlagsUp. rewrite Z.eqb_eq. split.
  - intros Heq i Hi. rewrite <- Heq, Z.land_spec in Hi.
    now apply andb_true_iff in Hi as [? _].
  - intros Hall. apply Z.bits_inj'. intros i _. rewrite Z.land_spec.
    destruct (Z.testbit fl i) eqn:Hi.
    + now rewrite (Hall i Hi).
    + apply andb_false_r.
Qed.

(** X20. Several flags are up exactly when each of them is: for the vertex
    flags and for the attacher flags, [FlagsUp (a | b)] is [FlagsUp a] and
    [FlagsUp b]. *)
Theorem FlagsUp_of_union (f a b : Z) :
  Vertex.FlagsUp f (Z.lor a b) = Vertex.FlagsUp f a && Vertex.FlagsUp f b
  /\ Attacher.FlagsUp f (Z.lor a b)
     = Attacher.FlagsUp f a && Attacher.FlagsUp f b.
Proof.
  assert (Hv : Vertex.FlagsUp f (Z.lor a b)
               = Vertex.FlagsUp f a && Vertex.FlagsUp f b).
  { apply eq_true_iff_eq. rewrite andb_true_iff, !FlagsUp_bits. split.
    - intros Hall. split; intros i Hi; apply Hall; rewrite Z.lor_spec, Hi;
        [reflexivity|apply orb_true_r].
    - intros [Ha Hb] i Hi. rewrite Z.lor_spec in Hi.
      apply orb_true_iff in Hi as [Hi|Hi]; [now apply Ha|now apply Hb]. }
  split; exact Hv.
Qed.

(** X21. Raising one of the vertex flags [Defined], [ConstraintsValid],
    [TxBytesPersisted] with [SetFlagsUp] leaves the other two as they
    are. *)
Theorem raising_a_flag_leaves_the_others (f a b : Z) :
  In a [Vertex.FlagVertexDefined; Vertex.FlagVertexConstraintsValid;
        Vertex.FlagVertexTxBytesPersisted] ->
  In b [Vertex.FlagVertexDefined; Vertex.FlagVertexConstraintsValid;
        Vertex.FlagVertexTxBytesPersisted] ->
  a <> b ->
  Vertex.FlagsUp (Vertex.SetFlagsUp f a) b = Vertex.FlagsUp f b.
Proof.
  intros Ha Hb Hne.
  assert (Hdis : Z.land a b = 0).
  { cbn [In] in Ha, Hb.
    destruct Ha as [<-|[<-|[<-|[]]]]; destruct Hb as [<-|[<-|[<-|[]]]];
      try reflexivity; contradiction. }
  unfold Vertex.SetFlagsUp. apply eq_true_iff_eq. rewrite !FlagsUp_bits.
  assert (Hbit : forall i, Z.testbit b i = true -> Z.testbit a i = false).
  { intros i Hi.
    assert (Hz : Z.testbit (Z.land a b) i = false)
      by (rewrite Hdis; apply Z.bits_0).
    rewrite Z.land_spec, Hi, andb_true_r in Hz. exact Hz. }
  split; intros Hall i Hi.
  - specialize (Hall i Hi). rewrite Z.lor_spec, (Hbit i Hi) in Hall.
    now rewrite orb_false_r in Hall.
  - rewrite Z.lor_spec, (Hall i Hi). reflexivity.
Qed.

End MoreFlags.

(** ** Pruner: the counts of a sweep *)

Section MorePruner.
Import Pruner.

Context {WrappedTx : Type}.
Variable DoPruningIfRelevant : WrappedTx -> bool * bool * Z.

Abbreviation marked := (fun vid : WrappedTx => fst (fst (DoPruningIfRelevant vid))).
Abbreviation unreferenced :=
  (fun vid : WrappedTx => snd (fst (DoPruningIfRelevant vid))).
Abbreviation inSlot :=
  (fun (i : nat) (vid : WrappedTx) =>
     Nat.eqb (refSlot (snd (DoPruningIfRelevant vid))) i).

Lemma countIf_cons (test : WrappedTx -> bool) (vid : WrappedTx)
    (vertices : list WrappedTx) :
  countIf test (vid :: vertices)
  = (if test vid then 1 else 0) + countIf test vertices.
Proof.
  unfold countIf. cbn [List.filter]. destruct (test vid); cbn [length]; lia.
Qed.

Lemma countIf_bounds (test : WrappedTx -> bool) (vertices : list WrappedTx) :
  0 <= countIf test vertices <= Z.of_nat (length vertices).
Proof.
  induction vertices as [|vid vertices IH]; [unfold countIf; cbn; lia|].
  rewrite countIf_cons. cbn [length]. destruct (test vid); lia.
Qed.

Lemma pruneBody_fold (vertices : list WrappedTx) :
  forall (m u r0 r1 r2 r3 r4 r5 : Z) (td : list WrappedTx),
    Forall (fun vid => 0 <= snd (DoPruningIfRelevant vid)) vertices ->
    0 <= m -> 0 <= u ->
    0 <= r0 -> 0 <= r1 -> 0 <= r2 -> 0 <= r3 -> 0 <= r4 -> 0 <= r5 ->
    m + Z.of_nat (length vertices) < 2 ^ 63 ->
    u + Z.of_nat (length vertices) < 2 ^ 63 ->
    r0 + Z.of_nat (length vertices) < 2 ^ 32 ->
    r1 + Z.of_nat (length vertices) < 2 ^ 32 ->
    r2 + Z.of_nat (length vertices) < 2 ^ 32 ->
    r3 + Z.of_nat (length vertices) < 2 ^ 32 ->
    r4 + Z.of_nat (length vertices) < 2 ^ 32 ->
    r5 + Z.of_nat (length vertices) < 2 ^ 32 ->
    fold_left (pruneBody DoPruningIfRelevant) vertices
      (mkPruned m u [r0; r1; r2; r3; r4; r5] td)
    = mkPruned
        (m + countIf marked vertices)
        (u + countIf unreferenced vertices)
        [r0 + countIf (inSlot 0%nat) vertices; r1 + countIf (inSlot 1%nat) vertices;
         r2 + countIf (inSlot 2%nat) vertices; r3 + countIf (inSlot 3%nat) vertices;
         r4 + countIf (inSlot 4%nat) vertices; r5 + countIf (inSlot 5%nat) vertices]
        (td ++ List.filter marked vertices).
Proof.
  induction vertices as [|vid vertices IH];
    intros m u r0 r1 r2 r3 r4 r5 td Hn Hm Hu H0 H1 H2 H3 H4 H5
           Bm Bu B0 B1 B2 B3 B4 B5.
  - cbn [fold_left List.filter]. unfold countIf. cbn [List.filter length].
    rewrite app_nil_r, !Z.add_0_r. reflexivity.
  - apply Forall_cons in Hn as [Hv Hn]. cbn [length] in *.
    cbn [fold_left]. rewrite !countIf_cons. cbn [List.filter].
    unfold pruneBody at 2.
    cbn [markedForDeletionCount unreferencedPastConeCount refStats toDelete
         length].
    destruct (DoPruningIfRelevant vid) as [[mk un] n] eqn:Hdo.
    cbn [fst snd] in Hv |- *.
    change (Z.of_nat 6 - 1) with 5.
    assert (Hslot : (if n <? 5 then Z.to_nat n else (6 - 1)%nat) = refSlot n)
      by reflexivity.
    rewrite Hslot.
    assert (Hcases : refSlot n = 0%nat \/ refSlot n = 1%nat \/ refSlot n = 2%nat
                     \/ refSlot n = 3%nat \/ refSlot n = 4%nat
                     \/ refSlot n = 5%nat).
    { unfold refSlot. destruct (n <? 5) eqn:Hlt; [|auto 10].
      apply Z.ltb_lt in Hlt. lia. }
    assert (Hi64 : forall x, 0 <= x -> x + 1 < 2 ^ 63 -> int64 (x + 1) = x + 1)
      by (intros; apply int64_small; lia).
    assert (Hu32 : forall x, 0 <= x -> x + 1 < 2 ^ 32 -> uint32 (x + 1) = x + 1)
      by (intros; unfold uint32; apply Z.mod_small; lia).
    destruct Hcases as [Hs|[Hs|[Hs|[Hs|[Hs|Hs]]]]]; rewrite Hs;
      cbn [nth Nat.eqb]; cbv [insert list_insert];
      rewrite Hu32 by lia;
      destruct mk, un; rewrite ?Hi64 by lia;
      rewrite IH by (first [assumption | lia]);
      rewrite <- ?app_assoc; cbn [app];
      f_equal; first [lia | repeat (f_equal; try lia)].
Qed.

Lemma slots_partition (vertices : list WrappedTx) :
  countIf (inSlot 0%nat) vertices + countIf (inSlot 1%nat) vertices
  + countIf (inSlot 2%nat) vertices + countIf (inSlot 3%nat) vertices
  + countIf (inSlot 4%nat) vertices + countIf (inSlot 5%nat) vertices
  = Z.of_nat (length vertices).
Proof.
  induction vertices as [|vid vertices IH]; [reflexivity|].
  rewrite !countIf_cons. cbn [length].
  assert (Hcases : refSlot (snd (DoPruningIfRelevant vid)) = 0%nat
                   \/ refSlot (snd (DoPruningIfRelevant vid)) = 1%nat
                   \/ refSlot (snd (DoPruningIfRelevant vid)) = 2%nat
                   \/ refSlot (snd (DoPruningIfRelevant vid)) = 3%nat
                   \/ refSlot (snd (DoPruningIfRelevant vid)) = 4%nat
                   \/ refSlot (snd (DoPruningIfRelevant vid)) = 5%nat).
  { unfold refSlot. destruct (snd (DoPruningIfRelevant vid) <? 5) eqn:Hlt;
      [|auto 10].
    apply Z.ltb_lt in Hlt. lia. }
  destruct Hcases as [Hs|[Hs|[Hs|[Hs|[Hs|Hs]]]]]; rewrite Hs;
    cbn [Nat.eqb]; lia.
Qed.

(** X22. The counts of a pruner sweep over fewer than 2^32 vertices:
    [toDelete], which goes to [PurgeDeletedVertices], is the vertices marked
    for deletion, in order; [markedForDeletionCount] is its length;
    [unreferencedPastConeCount] counts the vertices whose past cone was
    unreferenced; slot [i] of [refStats] counts the vertices with [i]
    references for [i] from 0 to 4 and slot 5 those with five or more; and
    the six slots add up to the number of vertices. *)
Theorem pruneVertices_counts (vertices : list WrappedTx) :
  Z.of_nat (length vertices) < 2 ^ 32 ->
  Forall (fun vid => 0 <= snd (DoPruningIfRelevant vid)) vertices ->
  toDelete (pruneVertices DoPruningIfRelevant vertices)
  = List.filter marked vertices
  /\ markedForDeletionCount (pruneVertices DoPruningIfRelevant vertices)
     = Z.of_nat (length (toDelete (pruneVertices DoPruningIfRelevant vertices)))
  /\ unreferencedPastConeCount (pruneVertices DoPruningIfRelevant vertices)
     = countIf unreferenced vertices
  /\ refStats (pruneVertices DoPruningIfRelevant vertices)
     = [countIf (inSlot 0%nat) vertices; countIf (inSlot 1%nat) vertices;
        countIf (inSlot 2%nat) vertices; countIf (inSlot 3%nat) vertices;
        countIf (inSlot 4%nat) vertices; countIf (inSlot 5%nat) vertices]
  /\ Peering.Zsum (refStats (pruneVertices DoPruningIfRelevant vertices))
     = Z.of_nat (length vertices).
Proof.
  intros Hlen Hn. unfold pruneVertices.
  rewrite pruneBody_fold by (first [assumption | lia]).
  cbn [toDelete markedForDeletionCount unreferencedPastConeCount refStats app].
  rewrite !Z.add_0_l.
  split; [reflexivity|]. split; [reflexivity|]. split; [reflexivity|].
  split; [reflexivity|].
  unfold Peering.Zsum. cbn [fold_right].
  pose proof (slots_partition vertices). lia.
Qed.

End MorePruner.

(** ** Workflow: the portions of [SendTx] *)

Section MoreSendTx.
Import Workflow.

Context {TransactionID PeerID : Type}.

(** X23. [SendTx] pushes one input per transaction ID, in order, each for
    the peer that asked. For up to 2^16 IDs the input of the [i]-th has
    [Index = i] and [LastIndex] one less than the number of IDs, so that the
    last input, and no other, has [Index = LastIndex]; for no ID nothing is
    pushed. *)
Theorem SendTx_portions (sendTo : PeerID) (txids : list TransactionID) :
  Z.of_nat (length txids) <= 2 ^ 16 ->
  length (SendTx sendTo txids) = length txids
  /\ forall (i : nat) (inp : PullTxServerInput),
       SendTx sendTo txids !! i = Some inp ->
       txids !! i = Some (TxID inp)
       /\ PeerID_ inp = sendTo
       /\ Index inp = Z.of_nat i
       /\ LastIndex inp = Z.of_nat (length txids) - 1
       /\ (Index inp = LastIndex inp <-> S i = length txids).
Proof.
  intros Hlen. unfold SendTx. split; [apply length_imap|].
  intros i inp Hi. rewrite list_lookup_imap in Hi.
  destruct (txids !! i) as [txid|] eqn:Htx; [|discriminate].
  pose proof (lookup_lt_Some _ _ _ Htx) as Hlt.
  cbn in Hi. injection Hi as <-.
  cbn [TxID PeerID_ Index LastIndex].
  assert (Hi16 : uint16 (Z.of_nat i) = Z.of_nat i)
    by (unfold uint16; apply Z.mod_small; lia).
  assert (Hl16 : uint16 (Z.of_nat (length txids) - 1)
                 = Z.of_nat (length txids) - 1)
    by (unfold uint16; apply Z.mod_small; lia).
  rewrite Hi16, Hl16. repeat split; lia.
Qed.

End MoreSendTx.

(** ** Pull client: what [transactionIn] hands to the workflow *)

Section MoreTransactionIn.
Import PullClient.

Context {TransactionMetadata : Type}.
Variable emptyMetadata : TransactionMetadata.
Variable setSourceTypeTxStore : TransactionMetadata -> TransactionMetadata.
Variable SplitTxBytesWithMetadata : list Z -> option (list Z * list Z).
Variable TransactionMetadataFromBytes :
  list Z -> option (option TransactionMetadata).
Variable TxBytesWithMetadataInFails : list Z -> TransactionMetadata -> bool.

(** X24. [transactionIn] calls the workflow input at most once, and only
    with bytes and metadata that the two parsers gave it, the metadata
    marked as coming from the tx-bytes store (the empty metadata when the
    parser returned none); bytes that do not parse are logged and go
    nowhere. *)
Theorem transactionIn_calls (data : list Z) :
  (length (List.filter
             (fun e => match e with
                       | TxBytesWithMetadataIn _ _ => true
                       | LogErrorf => false
                       end)
             (transactionIn emptyMetadata setSourceTypeTxStore
                SplitTxBytesWithMetadata TransactionMetadataFromBytes
                TxBytesWithMetadataInFails data)) <= 1)%nat
  /\ (forall txBytes metadata,
         In (TxBytesWithMetadataIn txBytes metadata)
            (transactionIn emptyMetadata setSourceTypeTxStore
               SplitTxBytesWithMetadata TransactionMetadataFromBytes
               TxBytesWithMetadataInFails data)
         <-> exists metadataBytes parsed,
               SplitTxBytesWithMetadata data = Some (metadataBytes, txBytes)
               /\ TransactionMetadataFromBytes metadataBytes = Some parsed
               /\ metadata
                  = setSourceTypeTxStore (default emptyMetadata parsed)).
Proof.
  unfold transactionIn.
  destruct (SplitTxBytesWithMetadata data) as [[mdBytes txBytes0]|].
  - destruct (TransactionMetadataFromBytes mdBytes) as [parsed|] eqn:Hmd.
    + assert (Hmeta : match parsed with
                      | Some md => md
                      | None => emptyMetadata
                      end = default emptyMetadata parsed)
        by (destruct parsed; reflexivity).
      cbv zeta. rewrite Hmeta.
      destruct (TxBytesWithMetadataInFails txBytes0 _); cbn [List.filter length In];
        (split; [lia|]); intros txBytes metadata; split.
      * intros [[= <- <-]|[Hf|[]]]; [eauto|discriminate].
      * intros (mb & pr & [= <- <-] & Hp & ->).
        rewrite Hmd in Hp. injection Hp as <-. now left.
      * intros [[= <- <-]|[]]. eauto.
      * intros (mb & pr & [= <- <-] & Hp & ->).
        rewrite Hmd in Hp. injection Hp as <-. now left.
    + cbn [List.filter length In]. split; [lia|]. intros txBytes metadata.
      split; [intros [Hf|[]]; discriminate|].
      intros (mb & pr & [= <- <-] & Hp & _). congruence.
  - cbn [List.filter length In]. split; [lia|]. intros txBytes metadata.
    split; [intros [Hf|[]]; discriminate|].
    intros (mb & pr & Hs & _). discriminate.
Qed.

End MoreTransactionIn.

(** ** Instances of the properties above *)

Lemma decodePeerMessageTxBytes_encode_instance :
  Peering.encodePeerMessageTxBytes 4 [10; 20] = Peering.Ok [4; 0; 2; 10; 20].
Proof.
  refine (proj1 (decodePeerMessageTxBytes_encode 4 [4; 0; 2; 10; 20] [10; 20]
                   _ _) _).
  - repeat (constructor; [unfold is_byte; lia|]). constructor.
  - reflexivity.
  - unfold Peering.MaxUint16. cbn [length]. lia.
Defined.

Lemma heartbeat_decode_encode_instance :
  exists hi,
    Peering.heartbeatInfoFromBytes [0; 0; 0; 0; 59; 154; 202; 0; 255] = inl hi
    /\ Peering.clock_representable (Peering.clock hi)
    /\ Peering.Bytes hi = [0; 0; 0; 0; 59; 154; 202; 0; 17].
Proof.
  refine (heartbeat_decode_encode [0; 0; 0; 0; 59; 154; 202; 0; 255]
            eq_refl _).
  repeat (constructor; [unfold is_byte; lia|]). constructor.
Defined.

Lemma cleanBlacklist_keeps_unexpired_instance :
  [(1, 50)] ≡ₚ map_to_list Samples.blacklist
  /\ Peering.cleanBlacklist 60 [(1, 50)] Samples.blacklist !! 1 = None
  /\ Peering.cleanBlacklist 50 [(1, 50)] Samples.blacklist !! 1 = Some 50.
Proof.
  assert (Hperm : [(1, 50)] ≡ₚ map_to_list Samples.blacklist).
  { unfold Samples.blacklist. now rewrite map_to_list_singleton. }
  split; [exact Hperm|]. split.
  - exact (cleanBlacklist_keeps_unexpired 60 [(1, 50)] Samples.blacklist
             Hperm 1).
  - exact (cleanBlacklist_keeps_unexpired 50 [(1, 50)] Samples.blacklist
             Hperm 1).
Defined.

Lemma blacklisted_until_deadline_instance :
  Peering.isInBlacklist
    (Peering.cleanBlacklist 150 [(1, 150)]
       (Peering.addToBlacklist 100 (∅ : gmap Z Z) 1 50)) 1
  = true.
Proof.
  refine (blacklisted_until_deadline 100 50 150 [(1, 150)] ∅ 1 _).
  unfold Peering.addToBlacklist. rewrite insert_empty.
  now rewrite map_to_list_singleton.
Defined.

Lemma clockDifferences_are_the_last_ten_instance :
  exists p',
    Peering.evidenceClockDifferences Samples.diffs Samples.ringBuffer
    = Peering.Ok p'
    /\ Peering.wf_ClockDifferences p'
    /\ Peering.clockDifferences p' ≡ₚ [3; 4; 5; 6; 7; 8; 9; 10; 11; 12].
Proof.
  refine (clockDifferences_are_the_last_ten Samples.diffs Samples.ringBuffer
            _ _).
  - split; [reflexivity|]. cbn [Samples.ringBuffer Peering.clockDifferencesIdx].
    lia.
  - cbn [Samples.diffs length]. lia.
Defined.

Lemma avgClockDifference_of_last_ten_instance :
  exists p',
    Peering.evidenceClockDifferences Samples.diffs Samples.ringBuffer
    = Peering.Ok p'
    /\ Peering.avgClockDifference p' = 7
    /\ (Peering.hasTooBigClockDiff p' = true
        <-> 10 * Peering.clockTolerance + 10 <= 75).
Proof.
  refine (avgClockDifference_of_last_ten Samples.diffs Samples.ringBuffer
            _ _ _).
  - split; [reflexivity|]. cbn [Samples.ringBuffer Peering.clockDifferencesIdx].
    lia.
  - cbn [Samples.diffs length]. lia.
  - change (Forall (fun d => - 2 ^ 59 <= d <= 2 ^ 59)
              [3; 4; 5; 6; 7; 8; 9; 10; 11; 12]).
    repeat (constructor; [lia|]). constructor.
Defined.

Lemma stop_undoes_start_instance :
  PullClient.consume Samples.clockReadings Samples.emptyTxBytesStore
    Samples.pullState (PullClient.mkInput 8 true)
  = (Samples.pullState, [])
  /\ PullClient.pullList
       (fst (PullClient.consume Samples.clockReadings Samples.emptyTxBytesStore
               (fst (PullClient.consume Samples.clockReadings
                       Samples.emptyTxBytesStore Samples.pullState
                       (PullClient.mkInput 8 false)))
               (PullClient.mkInput 8 true)))
     = PullClient.pullList Samples.pullState.
Proof.
  destruct (stop_undoes_start Samples.clockReadings Samples.emptyTxBytesStore
              Samples.pullState 8 eq_refl) as (Hstop & Hlist & _).
  split; [exact Hstop|exact Hlist].
Defined.

Lemma backgroundPullLoop_keeps_entries_instance :
  exists rec',
    PullClient.pullList
      (fst (PullClient.backgroundPullLoop Samples.clockReadings
              [PullClient.AfterPullLoopPeriod Samples.pullOrder;
               PullClient.CtxDone]
              Samples.pullState)) !! 7
    = Some rec'
    /\ PullClient.start rec' = 0
    /\ 100 <= PullClient.nextDeadline rec'.
Proof.
  assert (Hr : PullClient.rangesPullList Samples.clockReadings
                 [PullClient.AfterPullLoopPeriod Samples.pullOrder;
                  PullClient.CtxDone]
                 Samples.pullState).
  { split; [|exact I].
    unfold Samples.pullOrder, Samples.pullState. cbn [PullClient.pullList].
    now rewrite map_to_list_singleton. }
  pose proof (backgroundPullLoop_keeps_entries Samples.clockReadings
                [PullClient.AfterPullLoopPeriod Samples.pullOrder;
                 PullClient.CtxDone]
                Samples.pullState Hr 7) as Hkeep.
  change (PullClient.pullList Samples.pullState !! 7)
    with (Some (PullClient.mkPullRecord 0 100)) in Hkeep.
  destruct (PullClient.pullList _ !! 7) as [rec'|]; [|destruct Hkeep].
  exists rec'. split; [reflexivity|exact Hkeep].
Defined.

Lemma not_selected_again_within_pullPeriod_instance :
  7 ∉ (PullClient.selected
         (Samples.clockReadings
            (PullClient.reads
               (fst (PullClient.backgroundPullLoopTurn Samples.clockReadings
                       Samples.pullOrder Samples.pullState))))
         [(7, PullClient.mkPullRecord 0 6500000000)]).*1.
Proof.
  refine (not_selected_again_within_pullPeriod Samples.clockReadings
            Samples.pullOrder [(7, PullClient.mkPullRecord 0 6500000000)]
            Samples.pullState 7 (PullClient.mkPullRecord 0 100) _ _ _ _).
  - unfold Samples.pullOrder, Samples.pullState. cbn [PullClient.pullList].
    now rewrite map_to_list_singleton.
  - assert (Hl : PullClient.pullList
                   (fst (PullClient.backgroundPullLoopTurn
                           Samples.clockReadings Samples.pullOrder
                           Samples.pullState))
                 = {[ 7 := PullClient.mkPullRecord 0 6500000000 ]})
      by (vm_compute; reflexivity).
    rewrite Hl. now rewrite map_to_list_singleton.
  - vm_compute. discriminate.
  - left.
Defined.

Lemma stuckList_reports_the_stuck_instance :
  PullClient.pullList
    (fst (PullClient.stuckList Samples.clockReadings 1000 Samples.pullOrder
            Samples.pullState))
  = PullClient.pullList Samples.pullState
  /\ forall d,
       snd (PullClient.stuckList Samples.clockReadings 1000 Samples.pullOrder
              Samples.pullState) !! 7 = Some d ->
       1000 < d.
Proof.
  assert (Hperm : Samples.pullOrder
                  ≡ₚ map_to_list (PullClient.pullList Samples.pullState)).
  { unfold Samples.pullOrder, Samples.pullState. cbn [PullClient.pullList].
    now rewrite map_to_list_singleton. }
  assert (Hrange : - 2 ^ 63 <= 1000 < 2 ^ 63) by lia.
  assert (Hmono : forall n m : nat,
             (n <= m)%nat -> Samples.clockReadings n <= Samples.clockReadings m).
  { intros n m Hnm. unfold Samples.clockReadings. lia. }
  destruct (stuckList_reports_the_stuck Samples.clockReadings 1000
              Samples.pullOrder Samples.pullState Hperm Hrange Hmono)
    as [Hlist Hall].
  split; [exact Hlist|].
  intros d Hd. destruct (proj2 (Hall 7) d Hd) as (_ & _ & Hlt).
  apply Hlt. lia.
Defined.

Lemma backgroundPullLoop_calls_instance :
  Forall (fun c : PullClient.Call =>
            match c with
            | PullClient.PullTransactionsFromRandomPeer lst
            | PullClient.PullTransactionsFromAllPeers lst =>
                lst <> [] /\ NoDup lst
                /\ forall txid : Z,
                     txid ∈ lst ->
                     is_Some (PullClient.pullList Samples.pullState !! txid)
            | PullClient.GoTransactionIn _ => False
            end)
    (snd (PullClient.backgroundPullLoop Samples.clockReadings
            [PullClient.AfterPullLoopPeriod Samples.pullOrder;
             PullClient.CtxDone]
            Samples.pullState)).
Proof.
  refine (backgroundPullLoop_calls Samples.clockReadings
            [PullClient.AfterPullLoopPeriod Samples.pullOrder;
             PullClient.CtxDone]
            Samples.pullState _).
  split; [|exact I].
  unfold Samples.pullOrder, Samples.pullState. cbn [PullClient.pullList].
  now rewrite map_to_list_singleton.
Defined.

Lemma stuck_entry_pulls_from_all_peers_instance :
  snd (PullClient.backgroundPullLoopTurn Samples.clockReadings
         Samples.pullOrder Samples.pullState)
  = [PullClient.PullTransactionsFromAllPeers [7]].
Proof.
  refine (stuck_entry_pulls_from_all_peers Samples.clockReadings
            Samples.pullOrder Samples.pullState 7
            (PullClient.mkPullRecord 0 100) _ _ _).
  - intros n m Hnm. unfold Samples.clockReadings. lia.
  - left.
  - vm_compute. reflexivity.
Defined.

Lemma account_prefixes_do_not_overlap_instance :
  ([1; 2] : list Z) = [1; 2].
Proof.
  refine (account_prefixes_do_not_overlap [1; 2] [1; 2] [9; 9] _ _ _).
  - cbn [length]. lia.
  - cbn [length]. lia.
  - reflexivity.
Defined.

Lemma accountTrie_records (k v : list Z) :
  Samples.accountTrie !! k = Some v ->
  (k = Multistate.PartitionLedgerState :: Samples.outputID /\ v = [5])
  \/ (k = Multistate.accountPrefixOf [1] ++ Samples.outputID /\ v = [255]).
Proof.
  unfold Samples.accountTrie. intros Hv.
  apply lookup_insert_Some in Hv as [[<- <-]|[_ Hv]]; [now left|].
  apply lookup_singleton_Some in Hv as [<- <-]. now right.
Qed.

Lemma GetUTXOsLockedInAccount_resolved_instance :
  exists ids outs,
    Multistate.GetIDsLockedInAccount Samples.accountTrie [1] = Peering.Ok ids
    /\ Multistate.GetUTXOsLockedInAccount Samples.accountTrie [1]
       = Peering.Ok outs
    /\ outs.*1
       = List.filter
           (fun id =>
              negb (Nat.eqb
                      (length (Multistate.trieGet Samples.accountTrie
                                 (Multistate.PartitionLedgerState :: id))) 0))
           ids
    /\ Forall (fun o =>
                 snd o = Multistate.trieGet Samples.accountTrie
                           (Multistate.PartitionLedgerState :: fst o)
                 /\ snd o <> []) outs.
Proof.
  refine (GetUTXOsLockedInAccount_resolved Samples.accountTrie [1] _ _).
  - cbn [length]. lia.
  - intros k Hk. apply elem_of_keysWithPrefix in Hk as [[v Hv] Hp].
    apply accountTrie_records in Hv as [[-> _]|[-> _]].
    + discriminate Hp.
    + reflexivity.
Defined.

Lemma GetStem_of_the_one_stem_record_instance :
  Multistate.GetStem Samples.slotOf [1] Samples.accountTrie
  = Peering.Ok (0, [5]).
Proof.
  refine (GetStem_of_the_one_stem_record Samples.slotOf [1]
            Samples.accountTrie Samples.outputID _ _ _).
  - unfold Samples.accountTrie. rewrite lookup_insert_ne by discriminate.
    rewrite lookup_singleton_eq. eauto.
  - intros k [v Hv] Hp.
    apply accountTrie_records in Hv as [[-> _]|[-> _]].
    + discriminate Hp.
    + reflexivity.
  - reflexivity.
Defined.

Lemma GetStem_panics_on_two_stem_records_instance :
  exists msg,
    Multistate.GetStem Samples.slotOf [1] Samples.accountTrie2
    = Peering.Panic msg.
Proof.
  refine (GetStem_panics_on_two_stem_records Samples.slotOf [1]
            Samples.accountTrie2
            (Multistate.accountPrefixOf [1] ++ Samples.outputID)
            (Multistate.accountPrefixOf [1]
               ++ repeat 1 Multistate.OutputIDLength) _ _ _ _ _).
  - discriminate.
  - unfold Samples.accountTrie2, Samples.accountTrie.
    rewrite lookup_insert_ne by discriminate.
    rewrite lookup_insert_ne by discriminate.
    rewrite lookup_singleton_eq. eauto.
  - reflexivity.
  - unfold Samples.accountTrie2. rewrite lookup_insert_eq. eauto.
  - reflexivity.
Defined.

Lemma Update_leaves_other_keys_instance :
  Multistate.storeGet
    (Multistate.store
       (fst (Multistate.Update Samples.slotOf Samples.trieCommit
               Samples.newTrie Samples.updateTrie Samples.rootRecordKey
               Samples.latestSlotKey Samples.rootRecordBytes tt
               (Some Samples.rootRecordParams) None Samples.updatable)))
    [77]
  = Multistate.storeGet (Multistate.store Samples.updatable) [77].
Proof.
  refine (Update_leaves_other_keys Samples.slotOf unit Samples.trieCommit
            Samples.newTrie unit Samples.updateTrie Samples.rootRecordKey
            Samples.latestSlotKey Samples.rootRecordBytes tt
            (Some Samples.rootRecordParams) None Samples.updatable [77]
            _ _ _).
  - intros kv Hin. apply list_elem_of_singleton in Hin. subst kv. discriminate.
  - discriminate.
  - intros par _. discriminate.
Defined.

Lemma Updates_latest_slot_monotone_instance :
  Multistate.FetchLatestCommittedSlot Samples.latestSlotKey
    (Multistate.store Samples.updatable)
  <= Multistate.FetchLatestCommittedSlot Samples.latestSlotKey
       (Multistate.store
          (Multistate.Updates Samples.slotOf Samples.trieCommit
             Samples.newTrie Samples.updateTrie Samples.rootRecordKey
             Samples.latestSlotKey Samples.rootRecordBytes
             [(tt, Some Samples.rootRecordParams, None);
              (tt, None, Some "disk full"%string)]
             Samples.updatable)).
Proof.
  refine (Updates_latest_slot_monotone Samples.slotOf unit Samples.trieCommit
            Samples.newTrie unit Samples.updateTrie Samples.rootRecordKey
            Samples.latestSlotKey Samples.rootRecordBytes
            [(tt, Some Samples.rootRecordParams, None);
             (tt, None, Some "disk full"%string)]
            _ _ _ Samples.updatable).
  - intros t kv Hin. apply list_elem_of_singleton in Hin. subst kv.
    discriminate.
  - intros txid. discriminate.
  - constructor; [|constructor; [|constructor]].
    + intros par [= <-]. vm_compute. split; [discriminate|reflexivity].
    + intros par Hpar. discriminate Hpar.
Defined.

Lemma raising_a_flag_leaves_the_others_instance :
  Vertex.FlagsUp (Vertex.SetFlagsUp 0 Vertex.FlagVertexDefined)
    Vertex.FlagVertexConstraintsValid
  = Vertex.FlagsUp 0 Vertex.FlagVertexConstraintsValid.
Proof.
  refine (raising_a_flag_leaves_the_others 0 Vertex.FlagVertexDefined
            Vertex.FlagVertexConstraintsValid _ _ _).
  - left. reflexivity.
  - right. left. reflexivity.
  - discriminate.
Defined.

Lemma pruneVertices_counts_instance :
  Pruner.toDelete (Pruner.pruneVertices Samples.doPruning Samples.vertices)
  = [0; 2; 4; 6]
  /\ Pruner.refStats (Pruner.pruneVertices Samples.doPruning Samples.vertices)
     = [1; 1; 1; 1; 1; 3].
Proof.
  assert (Hlen : Z.of_nat (length Samples.vertices) < 2 ^ 32)
    by (cbn [Samples.vertices length]; lia).
  assert (Hrefs : Forall (fun vid => 0 <= snd (Samples.doPruning vid))
                    Samples.vertices).
  { unfold Samples.vertices. repeat (constructor; [cbn; lia|]). constructor. }
  destruct (pruneVertices_counts Samples.doPruning Samples.vertices Hlen Hrefs)
    as (Hdel & _ & _ & Hstats & _).
  split; [exact Hdel|exact Hstats].
Defined.

Lemma SendTx_portions_instance :
  length (Workflow.SendTx 1 [10; 20; 30]) = 3%nat.
Proof.
  refine (proj1 (SendTx_portions 1 [10; 20; 30] _)).
  cbn [length]. lia.
Defined.
